(** * COVID-19 Global Data Tracker: the cleaning pipeline and its charts

  A shallow embedding of [finalproject3.py].  The script is a sequence of
  pandas calls, so the embedding has three layers:

  - [Float64]: IEEE-754 binary64 values, taken from the standard
    library's executable specification [SpecFloat] (signed zeros,
    infinities, NaN, round-to-nearest-even);
  - [Pandas]: the part of the DataFrame interface the script consumes
    (boolean indexing, [sort_values], [dropna], [fillna], [groupby] /
    [idxmax], [loc]), column-oriented like the library itself;
  - [Runtime]: exceptions, standard output, rendered figures and the
    object store, as a state-and-exception monad.

  The functions of the script follow, one definition per [def], and then
  the properties of the specification. *)

From Stdlib Require Import ZArith SpecFloat.
From stdpp Require Import base list strings gmap pretty sorting.

Local Open Scope Z_scope.
Local Open Scope nat_scope.

(** ** IEEE-754 binary64 *)

Module Float64.

Abbreviation float := spec_float.

Definition prec : Z := 53.
Definition emax : Z := 1024.

Definition NaN : float := S754_nan.
Definition inf : float := S754_infinity false.
Definition neg_inf : float := S754_infinity true.
Definition zero : float := S754_zero false.

(** [float(n)] for a Python integer [n]. *)
Definition of_Z (n : Z) : float :=
  match n with
  | Z0 => zero
  | Zpos p => binary_normalize prec emax (Zpos p) 0 false
  | Zneg p => binary_normalize prec emax (Zpos p) 0 true
  end.

Definition div : float → float → float := SFdiv prec emax.
Definition mul : float → float → float := SFmul prec emax.

Definition is_nan (x : float) : bool :=
  match x with S754_nan => true | _ => false end.

Definition is_inf (x : float) : bool :=
  match x with S754_infinity _ => true | _ => false end.

(** [x == 0.0]: both signed zeros compare equal to zero. *)
Definition is_zero (x : float) : bool :=
  match x with S754_zero _ => true | _ => false end.

Definition is_finite (x : float) : bool :=
  match x with S754_zero _ | S754_finite _ _ _ => true | _ => false end.

(** The order used when sorting a float column: numeric order, with the
    missing value last ([na_position='last']). *)
Definition leb (x y : float) : bool :=
  match SFcompare x y with
  | Some Gt => false
  | Some _ => true
  | None => is_nan y
  end.

#[global] Instance float_eq_dec : EqDecision float.
Proof. solve_decision. Defined.

End Float64.

Import Float64.

(** ** The DataFrame interface *)

Module Pandas.

(** A [datetime64[ns]] value: nanoseconds since the epoch, or [NaT]. *)
Inductive datetime := NaT | Timestamp (ns : Z).

#[global] Instance datetime_eq_dec : EqDecision datetime.
Proof. solve_decision. Defined.

(** Columns are typed.  [read_csv] yields [float64] for numeric columns
    (integer columns are read here as floats too) and [object] for text,
    a missing text cell being [None]; [to_datetime] yields
    [datetime64]. *)
Inductive Column :=
| Float64 (l : list float)
| Object (l : list (option string))
| Datetime64 (l : list datetime).

#[global] Instance Column_eq_dec : EqDecision Column.
Proof. solve_decision. Defined.

(** One cell of a column of any dtype. *)
Inductive Cell :=
| CFloat (x : float)
| CObject (s : option string)
| CDatetime (d : datetime).

#[global] Instance Cell_eq_dec : EqDecision Cell.
Proof. solve_decision. Defined.

Definition cells (c : Column) : list Cell :=
  match c with
  | Float64 l => CFloat <$> l
  | Object l => CObject <$> l
  | Datetime64 l => CDatetime <$> l
  end.

Definition col_length (c : Column) : nat :=
  match c with
  | Float64 l => length l
  | Object l => length l
  | Datetime64 l => length l
  end.

(** A row operation acts on every column alike, whatever its dtype. *)
Definition col_apply (f : ∀ A : Type, list A → list A) (c : Column) : Column :=
  match c with
  | Float64 l => Float64 (f _ l)
  | Object l => Object (f _ l)
  | Datetime64 l => Datetime64 (f _ l)
  end.

(** [pd.isna] on a cell: NaN, None and NaT are missing; infinities are
    not. *)
Definition cell_isna (c : Cell) : bool :=
  match c with
  | CFloat x => is_nan x
  | CObject None => true
  | CObject (Some _) => false
  | CDatetime NaT => true
  | CDatetime (Timestamp _) => false
  end.

Definition notna (c : Column) : list bool := (λ x, negb (cell_isna x)) <$> cells c.

(** A table: the row labels and the named columns.  The left-to-right
    order of the columns is not modelled. *)
Record DataFrame := {
  index : list nat;
  columns : gmap string Column
}.

#[global] Instance DataFrame_eq_dec : EqDecision DataFrame.
Proof. solve_decision. Defined.

(** [len(df)] *)
Definition len (df : DataFrame) : nat := length (index df).

(** [df.empty]: no rows, or no columns. *)
Definition empty (df : DataFrame) : bool :=
  bool_decide (index df = []) || bool_decide (columns df = ∅).

(** Every column has one cell per row label. *)
Definition wf (df : DataFrame) : Prop :=
  map_Forall (λ _ c, col_length c = len df) (columns df).

#[global] Instance wf_dec df : Decision (wf df).
Proof. unfold wf. apply _. Defined.

(** [df[name] = col] *)
Definition setitem (df : DataFrame) (name : string) (col : Column) : DataFrame :=
  {| index := index df; columns := <[name := col]> (columns df) |}.

(** *** Boolean indexing: [df[mask]] *)

Fixpoint select {A : Type} (mask : list bool) (l : list A) : list A :=
  match mask, l with
  | b :: mask, x :: l => if b then x :: select mask l else select mask l
  | _, _ => []
  end.

Definition boolean_index (mask : list bool) (df : DataFrame) : DataFrame :=
  {| index := select mask (index df);
     columns := col_apply (λ _, select mask) <$> columns df |}.

(** [Series.isin(values)] for a list of strings: only text cells can
    match. *)
Definition isin (values : list string) (c : Column) : list bool :=
  (λ x, match x with
        | CObject (Some s) => bool_decide (s ∈ values)
        | _ => false
        end) <$> cells c.

(** *** Sorting *)

Definition object_leb (x y : option string) : bool :=
  match x, y with
  | Some a, Some b => String.leb a b
  | _, None => true
  | None, Some _ => false
  end.

Definition datetime_leb (x y : datetime) : bool :=
  match x, y with
  | Timestamp a, Timestamp b => (a <=? b)%Z
  | _, NaT => true
  | NaT, Timestamp _ => false
  end.

(** Ascending order of cells with missing values last.  Cells of one
    column all have the same dtype; across dtypes the order is by
    constructor, only to make it total. *)
Definition cell_leb (a b : Cell) : bool :=
  match a, b with
  | CFloat x, CFloat y => Float64.leb x y
  | CObject x, CObject y => object_leb x y
  | CDatetime x, CDatetime y => datetime_leb x y
  | CFloat _, _ => true
  | CObject _, CDatetime _ => true
  | CObject _, CFloat _ => false
  | CDatetime _, _ => false
  end.

(** Lexicographic order on the pair of sort keys of a row. *)
Definition key_leb (a b : Cell * Cell) : bool :=
  if cell_leb a.1 b.1
  then (if cell_leb b.1 a.1 then cell_leb a.2 b.2 else true)
  else false.

(** A stable sort.  With several keys [sort_values] sorts stably; the
    output of a stable sort is determined by its input, so insertion
    sort stands for whichever stable algorithm the library runs. *)
Fixpoint insert_by {A : Type} (leb : A → A → bool) (x : A) (l : list A) : list A :=
  match l with
  | [] => [x]
  | y :: l' => if leb x y then x :: l else y :: insert_by leb x l'
  end.

Fixpoint stable_sort {A : Type} (leb : A → A → bool) (l : list A) : list A :=
  match l with
  | [] => []
  | x :: l => insert_by leb x (stable_sort leb l)
  end.

(** Reorder a column by the stable ascending order of the row keys. *)
Definition sort_by {K A : Type} (leb : K → K → bool) (keys : list K) (l : list A) : list A :=
  (stable_sort (λ a b, leb a.1 b.1) (zip keys l)).*2.

Definition reorder (keys : list (Cell * Cell)) (df : DataFrame) : DataFrame :=
  {| index := sort_by key_leb keys (index df);
     columns := col_apply (λ _, sort_by key_leb keys) <$> columns df |}.

(** *** Missing values *)

(** [fillna(method='ffill')] on a float column: a missing cell takes the
    nearest preceding non-missing value, [last] when there is one. *)
Fixpoint ffill_from (last : float) (l : list float) : list float :=
  match l with
  | [] => []
  | x :: l => if is_nan x then last :: ffill_from last l else x :: ffill_from x l
  end.

Definition ffill : list float → list float := ffill_from NaN.

(** [fillna(method='bfill')]: the nearest following non-missing value. *)
Fixpoint bfill (l : list float) : list float :=
  match l with
  | [] => []
  | x :: l => let r := bfill l in (if is_nan x then hd NaN r else x) :: r
  end.

(** [fillna(v)] *)
Definition fillna (v : float) (l : list float) : list float :=
  (λ x, if is_nan x then v else x) <$> l.

(** [replace([inf, -inf], pd.NA)]: a cell equal to either infinity
    becomes missing. *)
Definition replace_inf (l : list float) : list float :=
  (λ x, if is_inf x then NaN else x) <$> l.

(** [df[numeric_cols].fillna(method='ffill').fillna(method='bfill')],
    written back over the numeric columns; [select_dtypes('number')]
    selects the float columns. *)
Definition fill_numeric (c : Column) : Column :=
  match c with
  | Float64 l => Float64 (bfill (ffill l))
  | _ => c
  end.

(** *** Grouping *)

(** The group keys of [groupby]: the distinct non-missing values, in
    ascending order. *)
Definition group_keys (keys : list Cell) : list Cell :=
  stable_sort cell_leb (remove_dups (filter (λ k, cell_isna k = false) keys)).

(** [idxmax]: the label of the first row that holds the greatest
    non-missing value; [best] is the candidate so far. *)
Fixpoint idxmax_from (best : option (nat * Cell)) (rows : list (nat * Cell))
  : option (nat * Cell) :=
  match rows with
  | [] => best
  | (i, v) :: rows =>
      if cell_isna v then idxmax_from best rows
      else match best with
           | None => idxmax_from (Some (i, v)) rows
           | Some (_, b) =>
               if cell_leb v b then idxmax_from best rows
               else idxmax_from (Some (i, v)) rows
           end
  end.

Definition idxmax (rows : list (nat * Cell)) : option nat :=
  fst <$> idxmax_from None rows.

(** The rows of one group, as (label, value) pairs. *)
Definition group_rows (keys : list Cell) (idx : list nat) (vals : list Cell) (g : Cell)
  : list (nat * Cell) :=
  select ((λ k, bool_decide (k = g)) <$> keys) (zip idx vals).

(** *** Label-based selection: [df.loc[labels]] *)

Definition loc_rows {A : Type} (labels idx : list nat) (l : list A) : list A :=
  labels ≫= (λ lab, select ((λ i, bool_decide (i = lab)) <$> idx) l).

Definition loc (labels : list nat) (df : DataFrame) : DataFrame :=
  {| index := loc_rows labels (index df) (index df);
     columns := col_apply (λ _, loc_rows labels (index df)) <$> columns df |}.

(** [df.head()] *)
Definition head (df : DataFrame) : DataFrame :=
  {| index := take 5 (index df);
     columns := col_apply (λ _, take 5) <$> columns df |}.

(** [df.isnull().sum()] *)
Definition null_counts (df : DataFrame) : gmap string nat :=
  (λ c, length (filter (λ x, cell_isna x = true) (cells c))) <$> columns df.

End Pandas.

Import Pandas.

(** ** Exceptions, output and the object store *)

Module Runtime.

Inductive exn :=
| KeyError (key : string)
| TypeError (msg : string)
| ValueError (msg : string)
| UnicodeDecodeError (msg : string)
| ParserError (msg : string).

(** [str(e)] *)
Definition exn_str (e : exn) : string :=
  match e with
  | KeyError k => "'" +:+ k +:+ "'"
  | TypeError m | ValueError m | UnicodeDecodeError m | ParserError m => m
  end.

(** A figure, as handed to the plotting backend by [plt.show()]. *)
Inductive chart :=
| Lineplot (data : DataFrame) (x y hue : string)
| Barplot (data : DataFrame) (x y : string).

Record figure := {
  fig_chart : chart;
  fig_title : string;
  fig_xlabel : string;
  fig_ylabel : string
}.

(** What the process emits, in order: lines on standard output, the
    diagnostics of [explore_data], and the figures shown. *)
Inductive event :=
| Printed (s : string)
| PrintColumns (names : list string)
| PrintFrame (df : DataFrame)
| PrintNullCounts (counts : gmap string nat)
| PrintInfo (df : DataFrame)
| Shown (fig : figure).

Definition is_show (e : event) : bool :=
  match e with Shown _ => true | _ => false end.

(** DataFrames are objects: a variable holds a reference, and a callee
    that assigns into the frame is seen by every holder of the
    reference. *)
Definition ref := nat.

Record State := {
  heap : list DataFrame;
  stdout : list event
}.

Inductive outcome (A : Type) :=
| Returned (a : A)
| Raised (e : exn).
Arguments Returned {A} a.
Arguments Raised {A} e.

Definition M (A : Type) : Type := State → outcome A * State.

(** Calls that touch neither the output nor the store: a value, or the
    exception raised. *)
#[global] Instance result_ret : MRet (sum exn) := λ A, inr.
#[global] Instance result_bind : MBind (sum exn) :=
  λ A B k x, match x with inl e => inl e | inr a => k a end.

Definition ret {A : Type} (a : A) : M A := λ st, (Returned a, st).

Definition bind {A B : Type} (m : M A) (k : A → M B) : M B :=
  λ st, match m st with
        | (Returned a, st') => k a st'
        | (Raised e, st') => (Raised e, st')
        end.

Definition raise {A : Type} (e : exn) : M A := λ st, (Raised e, st).

(** [try: body  except Exception as e: handler(e)] *)
Definition try_except {A : Type} (body : M A) (handler : exn → M A) : M A :=
  λ st, match body st with
        | (Returned a, st') => (Returned a, st')
        | (Raised e, st') => handler e st'
        end.

Definition emit (e : event) : M unit :=
  λ st, (Returned (), {| heap := heap st; stdout := stdout st ++ [e] |}).

Definition print (s : string) : M unit := emit (Printed s).

(** A newly created frame gets a reference no one else holds. *)
Definition alloc (df : DataFrame) : M ref :=
  λ st, (Returned (length (heap st)),
         {| heap := heap st ++ [df]; stdout := stdout st |}).

Definition deref (r : ref) : M DataFrame :=
  λ st, match heap st !! r with
        | Some df => (Returned df, st)
        | None => (Raised (KeyError "dangling reference"), st)
        end.

Definition assign (r : ref) (df : DataFrame) : M unit :=
  λ st, (Returned (), {| heap := <[r := df]> (heap st); stdout := stdout st |}).

(** Lift a computation that can only fail. *)
Definition lift {A : Type} (x : exn + A) : M A :=
  match x with
  | inl e => raise e
  | inr a => ret a
  end.

End Runtime.

Import Runtime.

#[global] Instance M_ret : MRet M := @ret.
#[global] Instance M_bind : MBind M := λ A B k m, bind m k.

(** ** Calls that can raise *)

Module Calls.

(** [df[name]]: a missing column is a [KeyError]. *)
Definition getitem (df : DataFrame) (name : string) : exn + Column :=
  match columns df !! name with
  | Some c => inr c
  | None => inl (KeyError name)
  end.

(** Arithmetic between Series is defined on numeric columns. *)
Definition as_float64 (c : Column) : exn + list float :=
  match c with
  | Float64 l => inr l
  | _ => inl (TypeError "unsupported operand type(s) for /")
  end.

(** [a / b], element by element, by the IEEE rules: a zero divisor gives
    an infinity or NaN, never an exception. *)
Definition truediv (a b : list float) : list float := zip_with Float64.div a b.

(** [s * 100] *)
Definition mul_scalar (a : list float) (k : Z) : list float :=
  (λ x, Float64.mul x (Float64.of_Z k)) <$> a.

(** [df.sort_values(by=[by1, by2])] *)
Definition sort_values (by1 by2 : string) (df : DataFrame) : exn + DataFrame :=
  k1 ← getitem df by1;
  k2 ← getitem df by2;
  mret (reorder (zip (cells k1) (cells k2)) df).

(** The mask of [dropna(subset=...)]: a row is kept when none of the
    listed columns is missing in it. *)
Fixpoint notna_all (df : DataFrame) (subset : list string) : exn + list bool :=
  match subset with
  | [] => mret ((λ _, true) <$> index df)
  | name :: subset =>
      c ← getitem df name;
      mask ← notna_all df subset;
      mret (zip_with andb (notna c) mask)
  end.

Definition dropna (subset : list string) (df : DataFrame) : exn + DataFrame :=
  mask ← notna_all df subset;
  mret (boolean_index mask df).

(** [df.groupby(key)[col].idxmax()]: one label per group.  The reduction
    is not defined on text, and a group without any value has no
    maximum. *)
Definition groupby_idxmax (key col : string) (df : DataFrame) : exn + list nat :=
  k ← getitem df key;
  v ← getitem df col;
  match v with
  | Object _ => inl (TypeError "reduction operation 'argmax' not allowed for this dtype")
  | _ =>
      mapM (λ g, match idxmax (group_rows (cells k) (index df) (cells v) g) with
                 | Some lab => inr lab
                 | None => inl (ValueError "attempt to get argmax of an empty sequence")
                 end)
           (group_keys (cells k))
  end.

(** seaborn resolves the column names against [data]. *)
Definition resolve (df : DataFrame) (name : string) : exn + unit :=
  match columns df !! name with
  | Some _ => inr ()
  | None => inl (ValueError ("Could not interpret value `" +:+ name +:+ "`"))
  end.

Definition lineplot (data : DataFrame) (x y hue : string) : M chart :=
  lift (resolve data x);;
  lift (resolve data y);;
  lift (resolve data hue);;
  ret (Lineplot data x y hue).

Definition barplot (data : DataFrame) (x y : string) : M chart :=
  lift (resolve data x);;
  lift (resolve data y);;
  ret (Barplot data x y).

(** [plt.title], [plt.xlabel], [plt.ylabel], [plt.show()] *)
Definition show (c : chart) (title xlabel ylabel : string) : M unit :=
  emit (Shown {| fig_chart := c; fig_title := title;
                fig_xlabel := xlabel; fig_ylabel := ylabel |}).

(** [s.endswith(suffix)] *)
Definition endswith (s suffix : string) : bool :=
  bool_decide (String.length suffix ≤ String.length s) &&
  bool_decide (String.substring (String.length s - String.length suffix)
                                (String.length suffix) s = suffix).

End Calls.

Import Calls.

(** ** The script *)

Definition nl : string := String (Ascii.ascii_of_nat 10) "".

Definition bytes := list Byte.byte.

Module Script.
Section Parsers.

(** The library's parsers are not part of the script; they are taken as
    given.  [strptime col s] is the timestamp pandas reads from the text
    [s] of the column [col] (the format is inferred from the column), or
    the exception it raises; [datetime_of_float] converts a number to a
    timestamp; [decode_utf8] is [bytes.decode('utf-8')] and [read_csv]
    is [pd.read_csv] on the decoded text. *)
Variable strptime : list (option string) → string → exn + datetime.
Variable datetime_of_float : float → exn + datetime.
Variable decode_utf8 : bytes → exn + string.
Variable read_csv : string → exn + DataFrame.

(** [pd.to_datetime(col)]: a datetime column is returned as it is, a
    missing text cell becomes [NaT]. *)
Definition to_datetime (c : Column) : exn + list datetime :=
  match c with
  | Datetime64 l => inr l
  | Object l =>
      mapM (λ x, match x with
                 | None => inr NaT
                 | Some s => strptime l s
                 end) l
  | Float64 l => mapM datetime_of_float l
  end.

(** The [for fn in uploaded.keys()] loop of [load_data_from_upload],
    with its [break]. *)
Fixpoint first_csv (file_name : option string) (keys : list string) : option string :=
  match keys with
  | [] => file_name
  | fn :: keys => if endswith fn ".csv" then Some fn else first_csv file_name keys
  end.

(** [if file_name:] is false for [None] and for the empty string. *)
Definition truthy (file_name : option string) : bool :=
  match file_name with
  | Some s => negb (bool_decide (s = ""))
  | None => false
  end.

(** [uploaded[file_name]] in the dictionary returned by
    [files.upload()], kept in insertion order. *)
Fixpoint dict_get (uploaded : list (string * bytes)) (key : string) : exn + bytes :=
  match uploaded with
  | [] => inl (KeyError key)
  | (k, v) :: uploaded => if bool_decide (k = key) then inr v else dict_get uploaded key
  end.

(** [uploaded] is what the upload dialog returned. *)
Definition load_data_from_upload (uploaded : list (string * bytes)) : M (option ref) :=
  print "Please upload your 'owid-covid-data.csv' file.";;
  let file_name := first_csv None uploaded.*1 in
  if truthy file_name then
    let file_name := default "" file_name in
    try_except
      (content ← lift (dict_get uploaded file_name);
       text ← lift (decode_utf8 content);
       df ← lift (read_csv text);
       df ← alloc df;
       print ("Data '" +:+ file_name +:+ "' loaded successfully!");;
       mret (Some df))
      (λ e,
         print ("Error loading file: " +:+ exn_str e);;
         mret None)
  else
    print "No CSV file found among uploaded files. Please upload a CSV.";;
    mret None.

Definition explore_data (df : ref) : M unit :=
  d ← deref df;
  print (nl +:+ "--- Data Exploration ---");;
  print "Columns in the dataset:";;
  emit (PrintColumns (elements (dom (columns d))));;
  print (nl +:+ "Preview of the data:");;
  emit (PrintFrame (head d));;
  print (nl +:+ "Missing values in each column:");;
  emit (PrintNullCounts (null_counts d));;
  print (nl +:+ "Data Info:");;
  emit (PrintInfo d).

Definition countries_of_interest : list string := ["United States"; "India"; "Canada"].

Definition critical : list string :=
  ["date"; "total_cases"; "total_deaths"; "total_vaccinations"].

(** [clean_data] rebinds its local [df] to frames of its own (the filtered
    copy, the sorted frame) and assigns only into those, so the caller's
    frame is read once and the result is a new object. *)
Definition clean_data (df : ref) : M ref :=
  print (nl +:+ "--- Data Cleaning ---");;
  d ← deref df;
  location ← lift (getitem d "location");
  let d := boolean_index (isin countries_of_interest location) d in
  date ← lift (getitem d "date");
  date ← lift (to_datetime date);
  let d := setitem d "date" (Datetime64 date) in
  d ← lift (sort_values "location" "date" d);
  let initial_rows := len d in
  d ← lift (dropna critical d);
  print ("Dropped " +:+ pretty (Z.of_nat initial_rows - Z.of_nat (len d))%Z
         +:+ " rows with missing critical values.");;
  let d := {| index := index d; columns := fill_numeric <$> columns d |} in
  print "Data cleaned successfully!";;
  alloc d.

(** The four time-series charts share one shape. *)
Definition plot_over_time (banner y title ylabel : string) (df : ref) : M unit :=
  print banner;;
  d ← deref df;
  c ← lineplot d "date" y "location";
  show c title "Date" ylabel.

Definition plot_total_cases (df : ref) : M unit :=
  plot_over_time (nl +:+ "--- Plotting Total COVID-19 Cases Over Time ---")
    "total_cases" "Total COVID-19 Cases Over Time" "Total Cases" df.

Definition plot_total_deaths (df : ref) : M unit :=
  plot_over_time (nl +:+ "--- Plotting Total COVID-19 Deaths Over Time ---")
    "total_deaths" "Total COVID-19 Deaths Over Time" "Total Deaths" df.

Definition compare_daily_new_cases (df : ref) : M unit :=
  plot_over_time (nl +:+ "--- Comparing Daily New COVID-19 Cases (Smoothed) ---")
    "new_cases_smoothed" "Daily New COVID-19 Cases (Smoothed) Over Time"
    "New Cases (Smoothed)" df.

(** The death-rate column, as the three statements compute it: the
    ratio in percent, infinities made missing, then forward fill and a
    default of 0. *)
Definition death_rate_raw (total_deaths total_cases : list float) : list float :=
  mul_scalar (truediv total_deaths total_cases) 100.

Definition death_rate (total_deaths total_cases : list float) : list float :=
  fillna (Float64.of_Z 0) (ffill (replace_inf (death_rate_raw total_deaths total_cases))).

(** Each assignment to [df['death_rate']] goes to the caller's object. *)
Definition calculate_and_plot_death_rate (df : ref) : M unit :=
  print (nl +:+ "--- Calculating and Plotting Death Rate ---");;
  d ← deref df;
  total_deaths ← lift (getitem d "total_deaths" ≫= as_float64);
  total_cases ← lift (getitem d "total_cases" ≫= as_float64);
  let rate := death_rate_raw total_deaths total_cases in
  assign df (setitem d "death_rate" (Float64 rate));;
  d ← deref df;
  let rate := replace_inf rate in
  assign df (setitem d "death_rate" (Float64 rate));;
  d ← deref df;
  let rate := fillna (Float64.of_Z 0) (ffill rate) in
  assign df (setitem d "death_rate" (Float64 rate));;
  d ← deref df;
  c ← lineplot d "date" "death_rate" "location";
  show c "COVID-19 Death Rate (%) Over Time" "Date" "Death Rate (%)".

Definition plot_cumulative_vaccinations (df : ref) : M unit :=
  plot_over_time (nl +:+ "--- Plotting Cumulative Vaccinations Over Time ---")
    "total_vaccinations" "Cumulative COVID-19 Vaccinations Over Time"
    "Total Vaccinations" df.

Definition compare_vaccinated_population (df : ref) : M unit :=
  print (nl +:+ "--- Comparing Vaccinated Population (%) ---");;
  d ← deref df;
  labels ← lift (groupby_idxmax "location" "date" d);
  let latest_data := loc labels d in
  latest_data ← lift (dropna ["people_vaccinated_per_hundred"] latest_data);
  if negb (empty latest_data) then
    c ← barplot latest_data "location" "people_vaccinated_per_hundred";
    show c "Percentage of Population Vaccinated (Latest Data)" "Country"
      "People Vaccinated Per Hundred (%)"
  else
    print "No vaccination data available for comparison after cleaning.".

(** The [__main__] block. *)
Definition main (uploaded : list (string * bytes)) : M unit :=
  data ← load_data_from_upload uploaded;
  match data with
  | Some data =>
      explore_data data;;
      cleaned_data ← clean_data data;
      c ← deref cleaned_data;
      if negb (empty c) then
        plot_total_cases cleaned_data;;
        plot_total_deaths cleaned_data;;
        compare_daily_new_cases cleaned_data;;
        calculate_and_plot_death_rate cleaned_data;;
        plot_cumulative_vaccinations cleaned_data;;
        compare_vaccinated_population cleaned_data
      else
        print (nl +:+ "Cleaned data is empty. No plots can be generated.")
  | None => mret ()
  end.

End Parsers.
End Script.

Import Script.

Definition initial : State := {| heap := []; stdout := [] |}.

(** ** Sample inputs *)

Module Sample.

(** A stand-in date parser for the examples: the digits of an ISO date
    read as one number (["2021-03-01"] is [20210301]); anything without
    a digit is refused. *)
Fixpoint digits (acc : option Z) (s : string) : option Z :=
  match s with
  | EmptyString => acc
  | String a s =>
      let n := Z.of_nat (Ascii.nat_of_ascii a) in
      if bool_decide (48 ≤ n ≤ 57)%Z
      then digits (Some (10 * default 0%Z acc + (n - 48))%Z) s
      else if bool_decide (n = 45%Z) then digits acc s
      else None
  end.

Definition strptime (_ : list (option string)) (s : string) : exn + datetime :=
  match digits None s with
  | Some n => inr (Timestamp n)
  | None => inl (ValueError ("Unknown datetime string format: " +:+ s))
  end.

Definition datetime_of_float (x : float) : exn + datetime :=
  match x with
  | S754_nan => inr NaT
  | S754_zero _ => inr (Timestamp 0)
  | S754_finite false m e => inr (Timestamp (Z.shiftl (Zpos m) e))
  | _ => inl (ValueError "cannot convert input with unit 'ns'")
  end.

(** The uploaded "file" is the name of one of the tables below. *)
Definition decode_utf8 (b : bytes) : exn + string :=
  if bool_decide (Forall (λ c, (Byte.to_N c < 128)%N) b)
  then inr (String.string_of_list_byte b)
  else inl (UnicodeDecodeError "'utf-8' codec can't decode byte").

Definition num (n : Z) : float := Float64.of_Z n.

Definition frame (idx : list nat) (cols : list (string * Column)) : DataFrame :=
  {| index := idx; columns := list_to_map cols |}.

(** Four countries on one date, and a second date for two of them. *)
Definition four_countries : DataFrame :=
  frame [0; 1; 2; 3; 4; 5]
    [("location", Object [Some "United States"; Some "Brazil"; Some "India";
                          Some "Canada"; Some "India"; Some "Brazil"]);
     ("date", Object [Some "2021-03-01"; Some "2021-03-01"; Some "2021-03-02";
                      Some "2021-03-01"; Some "2021-03-01"; Some "not a date"]);
     ("total_cases", Float64 [num 500; num 70; num 300; num 100; num 200; num 80]);
     ("total_deaths", Float64 [num 10; num 7; num 6; num 2; NaN; num 8]);
     ("total_vaccinations", Float64 [num 50; num 7; num 30; num 10; num 20; num 9]);
     ("new_cases_smoothed", Float64 [NaN; num 1; num 3; NaN; NaN; NaN]);
     ("people_vaccinated_per_hundred", Float64 [NaN; NaN; NaN; NaN; NaN; NaN])].

(** Canada, then India whose first date has no case and no death. *)
Definition india_starts_at_zero : DataFrame :=
  frame [3; 7; 8]
    [("location", Object [Some "Canada"; Some "India"; Some "India"]);
     ("date", Datetime64 [Timestamp 20210301; Timestamp 20210301; Timestamp 20210302]);
     ("total_cases", Float64 [num 100; num 0; num 50]);
     ("total_deaths", Float64 [num 2; num 0; num 1]);
     ("total_vaccinations", Float64 [num 10; num 0; num 5])].

(** A table that already carries a column named death_rate. *)
Definition with_death_rate : DataFrame :=
  frame [0; 1]
    [("location", Object [Some "Canada"; Some "Canada"]);
     ("date", Datetime64 [Timestamp 20210301; Timestamp 20210302]);
     ("total_cases", Float64 [num 100; num 200]);
     ("total_deaths", Float64 [num 2; num 4]);
     ("total_vaccinations", Float64 [num 10; num 20]);
     ("death_rate", Float64 [num 7; num 7])].

(** Only countries outside the allow-list, with dates that do not
    parse. *)
Definition only_brazil : DataFrame :=
  frame [0; 1]
    [("location", Object [Some "Brazil"; Some "Brazil"]);
     ("date", Object [Some "yesterday"; None]);
     ("total_cases", Float64 [num 70; num 80]);
     ("total_deaths", Float64 [num 7; num 8]);
     ("total_vaccinations", Float64 [NaN; num 9])].

Definition read_csv (text : string) : exn + DataFrame :=
  if bool_decide (text = "four_countries") then inr four_countries
  else if bool_decide (text = "only_brazil") then inr only_brazil
  else inl (ParserError "Error tokenizing data").

Definition file (text : string) : bytes := String.list_byte_of_string text.

(** A store that holds one table, at reference 0. *)
Definition holding (df : DataFrame) : State := {| heap := [df]; stdout := [] |}.

(** [clean_data] run on that table; the result is at reference 1. *)
Definition cleaned (df : DataFrame) : State :=
  (clean_data strptime datetime_of_float 0 (holding df)).2.

(** A cleaned table with two dates for India. *)
Definition vaccinated : DataFrame :=
  frame [3; 7; 8]
    [("location", Object [Some "Canada"; Some "India"; Some "India"]);
     ("date", Datetime64 [Timestamp 20210301; Timestamp 20210301; Timestamp 20210302]);
     ("total_cases", Float64 [num 100; num 200; num 300]);
     ("total_deaths", Float64 [num 2; num 4; num 6]);
     ("total_vaccinations", Float64 [num 10; num 20; num 30]);
     ("people_vaccinated_per_hundred", Float64 [num 1; num 2; num 3])].

(** A table whose first row has no case and no death. *)
Definition starts_at_zero : DataFrame :=
  frame [0; 1]
    [("location", Object [Some "Canada"; Some "Canada"]);
     ("date", Datetime64 [Timestamp 20210301; Timestamp 20210302]);
     ("total_cases", Float64 [num 0; num 50]);
     ("total_deaths", Float64 [num 0; num 1]);
     ("total_vaccinations", Float64 [num 0; num 5])].

Definition upload_brazil : list (string * bytes) :=
  [("notes.txt", file "four_countries"); ("owid.csv", file "only_brazil")].

End Sample.

(** ** Inputs that lack something *)

Module Defective.

(** No location column. *)
Definition no_location : DataFrame :=
  Sample.frame [0; 1]
    [("date", Object [Some "2021-03-01"; Some "2021-03-02"]);
     ("total_cases", Float64 [Sample.num 100; Sample.num 200]);
     ("total_deaths", Float64 [Sample.num 2; Sample.num 4]);
     ("total_vaccinations", Float64 [Sample.num 10; Sample.num 20])].

(** The case counts were read as text. *)
Definition text_counts : DataFrame :=
  Sample.frame [0; 1]
    [("location", Object [Some "Canada"; Some "Canada"]);
     ("date", Datetime64 [Timestamp 20210301; Timestamp 20210302]);
     ("total_cases", Object [Some "1,000"; Some "2,000"]);
     ("total_deaths", Float64 [Sample.num 2; Sample.num 4])].

(** Counts only: nothing to put on the x axis. *)
Definition counts_only : DataFrame :=
  Sample.frame [0; 1]
    [("total_cases", Float64 [Sample.num 100; Sample.num 200]);
     ("total_deaths", Float64 [Sample.num 2; Sample.num 4])].

(** A reader that also knows the table [Sample.vaccinated], which has no
    new_cases_smoothed column. *)
Definition read_csv (text : string) : exn + DataFrame :=
  if bool_decide (text = "vaccinated") then inr Sample.vaccinated
  else Sample.read_csv text.

Definition upload_notes : list (string * bytes) :=
  [("notes.txt", Sample.file "four_countries"); ("data.CSV", Sample.file "four_countries")].


Definition upload_vaccinated : list (string * bytes) :=
  [("owid-covid-data.csv", Sample.file "vaccinated")].

End Defective.

(** ** Vocabulary of the properties *)

(** The cells of a named column, none when the column is absent. *)
Definition column_cells (df : DataFrame) (name : string) : list Cell :=
  from_option cells [] (columns df !! name).

(** The (location, date) key of every row, top to bottom. *)
Definition row_keys (df : DataFrame) : list (Cell * Cell) :=
  zip (column_cells df "location") (column_cells df "date").

Definition key_le (a b : Cell * Cell) : Prop := key_leb a b = true.

#[global] Instance key_le_dec : RelDecision key_le.
Proof. intros a b. unfold key_le. apply _. Defined.

(** The labels of the rows whose key is [k], top to bottom. *)
Definition labels_with_key (df : DataFrame) (k : Cell * Cell) : list nat :=
  (filter (λ r, r.1 = k) (zip (row_keys df) (index df))).*2.

Definition allowed (c : Cell) : Prop :=
  c = CObject (Some "United States") ∨ c = CObject (Some "India") ∨
  c = CObject (Some "Canada").

(** The gap-fill of [clean_data] applied to a whole frame. *)
Definition fill_frame (df : DataFrame) : DataFrame :=
  {| index := index df; columns := fill_numeric <$> columns df |}.

(** The rows at the positions [ps], in that order ([df.iloc[ps]]). *)
Definition rows_at (ps : list nat) (d : DataFrame) : DataFrame :=
  {| index := omap (index d !!.) ps;
     columns := col_apply (λ _ l, omap (l !!.) ps) <$> columns d |}.

(** Row [p] holds a value in the column [name]. *)
Definition has_value (d : DataFrame) (name : string) (p : nat) : bool :=
  match column_cells d name !! p with
  | Some x => negb (cell_isna x)
  | None => false
  end.

Definition death_rate_figure (d : DataFrame) : figure :=
  {| fig_chart := Lineplot d "date" "death_rate" "location";
     fig_title := "COVID-19 Death Rate (%) Over Time";
     fig_xlabel := "Date";
     fig_ylabel := "Death Rate (%)" |}.

Definition vaccination_figure (d : DataFrame) : figure :=
  {| fig_chart := Barplot d "location" "people_vaccinated_per_hundred";
     fig_title := "Percentage of Population Vaccinated (Latest Data)";
     fig_xlabel := "Country";
     fig_ylabel := "People Vaccinated Per Hundred (%)" |}.

Definition not_csv (entry : string * bytes) : Prop := endswith entry.1 ".csv" = false.

(** A cell of a float column that holds a value. *)
Definition present (x : float) : Prop := is_nan x = false.

(** Row [p] has location [g], and no row of [g] has a later date. *)
Definition latest_of (d : DataFrame) (g : Cell) (p : nat) : Prop :=
  column_cells d "location" !! p = Some g ∧
  ∃ v, column_cells d "date" !! p = Some v ∧
       ∀ q w, column_cells d "location" !! q = Some g →
              column_cells d "date" !! q = Some w → cell_leb w v = true.

(** What [clean_data] establishes: the countries are allow-listed, the
    dates are parsed, the critical columns are complete, the rows are in
    key order and the numeric columns are gap-filled. *)
Definition cleaned_table (d : DataFrame) : Prop :=
  wf d ∧
  (∃ c, columns d !! "location" = Some c ∧ Forall allowed (cells c)) ∧
  (∃ l, columns d !! "date" = Some (Datetime64 l)) ∧
  (∀ name, name ∈ critical →
     ∃ c, columns d !! name = Some c ∧ Forall (λ x, cell_isna x = false) (cells c)) ∧
  StronglySorted key_le (row_keys d) ∧
  fill_frame d = d.

Section Stages.
Variable strptime : list (option string) → string → exn + datetime.
Variable datetime_of_float : float → exn + datetime.

(** The frames [clean_data] goes through on the table [d]: after the
    country filter, after the sort (dates parsed), after the row
    removal. *)
Definition clean_stages (d filtered sorted dropped : DataFrame) : Prop :=
  ∃ location date,
    columns d !! "location" = Some location ∧
    filtered = boolean_index (isin countries_of_interest location) d ∧
    (getitem filtered "date" ≫= to_datetime strptime datetime_of_float) = inr date ∧
    sort_values "location" "date" (setitem filtered "date" (Datetime64 date)) = inr sorted ∧
    dropna critical sorted = inr dropped.

(** What [clean_data] prints when it drops [n] rows. *)
Definition clean_log (n : Z) : list event :=
  [Printed (nl +:+ "--- Data Cleaning ---");
   Printed ("Dropped " +:+ pretty n +:+ " rows with missing critical values.");
   Printed "Data cleaned successfully!"].

End Stages.

(** ** Vocabulary of the further properties *)

(** A number below zero: a negative finite number or minus infinity.  A
    zero of either sign is not below zero, and NaN is not a number. *)
Definition is_negative (x : float) : bool :=
  match x with
  | S754_finite true _ _ | S754_infinity true => true
  | _ => false
  end.

(** [Series.dtype] *)
Definition dtype (c : Column) : string :=
  match c with
  | Float64 _ => "float64"
  | Object _ => "object"
  | Datetime64 _ => "datetime64[ns]"
  end.

(** The figures among the events, in the order they were shown. *)
Definition figures (evs : list event) : list figure :=
  omap (λ e, match e with Shown fig => Some fig | _ => None end) evs.

Definition line_figure (d : DataFrame) (y title ylabel : string) : figure :=
  {| fig_chart := Lineplot d "date" y "location";
     fig_title := title;
     fig_xlabel := "Date";
     fig_ylabel := ylabel |}.

(** The four line charts over time: the column drawn, the title, the
    label of the y axis, and the function that draws it. *)
Definition line_charts : list (string * string * string * (ref → M unit)) :=
  [("total_cases", "Total COVID-19 Cases Over Time", "Total Cases", plot_total_cases);
   ("total_deaths", "Total COVID-19 Deaths Over Time", "Total Deaths", plot_total_deaths);
   ("new_cases_smoothed", "Daily New COVID-19 Cases (Smoothed) Over Time",
    "New Cases (Smoothed)", compare_daily_new_cases);
   ("total_vaccinations", "Cumulative COVID-19 Vaccinations Over Time",
    "Total Vaccinations", plot_cumulative_vaccinations)].

(** The (label, cell) pairs of a column: which row holds which cell. *)
Definition labelled (df : DataFrame) (name : string) : list (nat * Cell) :=
  zip (index df) (column_cells df name).

(** * Properties *)

(** ** Boolean masks *)

Section select_facts.
Context {A : Type}.
Implicit Types (mask : list bool) (l : list A).

Lemma select_nil_r mask : select mask (@nil A) = [].
Proof. by destruct mask as [|[] ?]. Qed.

Lemma select_sublist mask l : select mask l `sublist_of` l.
Proof.
  revert l. induction mask as [|b mask IH]; intros [|x l]; simpl;
    [apply sublist_nil | apply sublist_nil_l | apply sublist_nil |].
  destruct b; [by apply sublist_skip | by apply sublist_cons].
Qed.

Lemma select_Forall (P : A → Prop) mask l : Forall P l → Forall P (select mask l).
Proof.
  intros H. revert mask. induction H as [|x l Hx Hl IH]; intros [|[] mask]; simpl; auto.
Qed.

(** The number of rows a mask keeps depends on the mask only. *)
Lemma length_select mask l :
  length mask = length l →
  length (select mask l) = length (filter (λ b, b = true) mask).
Proof.
  revert l. induction mask as [|b mask IH]; intros [|x l] Hlen; try done.
  injection Hlen as Hlen. rewrite filter_cons.
  destruct b; simpl; auto.
Qed.

Lemma select_all_true mask l :
  Forall (λ b, b = true) mask → length l ≤ length mask → select mask l = l.
Proof.
  intros H. revert l. induction H as [|b mask -> _ IH]; intros [|x l] Hlen; simpl in *;
    try done; [lia|]. f_equal. apply IH. lia.
Qed.

Lemma select_all_false mask l : Forall (λ b, b = false) mask → select mask l = [].
Proof.
  intros H. revert l. induction H as [|b mask -> _ IH]; intros [|x l]; simpl; auto.
Qed.

(** A row that survives a mask was marked by it. *)
Lemma select_Forall_lookup (P : A → Prop) mask l :
  (∀ i x, mask !! i = Some true → l !! i = Some x → P x) →
  Forall P (select mask l).
Proof.
  revert l. induction mask as [|b mask IH]; intros [|x l] H; simpl; try constructor.
  destruct b.
  - constructor; [by apply (H 0)|]. apply IH. intros i y ??. by apply (H (S i)).
  - apply IH. intros i y ??. by apply (H (S i)).
Qed.

Lemma select_StronglySorted (R : relation A) mask l :
  StronglySorted R l → StronglySorted R (select mask l).
Proof.
  intros H. revert mask. induction H as [|x l Hl IH Hx]; intros [|b mask]; simpl;
    try constructor.
  destruct b; [|done]. constructor; [done|]. by apply select_Forall.
Qed.

Lemma select_NoDup mask l : NoDup l → NoDup (select mask l).
Proof. intros H. eapply sublist_NoDup; [done | apply select_sublist]. Qed.

End select_facts.

Lemma select_fmap {A B : Type} (f : A → B) mask l :
  select mask (f <$> l) = f <$> select mask l.
Proof.
  revert l. induction mask as [|b mask IH]; intros [|x l]; simpl; try done.
  destruct b; simpl; by rewrite IH.
Qed.

Lemma select_zip {A B : Type} mask (a : list A) (b : list B) :
  select mask (zip a b) = zip (select mask a) (select mask b).
Proof.
  revert a b. induction mask as [|c mask IH]; intros [|x a] [|y b]; simpl; try done.
  - destruct c; simpl; [done|]. by destruct (select mask a).
  - destruct c; simpl; by rewrite IH.
Qed.

Lemma select_self {A : Type} (f : A → bool) (l : list A) :
  Forall (λ x, f x = true) (select (f <$> l) l).
Proof.
  induction l as [|x l IH]; simpl; [constructor|].
  destruct (f x) eqn:E; auto.
Qed.

Lemma cells_select mask c :
  cells (col_apply (λ _, select mask) c) = select mask (cells c).
Proof. destruct c; simpl; by rewrite select_fmap. Qed.

Lemma col_length_cells c : col_length c = length (cells c).
Proof. destruct c; simpl; by rewrite length_fmap. Qed.

(** ** The stable sort *)

Section sort_facts.
Context {A : Type} (leb : A → A → bool).
Implicit Types l : list A.

Let le (a b : A) : Prop := leb a b = true.

Lemma insert_by_Permutation x l : insert_by leb x l ≡ₚ x :: l.
Proof.
  induction l as [|y l IH]; simpl; [done|].
  destruct (leb x y); [done|]. rewrite IH. apply Permutation_swap.
Qed.

Lemma stable_sort_Permutation l : stable_sort leb l ≡ₚ l.
Proof.
  induction l as [|x l IH]; simpl; [done|].
  by rewrite insert_by_Permutation, IH.
Qed.

Lemma length_stable_sort l : length (stable_sort leb l) = length l.
Proof. apply Permutation_length, stable_sort_Permutation. Qed.

(** A sorted list is a fixed point. *)
Lemma stable_sort_Sorted_id l : Sorted le l → stable_sort leb l = l.
Proof.
  induction 1 as [|x l Hl IH Hx]; simpl; [done|]. rewrite IH.
  destruct Hx as [|y l Hxy]; simpl; [done|]. unfold le in Hxy. by rewrite Hxy.
Qed.

(** Stability: rows that the order cannot tell apart keep their relative
    order. *)
Lemma filter_insert_by (P : A → Prop) `{!∀ x, Decision (P x)} x l :
  (∀ y, P x → P y → leb x y = true) →
  filter P (insert_by leb x l) = filter P (x :: l).
Proof.
  intros HP. induction l as [|y l IH]; simpl; [done|].
  destruct (leb x y) eqn:Hxy; [done|].
  rewrite (filter_cons _ y), IH, !filter_cons.
  destruct (decide (P x)) as [Hx|Hx]; [|done].
  destruct (decide (P y)) as [Hy|Hy]; [|done].
  rewrite HP in Hxy; done.
Qed.

Lemma stable_sort_stable (P : A → Prop) `{!∀ x, Decision (P x)} l :
  (∀ x y, P x → P y → leb x y = true) →
  filter P (stable_sort leb l) = filter P l.
Proof.
  intros HP. induction l as [|x l IH]; simpl; [done|].
  rewrite filter_insert_by by eauto. by rewrite !filter_cons, IH.
Qed.

Section total.
Hypothesis leb_total : ∀ a b, leb a b = true ∨ leb b a = true.

Lemma insert_by_Sorted x l : Sorted le l → Sorted le (insert_by leb x l).
Proof.
  induction 1 as [|y l Hl IH Hy]; simpl; [by repeat constructor|].
  destruct (leb x y) eqn:Hxy.
  - repeat constructor; done.
  - constructor; [done|].
    assert (le y x) by (destruct (leb_total x y); [congruence | done]).
    destruct Hy as [|z l Hyz]; simpl; [by constructor|].
    destruct (leb x z); by constructor.
Qed.

Lemma stable_sort_Sorted l : Sorted le (stable_sort leb l).
Proof. induction l; simpl; [constructor | by apply insert_by_Sorted]. Qed.

Lemma stable_sort_StronglySorted l :
  Transitive le → StronglySorted le (stable_sort leb l).
Proof. intros ?. apply Sorted_StronglySorted; [done | apply stable_sort_Sorted]. Qed.

End total.
End sort_facts.

(** Sorting commutes with a map that preserves the order. *)
Lemma stable_sort_fmap {A B : Type} (h : A → B) (leb : A → A → bool)
    (leb' : B → B → bool) (l : list A) :
  (∀ a b, leb' (h a) (h b) = leb a b) →
  stable_sort leb' (h <$> l) = h <$> stable_sort leb l.
Proof.
  intros Hh. induction l as [|x l IH]; csimpl; [done|]. rewrite IH.
  generalize (stable_sort leb l). intros s.
  induction s as [|y s IHs]; csimpl; [done|].
  rewrite Hh. destruct (leb x y); csimpl; [done|]. by rewrite IHs.
Qed.

Section sort_by_facts.
Context {K : Type} (leb : K → K → bool).
Implicit Types keys : list K.

Let le (a b : K) : Prop := leb a b = true.

Lemma length_sort_by {A : Type} keys (l : list A) :
  length keys = length l → length (sort_by leb keys l) = length l.
Proof.
  intros Hlen. unfold sort_by.
  rewrite length_fmap, length_stable_sort, length_zip. lia.
Qed.

Lemma sort_by_Permutation {A : Type} keys (l : list A) :
  length keys = length l → sort_by leb keys l ≡ₚ l.
Proof.
  intros Hlen. unfold sort_by. rewrite stable_sort_Permutation.
  rewrite snd_zip; [done | lia].
Qed.

Lemma sort_by_Forall {A : Type} (P : A → Prop) keys (l : list A) :
  Forall P l → Forall P (sort_by leb keys l).
Proof.
  intros H. unfold sort_by. apply Forall_fmap.
  rewrite stable_sort_Permutation. apply Forall_forall. intros [k x] Hin.
  apply elem_of_zip_r in Hin. rewrite Forall_forall in H. by apply H.
Qed.

Lemma sort_by_fmap {A B : Type} (g : A → B) keys (l : list A) :
  sort_by leb keys (g <$> l) = g <$> sort_by leb keys l.
Proof.
  unfold sort_by.
  replace (zip keys (g <$> l)) with (prod_map id g <$> zip keys l).
  - rewrite (stable_sort_fmap _ (λ a b, leb a.1 b.1)); [|by intros [] []].
    rewrite <-!list_fmap_compose. by apply list_fmap_ext; intros ? [].
  - revert l. induction keys as [|k keys IH]; intros [|x l]; csimpl; [done..|].
    by rewrite IH.
Qed.

End sort_by_facts.

Section sort_by_more.
Context {K : Type} (leb : K → K → bool).
Implicit Types keys : list K.

Lemma sort_by_self_fmap {B : Type} (f : K → B) keys :
  sort_by leb keys (f <$> keys) = f <$> stable_sort leb keys.
Proof.
  unfold sort_by.
  replace (zip keys (f <$> keys)) with ((λ k, (k, f k)) <$> keys).
  - rewrite (stable_sort_fmap _ leb); [|done]. by rewrite <-list_fmap_compose.
  - induction keys as [|k keys IH]; csimpl; [done|]. by rewrite IH.
Qed.

(** Sorting the zipped rows sorts the keys. *)
Lemma fst_stable_sort_zip {A : Type} keys (l : list A) :
  length keys = length l →
  (stable_sort (λ a b, leb a.1 b.1) (zip keys l)).*1 = stable_sort leb keys.
Proof.
  intros Hlen.
  rewrite <-(stable_sort_fmap fst (λ a b, leb a.1 b.1) leb) by done.
  rewrite fst_zip; [done | lia].
Qed.

Lemma Sorted_fmap_inv {A B : Type} (f : A → B) (R : relation B) (l : list A) :
  Sorted R (f <$> l) → Sorted (λ a b, R (f a) (f b)) l.
Proof.
  induction l as [|x l IH]; csimpl; [constructor|].
  intros [Hl Hx]%Sorted_inv. constructor; [auto|].
  destruct l; csimpl in *; constructor. by apply HdRel_inv in Hx.
Qed.

Lemma sort_by_Sorted_id {A : Type} keys (l : list A) :
  Sorted (λ a b, leb a b = true) keys → length keys = length l →
  sort_by leb keys l = l.
Proof.
  intros Hs Hlen. unfold sort_by. rewrite stable_sort_Sorted_id.
  - rewrite snd_zip; [done | lia].
  - apply (Sorted_fmap_inv fst (λ a b, leb a b = true)).
    rewrite fst_zip; [done | lia].
Qed.

End sort_by_more.

(** ** The order on sort keys *)

Ltac compare_cases :=
  repeat match goal with
  | |- context [(?a ?= ?b)%Z] => destruct (Z.compare_spec a b); subst
  | H : context [(?a ?= ?b)%Z] |- _ => destruct (Z.compare_spec a b); subst
  | |- context [Pos.compare_cont Eq ?a ?b] =>
      change (Pos.compare_cont Eq a b) with (Pos.compare a b);
      destruct (Pos.compare_spec a b); subst
  | H : context [Pos.compare_cont Eq ?a ?b] |- _ =>
      change (Pos.compare_cont Eq a b) with (Pos.compare a b) in H;
      destruct (Pos.compare_spec a b); subst
  end.

Lemma float_leb_total x y : Float64.leb x y = true ∨ Float64.leb y x = true.
Proof.
  unfold Float64.leb.
  destruct x as [[]|[]| |[] mx ex], y as [[]|[]| |[] my ey]; simpl; auto;
    compare_cases; simpl; auto; lia.
Qed.

Lemma float_leb_trans x y z :
  Float64.leb x y = true → Float64.leb y z = true → Float64.leb x z = true.
Proof.
  unfold Float64.leb.
  destruct x as [[]|[]| |[] mx ex], y as [[]|[]| |[] my ey], z as [[]|[]| |[] mz ez];
    simpl; try done; intros; compare_cases; simpl in *; try done; lia.
Qed.

Lemma string_leb_trans a b c :
  String.leb a b = true → String.leb b c = true → String.leb a c = true.
Proof.
  intros H1%Is_true_true H2%Is_true_true. apply Is_true_true.
  change (String.le a c). by trans b.
Qed.

Lemma object_leb_total x y : object_leb x y = true ∨ object_leb y x = true.
Proof. destruct x, y; simpl; auto using String.leb_total. Qed.

Lemma object_leb_trans x y z :
  object_leb x y = true → object_leb y z = true → object_leb x z = true.
Proof. destruct x, y, z; simpl; try done. apply string_leb_trans. Qed.

Lemma datetime_leb_total x y : datetime_leb x y = true ∨ datetime_leb y x = true.
Proof. destruct x, y; simpl; auto. rewrite !Z.leb_le. lia. Qed.

Lemma datetime_leb_trans x y z :
  datetime_leb x y = true → datetime_leb y z = true → datetime_leb x z = true.
Proof. destruct x, y, z; simpl; try done. rewrite !Z.leb_le. lia. Qed.

Lemma cell_leb_total a b : cell_leb a b = true ∨ cell_leb b a = true.
Proof.
  destruct a, b; simpl; auto using float_leb_total, object_leb_total, datetime_leb_total.
Qed.

Lemma cell_leb_trans a b c :
  cell_leb a b = true → cell_leb b c = true → cell_leb a c = true.
Proof.
  destruct a, b, c; simpl; try done;
    eauto using float_leb_trans, object_leb_trans, datetime_leb_trans.
Qed.

Lemma cell_leb_refl a : cell_leb a a = true.
Proof. by destruct (cell_leb_total a a). Qed.

Lemma key_leb_total a b : key_leb a b = true ∨ key_leb b a = true.
Proof.
  unfold key_leb.
  destruct (cell_leb_total a.1 b.1) as [H|H], (cell_leb_total a.2 b.2) as [H'|H'];
    rewrite ?H, ?H'; destruct (cell_leb b.1 a.1), (cell_leb a.1 b.1); auto.
Qed.

Lemma key_leb_refl a : key_leb a a = true.
Proof. by destruct (key_leb_total a a). Qed.

Lemma key_leb_trans a b c :
  key_leb a b = true → key_leb b c = true → key_leb a c = true.
Proof.
  unfold key_leb.
  destruct (cell_leb a.1 b.1) eqn:Hab; [|done].
  destruct (cell_leb b.1 c.1) eqn:Hbc; [|by destruct (cell_leb b.1 a.1)].
  rewrite (cell_leb_trans _ _ _ Hab Hbc).
  destruct (cell_leb c.1 a.1) eqn:Hca; [|done].
  rewrite (cell_leb_trans _ _ _ Hbc Hca), (cell_leb_trans _ _ _ Hca Hab).
  apply cell_leb_trans.
Qed.

Lemma filter_sublist_mono {A : Type} (P : A → Prop) `{!∀ x, Decision (P x)}
    (l1 l2 : list A) :
  l1 `sublist_of` l2 → filter P l1 `sublist_of` filter P l2.
Proof.
  induction 1 as [|x l1 l2 _ IH|x l1 l2 _ IH]; [done| |].
  - rewrite !filter_cons. case_decide; [by apply sublist_skip | done].
  - rewrite filter_cons. case_decide; [by apply sublist_cons | done].
Qed.

Lemma length_filter_mask (mask : list bool) :
  length (filter (λ b, b = true) mask) + length (filter (λ b, b = false) mask)
  = length mask.
Proof.
  induction mask as [|[] mask IH]; [done| |]; rewrite !filter_cons; simpl; lia.
Qed.

(** On the keys of a cleaned row, a country name and a timestamp, the
    order reads: the name is not greater, and when the names are equal
    the date is not later. *)
Lemma key_le_location_date a s b t :
  key_le (CObject (Some a), CDatetime (Timestamp s))
         (CObject (Some b), CDatetime (Timestamp t)) ↔
  String.leb a b = true ∧ (a = b → (s ≤ t)%Z).
Proof.
  unfold key_le, key_leb. simpl.
  destruct (String.leb a b) eqn:Hab; [|by split; [|intros []]].
  destruct (String.leb b a) eqn:Hba.
  - rewrite Z.leb_le. pose proof (String.leb_antisym _ _ Hab Hba). tauto.
  - split; [|done]. intros _. split; [done|]. intros ->. congruence.
Qed.

(** ** Gap filling *)

Lemma is_nan_true x : is_nan x = true ↔ x = NaN.
Proof. by destruct x. Qed.

Lemma length_ffill_from last l : length (ffill_from last l) = length l.
Proof.
  revert last. induction l as [|x l IH]; intros last; simpl; [done|].
  destruct (is_nan x); simpl; by rewrite IH.
Qed.

Lemma length_bfill l : length (bfill l) = length l.
Proof. induction l as [|x l IH]; simpl; [done|]. by rewrite IH. Qed.

(** Once a value has been seen, forward fill leaves nothing missing. *)
Lemma ffill_from_present last l : present last → Forall present (ffill_from last l).
Proof.
  revert last. induction l as [|x l IH]; intros last Hlast; simpl; [constructor|].
  destruct (is_nan x) eqn:Hx; constructor; auto.
Qed.

(** Both fills leave a fully populated column alone, and a column without
    any value too. *)
Lemma ffill_from_id last l : Forall present l → ffill_from last l = l.
Proof.
  intros H. revert last. induction H as [|x l Hx _ IH]; intros last; simpl; [done|].
  unfold present in Hx. rewrite Hx. by rewrite IH.
Qed.

Lemma bfill_id l : Forall present l → bfill l = l.
Proof.
  induction 1 as [|x l Hx _ IH]; simpl; [done|].
  unfold present in Hx. rewrite Hx. by rewrite IH.
Qed.

Lemma ffill_all_missing l : Forall (λ x, is_nan x = true) l → ffill l = l.
Proof.
  unfold ffill. induction 1 as [|x l Hx _ IH]; simpl; [done|].
  rewrite Hx. apply is_nan_true in Hx as ->. by rewrite IH.
Qed.

Lemma bfill_all_missing l : Forall (λ x, is_nan x = true) l → bfill l = l.
Proof.
  induction 1 as [|x l Hx Hl IH]; simpl; [done|].
  rewrite Hx, IH. apply is_nan_true in Hx as ->.
  destruct Hl as [|y l Hy _]; simpl; [done|]. by apply is_nan_true in Hy as ->.
Qed.

(** Forward then backward fill populates every cell as soon as the column
    holds one value. *)
Lemma bfill_ffill_present l : Exists present l → Forall present (bfill (ffill l)).
Proof.
  unfold ffill. induction l as [|x l IH]; intros Hex; [by apply Exists_nil in Hex|].
  simpl. destruct (is_nan x) eqn:Hx.
  - apply Exists_cons in Hex as [Hex|Hex]; [unfold present in Hex; congruence|].
    specialize (IH Hex). simpl. constructor; [|done].
    destruct (bfill (ffill_from NaN l)) as [|y r] eqn:Hr; simpl.
    + apply (f_equal length) in Hr. rewrite length_bfill, length_ffill_from in Hr.
      destruct l; [by apply Exists_nil in Hex | done].
    + by apply Forall_cons in IH as [? _].
  - rewrite bfill_id; constructor; auto using ffill_from_present.
Qed.

Lemma not_Exists_present l : ¬ Exists present l → Forall (λ x, is_nan x = true) l.
Proof.
  intros H. apply Forall_forall. intros x Hx.
  destruct (is_nan x) eqn:E; [done|]. destruct H. apply Exists_exists. eauto.
Qed.

(** The two outcomes of the gap-fill on one column. *)
Lemma bfill_ffill_cases l :
  (Exists present l ∧ Forall present (bfill (ffill l))) ∨
  (Forall (λ x, is_nan x = true) l ∧ bfill (ffill l) = l).
Proof.
  destruct (decide (Exists present l)) as [H|H].
  - left. auto using bfill_ffill_present.
  - right. apply not_Exists_present in H. split; [done|].
    by rewrite ffill_all_missing, bfill_all_missing.
Qed.

Lemma bfill_ffill_idemp l : bfill (ffill (bfill (ffill l))) = bfill (ffill l).
Proof.
  destruct (bfill_ffill_cases l) as [[_ H]|[H ->]].
  - unfold ffill at 1. by rewrite ffill_from_id, bfill_id.
  - by rewrite ffill_all_missing, bfill_all_missing.
Qed.

Lemma fill_numeric_idemp c : fill_numeric (fill_numeric c) = fill_numeric c.
Proof. destruct c; simpl; [|done..]. by rewrite bfill_ffill_idemp. Qed.

Lemma col_length_fill_numeric c : col_length (fill_numeric c) = col_length c.
Proof.
  destruct c; simpl; [|done..]. unfold ffill. by rewrite length_bfill, length_ffill_from.
Qed.

(** A column without a missing cell is not touched by the gap-fill. *)
Lemma fill_numeric_present c :
  Forall (λ x, cell_isna x = false) (cells c) → fill_numeric c = c.
Proof.
  destruct c as [l| |]; simpl; [|done..]. intros H.
  apply Forall_fmap in H. unfold ffill. by rewrite ffill_from_id, bfill_id.
Qed.

(** Nor is a column of country names. *)
Lemma fill_numeric_allowed c : Forall allowed (cells c) → fill_numeric c = c.
Proof.
  destruct c as [[|x l]| |]; simpl; [done| |done..].
  intros [H _]%Forall_cons. by destruct H as [?|[?|?]].
Qed.

(** *** Where a forward-filled value comes from *)

(** Nothing but gaps up to row [i]: the fill has only [last] to give. *)
Lemma ffill_from_lookup_gap last l i :
  (∀ k, k ≤ i → l !! k = Some NaN) → ffill_from last l !! i = Some last.
Proof.
  revert last i. induction l as [|x l IH]; intros last i H.
  - by specialize (H 0 ltac:(lia)).
  - pose proof (H 0 ltac:(lia)) as [= ->]. simpl.
    destruct i as [|i]; [done|]. simpl. apply IH. intros k Hk. apply (H (S k)). lia.
Qed.

(** A value at row [j] and gaps from there to row [i]: row [i] takes the
    value of row [j]. *)
Lemma ffill_from_lookup_prev last l i j v :
  j < i → l !! j = Some v → is_nan v = false →
  (∀ k, j < k → k ≤ i → l !! k = Some NaN) →
  ffill_from last l !! i = Some v.
Proof.
  revert last i j. induction l as [|x l IH]; intros last i j Hji Hj Hv H; [done|].
  destruct i as [|i]; [lia|]. destruct j as [|j].
  - injection Hj as ->. simpl. rewrite Hv. simpl.
    apply ffill_from_lookup_gap. intros k Hk. apply (H (S k)); lia.
  - simpl in Hj. simpl.
    assert (ffill_from (if is_nan x then last else x) l !! i = Some v) as Hi.
    { apply (IH _ i j); [lia|done..|]. intros k ??. apply (H (S k)); lia. }
    by destruct (is_nan x).
Qed.

Lemma lookup_fillna v l i x :
  l !! i = Some x → fillna v l !! i = Some (if is_nan x then v else x).
Proof. intros H. unfold fillna. by rewrite list_lookup_fmap, H. Qed.

Lemma lookup_replace_inf l i x :
  l !! i = Some x → replace_inf l !! i = Some (if is_inf x then NaN else x).
Proof. intros H. unfold replace_inf. by rewrite list_lookup_fmap, H. Qed.

(** A ratio that is not a finite number is a gap once the infinities
    are replaced. *)
Lemma replace_inf_not_finite l i x :
  l !! i = Some x → is_finite x = false → replace_inf l !! i = Some NaN.
Proof. intros H Hx. rewrite (lookup_replace_inf _ _ _ H). by destruct x. Qed.

Lemma replace_inf_finite l i x :
  l !! i = Some x → is_finite x = true → replace_inf l !! i = Some x.
Proof. intros H Hx. rewrite (lookup_replace_inf _ _ _ H). by destruct x. Qed.

(** The column after filling holds numbers only. *)
Lemma fillna_ffill_replace_inf_finite l :
  Forall (λ x, is_finite x = true) (fillna zero (ffill (replace_inf l))).
Proof.
  unfold fillna, ffill. apply Forall_fmap.
  assert (∀ last l', is_inf last = false → Forall (λ x, is_inf x = false) l' →
            Forall (λ x, is_inf x = false) (ffill_from last l')) as Hff.
  { intros last l' Hlast Hl'. revert last Hlast.
    induction Hl' as [|x l' Hx _ IH]; intros last Hlast; simpl; [constructor|].
    destruct (is_nan x); constructor; auto. }
  eapply Forall_impl; [apply (Hff NaN (replace_inf l)); [done|]|].
  - unfold replace_inf. apply Forall_fmap, Forall_true. intros x. simpl. by destruct x.
  - intros x Hx. simpl. by destruct x.
Qed.

(** No value and no case: the ratio is not a number, whatever the signs
    of the zeros. *)
Lemma div_zero_zero x y : is_zero x = true → is_zero y = true → Float64.div x y = NaN.
Proof. by destruct x, y. Qed.

(** ** Frames, column by column *)

Lemma sort_by_nil_r {K A : Type} (leb : K → K → bool) keys :
  sort_by leb keys (@nil A) = [].
Proof. unfold sort_by. by destruct keys. Qed.

Lemma cells_sort_by keys c :
  cells (col_apply (λ _, sort_by key_leb keys) c) = sort_by key_leb keys (cells c).
Proof. destruct c; simpl; by rewrite sort_by_fmap. Qed.

Lemma column_cells_lookup d name c :
  columns d !! name = Some c → column_cells d name = cells c.
Proof. unfold column_cells. by intros ->. Qed.

Lemma column_cells_boolean_index mask d name :
  column_cells (boolean_index mask d) name = select mask (column_cells d name).
Proof.
  unfold column_cells. simpl. rewrite lookup_fmap.
  destruct (columns d !! name); simpl; [apply cells_select | by rewrite select_nil_r].
Qed.

Lemma column_cells_reorder keys d name :
  column_cells (reorder keys d) name = sort_by key_leb keys (column_cells d name).
Proof.
  unfold column_cells. simpl. rewrite lookup_fmap.
  destruct (columns d !! name); simpl; [apply cells_sort_by | by rewrite sort_by_nil_r].
Qed.

Lemma lookup_fill_frame d name :
  columns (fill_frame d) !! name = fill_numeric <$> columns d !! name.
Proof. simpl. by rewrite lookup_fmap. Qed.

(** *** Well-formed frames stay well-formed *)

Lemma wf_lookup d name c : wf d → columns d !! name = Some c → col_length c = len d.
Proof. intros Hwf Hc. by apply (Hwf name c). Qed.

Lemma wf_column_cells d name c :
  wf d → columns d !! name = Some c → length (column_cells d name) = len d.
Proof.
  intros Hwf Hc. rewrite (column_cells_lookup _ _ _ Hc), <-col_length_cells.
  by apply (wf_lookup d name).
Qed.

Lemma col_length_select mask c :
  length mask = col_length c →
  col_length (col_apply (λ _, select mask) c) = length (filter (λ b, b = true) mask).
Proof. destruct c; simpl; apply length_select. Qed.

Lemma wf_boolean_index mask d : wf d → length mask = len d → wf (boolean_index mask d).
Proof.
  intros Hwf Hlen name c. simpl. rewrite lookup_fmap.
  intros (c0 & Hc0 & ->)%fmap_Some. unfold len. simpl.
  rewrite col_length_select, length_select; [done..|].
  by rewrite (wf_lookup d name c0).
Qed.

Lemma wf_setitem d name c : wf d → col_length c = len d → wf (setitem d name c).
Proof.
  intros Hwf Hlen name' c'. simpl. rewrite lookup_insert.
  case_decide; [by intros [= <-] | apply Hwf].
Qed.

Lemma wf_reorder keys d : wf d → length keys = len d → wf (reorder keys d).
Proof.
  intros Hwf Hlen name c. simpl. rewrite lookup_fmap.
  intros (c0 & Hc0 & ->)%fmap_Some. unfold len. simpl.
  rewrite (length_sort_by _ _ (index d)) by done.
  rewrite col_length_cells, cells_sort_by, length_sort_by, <-col_length_cells.
  - by apply (wf_lookup d name).
  - rewrite <-col_length_cells, (wf_lookup d name c0); done.
Qed.

Lemma wf_fill_frame d : wf d → wf (fill_frame d).
Proof.
  intros Hwf name c. rewrite lookup_fill_frame.
  intros (c0 & Hc0 & ->)%fmap_Some. rewrite col_length_fill_numeric.
  by apply (wf_lookup d name).
Qed.

(** *** Calls that may raise *)

Lemma mapM_inr_length {A B : Type} (f : A → exn + B) l k :
  mapM f l = inr k → length k = length l.
Proof.
  revert k. induction l as [|x l IH]; intros k; simpl.
  - by intros [= <-].
  - unfold mbind, result_bind. destruct (f x); [done|].
    destruct (mapM f l); [done|]. intros [= <-]. simpl. f_equal. by apply IH.
Qed.

Lemma lookup_notna c i :
  notna c !! i = Some true ↔ ∃ x, cells c !! i = Some x ∧ cell_isna x = false.
Proof.
  unfold notna. rewrite list_lookup_fmap. split.
  - intros (x & Hx & Hb)%fmap_Some. exists x. split; [done|]. by destruct (cell_isna x).
  - intros (x & -> & Hx). simpl. by rewrite Hx.
Qed.

(** The mask of [dropna]: a row is kept exactly when every listed column
    has a value in it. *)
Lemma notna_all_inr d subset mask :
  notna_all d subset = inr mask →
  (∀ name, name ∈ subset → is_Some (columns d !! name)) ∧
  (∀ i, mask !! i = Some true ↔
        i < len d ∧ ∀ name, name ∈ subset →
          ∃ x, column_cells d name !! i = Some x ∧ cell_isna x = false).
Proof.
  revert mask. induction subset as [|name subset IH]; intros mask; simpl.
  - intros [= <-]. split; [by intros ? ?%elem_of_nil|]. intros i.
    rewrite list_lookup_fmap, fmap_Some. split.
    + intros (x & Hx%lookup_lt_Some & _). split; [done|]. by intros ? ?%elem_of_nil.
    + intros [Hi _]. apply lookup_lt_is_Some in Hi as [x Hx]. eauto.
  - unfold mbind, result_bind, getitem.
    destruct (columns d !! name) as [c|] eqn:Hc; [|done].
    destruct (notna_all d subset) as [|mask']; [done|]. intros [= <-].
    destruct (IH mask' eq_refl) as [IH1 IH2]. split.
    + intros name' [->|?]%elem_of_cons; eauto.
    + intros i. rewrite lookup_zip_with_Some. split.
      * intros (x & y & Hxy & Hx & Hy). symmetry in Hxy.
        apply andb_true_iff in Hxy as [-> ->].
        apply IH2 in Hy as [Hi Hy]. split; [done|].
        intros name' [->|?]%elem_of_cons; [|auto].
        rewrite (column_cells_lookup _ _ _ Hc). by apply lookup_notna.
      * intros [Hi H]. exists true, true. split_and!; [done| |].
        -- apply lookup_notna. rewrite <-(column_cells_lookup _ _ _ Hc).
           apply H. by left.
        -- apply IH2. split; [done|]. intros name' ?. apply H. by right.
Qed.

Lemma length_notna_all d subset mask :
  wf d → notna_all d subset = inr mask → length mask = len d.
Proof.
  intros Hwf. revert mask. induction subset as [|name subset IH]; intros mask; simpl.
  - intros [= <-]. by rewrite length_fmap.
  - unfold mbind, result_bind, getitem.
    destruct (columns d !! name) as [c|] eqn:Hc; [|done].
    destruct (notna_all d subset) as [|mask']; [done|]. intros [= <-].
    rewrite length_zip_with, (IH mask' eq_refl). unfold notna.
    rewrite length_fmap, <-col_length_cells, (wf_lookup d name c) by done. lia.
Qed.

Lemma notna_all_complete d subset :
  (∀ name, name ∈ subset → is_Some (columns d !! name)) →
  ∃ mask, notna_all d subset = inr mask.
Proof.
  induction subset as [|name subset IH]; intros H; simpl; [by eexists|].
  unfold mbind, result_bind, getitem.
  destruct (H name) as [c ->]; [by left|].
  destruct IH as [mask ->]; [intros; apply H; by right|]. by eexists.
Qed.

(** *** Keys and countries *)

Lemma column_cells_setitem_eq d name c :
  column_cells (setitem d name c) name = cells c.
Proof. unfold column_cells. simpl. by rewrite lookup_insert_eq. Qed.

Lemma column_cells_setitem_ne d name name' c :
  name ≠ name' → column_cells (setitem d name c) name' = column_cells d name'.
Proof. intros. unfold column_cells. simpl. by rewrite lookup_insert_ne. Qed.

Lemma row_keys_boolean_index mask d :
  row_keys (boolean_index mask d) = select mask (row_keys d).
Proof. unfold row_keys. by rewrite !column_cells_boolean_index, select_zip. Qed.

Lemma column_cells_fill_frame d name :
  column_cells (fill_frame d) name =
  from_option (λ c, cells (fill_numeric c)) [] (columns d !! name).
Proof. unfold column_cells. rewrite lookup_fill_frame. by destruct (columns d !! name). Qed.

Lemma length_isin values c : length (isin values c) = col_length c.
Proof. unfold isin. by rewrite length_fmap, col_length_cells. Qed.

(** The country filter keeps allow-listed names only. *)
Lemma isin_allowed c :
  Forall allowed (select (isin countries_of_interest c) (cells c)).
Proof.
  unfold isin. eapply Forall_impl; [apply select_self|]. simpl.
  intros [x|[s|]|t]; try done. intros Hs%bool_decide_eq_true.
  unfold allowed, countries_of_interest in *.
  rewrite !elem_of_cons, elem_of_nil in Hs.
  destruct Hs as [-> | [-> | [-> | []]]]; auto.
Qed.

Lemma allowed_isin c :
  Forall allowed (cells c) → Forall (λ b, b = true) (isin countries_of_interest c).
Proof.
  unfold isin. intros H. apply Forall_fmap. eapply Forall_impl; [done|]. simpl.
  intros x [-> | [-> | ->]]; apply bool_decide_eq_true; unfold countries_of_interest;
    rewrite !elem_of_cons; auto.
Qed.

Lemma allowed_present c : allowed c → cell_isna c = false.
Proof. by intros [-> | [-> | ->]]. Qed.

(** *** Operations that change nothing *)

Lemma frame_eq (d1 d2 : DataFrame) :
  index d1 = index d2 → columns d1 = columns d2 → d1 = d2.
Proof. destruct d1, d2; simpl; by intros -> ->. Qed.

Lemma columns_fmap_id (f : Column → Column) (d : DataFrame) :
  (∀ name c, columns d !! name = Some c → f c = c) → f <$> columns d = columns d.
Proof.
  intros H. apply map_eq. intros name. rewrite lookup_fmap.
  destruct (columns d !! name) as [c|] eqn:Hc; simpl; [|done]. by rewrite (H name c).
Qed.

Lemma boolean_index_all_true mask d :
  wf d → Forall (λ b, b = true) mask → length mask = len d → boolean_index mask d = d.
Proof.
  intros Hwf Hall Hlen. apply frame_eq; simpl.
  - apply select_all_true; [done|]. unfold len in Hlen. lia.
  - apply columns_fmap_id. intros name c Hc.
    pose proof (wf_lookup _ _ _ Hwf Hc) as Hcl.
    destruct c; simpl in *; f_equal; apply select_all_true; try done; lia.
Qed.

Lemma reorder_sorted keys d :
  wf d → Sorted key_le keys → length keys = len d → reorder keys d = d.
Proof.
  intros Hwf Hs Hlen. apply frame_eq; simpl.
  - by apply sort_by_Sorted_id.
  - apply columns_fmap_id. intros name c Hc.
    pose proof (wf_lookup _ _ _ Hwf Hc) as Hcl.
    destruct c; simpl in *; f_equal; apply sort_by_Sorted_id; try done; lia.
Qed.

Lemma setitem_id d name c : columns d !! name = Some c → setitem d name c = d.
Proof. intros Hc. apply frame_eq; simpl; [done|]. by apply insert_id. Qed.

Lemma fill_frame_idemp d : fill_frame (fill_frame d) = fill_frame d.
Proof.
  apply frame_eq; simpl; [done|]. rewrite <-map_fmap_compose.
  apply map_fmap_ext. intros name c _. apply fill_numeric_idemp.
Qed.

Lemma Forall_zip_with_andb (l k : list bool) :
  Forall (λ b, b = true) l → Forall (λ b, b = true) k →
  Forall (λ b, b = true) (zip_with andb l k).
Proof.
  intros Hl. revert k. induction Hl as [|b l -> _ IH]; intros k Hk; [constructor|].
  destruct Hk as [|b' k -> Hk]; simpl; constructor; auto.
Qed.

Lemma notna_all_present d subset :
  (∀ name, name ∈ subset →
     ∃ c, columns d !! name = Some c ∧ Forall (λ x, cell_isna x = false) (cells c)) →
  ∃ mask, notna_all d subset = inr mask ∧ Forall (λ b, b = true) mask.
Proof.
  induction subset as [|name subset IH]; intros H; simpl.
  - eexists. split; [done|]. apply Forall_fmap, Forall_true. done.
  - destruct (H name) as (c & Hc & Hna); [by left|].
    destruct IH as (mask & Hmask & Hall); [intros; apply H; by right|].
    unfold getitem. rewrite Hc. simpl. rewrite Hmask. simpl.
    eexists. split; [done|]. unfold notna.
    assert (Forall (λ b, b = true) ((λ x, negb (cell_isna x)) <$> cells c)) as Hc'.
    { apply Forall_fmap. eapply Forall_impl; [done|]. simpl. by intros x ->. }
    by apply Forall_zip_with_andb.
Qed.

(** ** Groups and their latest row *)

Lemma elem_of_select {A : Type} mask (l : list A) x :
  x ∈ select mask l ↔ ∃ p, mask !! p = Some true ∧ l !! p = Some x.
Proof.
  revert l. induction mask as [|b mask IH]; intros [|y l]; simpl.
  - rewrite elem_of_nil. split; [done|]. by intros (p & ? & _).
  - rewrite elem_of_nil. split; [done|]. by intros (p & ? & _).
  - rewrite elem_of_nil. split; [done|]. by intros (p & _ & ?).
  - destruct b.
    + rewrite elem_of_cons, IH. split.
      * intros [->|(p & ? & ?)]; [by exists 0 | by exists (S p)].
      * intros ([|p] & Hm & Hl); simpl in *; [left; congruence | right; eauto].
    + rewrite IH. split.
      * intros (p & ? & ?). by exists (S p).
      * intros ([|p] & Hm & Hl); simpl in *; [done | eauto].
Qed.

(** With distinct labels, selecting the rows labelled [lab] gives the
    one row at the position of [lab]. *)
Lemma select_label {A : Type} (idx : list nat) (l : list A) p lab :
  NoDup idx → idx !! p = Some lab →
  select ((λ i, bool_decide (i = lab)) <$> idx) l = option_list (l !! p).
Proof.
  intros Hnd. revert l p.
  induction Hnd as [|i idx Hi Hnd IH]; intros l p Hp; [done|].
  destruct l as [|x l]; [by destruct p|]. csimpl.
  destruct p as [|p]; simpl in *.
  - injection Hp as ->. rewrite bool_decide_eq_true_2 by done. f_equal.
    apply select_all_false, Forall_fmap, Forall_forall. intros j Hj. simpl.
    apply bool_decide_eq_false_2. by intros ->.
  - rewrite bool_decide_eq_false_2; [by apply IH|].
    intros ->. apply Hi. by eapply list_elem_of_lookup_2.
Qed.

Lemma loc_rows_positions {A : Type} (idx : list nat) (l : list A) labels ps :
  NoDup idx → Forall2 (λ lab p, idx !! p = Some lab) labels ps →
  loc_rows labels idx l = omap (l !!.) ps.
Proof.
  intros Hnd H. unfold loc_rows.
  induction H as [|lab p labels ps Hp _ IH]; csimpl; [done|].
  rewrite IH, (select_label idx l p lab) by done. by destruct (l !! p).
Qed.

Lemma omap_lookup_select {A : Type} (l : list A) mask (ps : list nat) :
  Forall (λ p, is_Some (l !! p)) ps →
  select mask (omap (l !!.) ps) = omap (l !!.) (select mask ps).
Proof.
  intros H. revert mask. induction H as [|p ps [x Hx] _ IH]; intros mask.
  - by destruct mask.
  - csimpl. rewrite Hx. destruct mask as [|b mask]; [done|]. simpl.
    destruct b; csimpl; by rewrite ?Hx, IH.
Qed.

Lemma omap_lookup_fmap {A B : Type} (f : A → B) (l : list A) (ps : list nat) :
  omap ((f <$> l) !!.) ps = f <$> omap (l !!.) ps.
Proof.
  induction ps as [|p ps IH]; csimpl; [done|].
  rewrite list_lookup_fmap. destruct (l !! p); csimpl; by rewrite IH.
Qed.

Lemma length_omap_lookup {A : Type} (l : list A) (ps : list nat) :
  Forall (λ p, is_Some (l !! p)) ps → length (omap (l !!.) ps) = length ps.
Proof.
  induction 1 as [|p ps [x Hx] _ IH]; csimpl; [done|]. rewrite Hx. simpl. by rewrite IH.
Qed.

Lemma select_fmap_filter {A : Type} (b : A → bool) (l : list A) :
  select (b <$> l) l = filter (λ x, b x = true) l.
Proof.
  induction l as [|x l IH]; csimpl; [done|]. rewrite filter_cons.
  destruct (b x); simpl; by rewrite IH.
Qed.

Lemma mapM_inr_cons {A B : Type} (f : A → exn + B) x l :
  mapM f (x :: l) = (y ← f x; k ← mapM f l; mret (y :: k)).
Proof. done. Qed.

Lemma mapM_inr_Forall2 {A B : Type} (f : A → exn + B) l k :
  mapM f l = inr k ↔ Forall2 (λ x y, f x = inr y) l k.
Proof.
  revert k. induction l as [|x l IH]; intros k.
  - split; [intros [= <-]; constructor | by inversion 1].
  - rewrite mapM_inr_cons. split.
    + destruct (f x) as [|y] eqn:Hy; [done|]. simpl.
      destruct (mapM f l) as [|k'] eqn:Hk; [done|]. simpl. intros [= <-].
      constructor; [done|]. by apply IH.
    + inversion 1 as [|? y ? k' Hy Hk]; subst. rewrite Hy. simpl.
      apply IH in Hk. by rewrite Hk.
Qed.

(** [idxmax] finds a row that holds the greatest value. *)
Lemma idxmax_from_spec best rows :
  Forall (λ r, cell_isna r.2 = false) rows →
  (best = None → rows ≠ []) →
  ∃ i v, idxmax_from best rows = Some (i, v) ∧
         (best = Some (i, v) ∨ (i, v) ∈ rows) ∧
         (∀ b, best = Some b → cell_leb b.2 v = true) ∧
         (∀ r, r ∈ rows → cell_leb r.2 v = true).
Proof.
  intros Hna. revert best.
  induction Hna as [|[j w] rows Hw _ IH]; intros best Hbest.
  - destruct best as [[i v]|]; [|by destruct Hbest].
    exists i, v. split_and!; [done|by left| |by intros ? ?%elem_of_nil].
    intros b [= <-]. apply cell_leb_refl.
  - simpl in *. rewrite Hw.
    destruct best as [[i v]|].
    + destruct (cell_leb w v) eqn:Hwv.
      * destruct (IH (Some (i, v))) as (i' & v' & Hr & Hin & Hb & Hall); [done|].
        exists i', v'. split_and!; [done| |done|].
        -- destruct Hin as [?|?]; [by left | right; by right].
        -- intros r [->|?]%elem_of_cons; [|auto]. simpl.
           eapply cell_leb_trans; [done|]. by apply (Hb (i, v)).
      * destruct (IH (Some (j, w))) as (i' & v' & Hr & Hin & Hb & Hall); [done|].
        exists i', v'. split_and!; [done| | |].
        -- right. destruct Hin as [[= <- <-]|?]; [by left | by right].
        -- intros b [= <-]. simpl.
           destruct (cell_leb_total v w) as [?|?]; [|congruence].
           eapply cell_leb_trans; [done|]. by apply (Hb (j, w)).
        -- intros r [->|?]%elem_of_cons; [|auto]. by apply (Hb (j, w)).
    + destruct (IH (Some (j, w))) as (i' & v' & Hr & Hin & Hb & Hall); [done|].
      exists i', v'. split_and!; [done| |done|].
      * right. destruct Hin as [[= <- <-]|?]; [by left | by right].
      * intros r [->|?]%elem_of_cons; [|auto]. by apply (Hb (j, w)).
Qed.

Lemma idxmax_spec rows :
  Forall (λ r, cell_isna r.2 = false) rows → rows ≠ [] →
  ∃ i v, idxmax rows = Some i ∧ (i, v) ∈ rows ∧
         ∀ r, r ∈ rows → cell_leb r.2 v = true.
Proof.
  intros Hna Hne.
  destruct (idxmax_from_spec None rows Hna) as (i & v & Hr & [?|Hin] & _ & Hall);
    [done..|].
  exists i, v. unfold idxmax. by rewrite Hr.
Qed.

(** The group keys are the distinct values, in ascending order. *)
Lemma elem_of_group_keys keys g :
  g ∈ group_keys keys ↔ g ∈ keys ∧ cell_isna g = false.
Proof.
  unfold group_keys. rewrite stable_sort_Permutation, elem_of_remove_dups.
  by rewrite list_elem_of_filter, (comm and).
Qed.

Lemma NoDup_group_keys keys : NoDup (group_keys keys).
Proof. unfold group_keys. rewrite stable_sort_Permutation. apply NoDup_remove_dups. Qed.

Lemma mapM_inr_positions {A B C : Type} (f : A → exn + B)
    (Q : B → C → Prop) (R : A → C → Prop) (l : list A) :
  (∀ x, x ∈ l → ∃ y c, f x = inr y ∧ Q y c ∧ R x c) →
  ∃ k m, mapM f l = inr k ∧ Forall2 Q k m ∧ Forall2 R l m.
Proof.
  induction l as [|x l IH]; intros H.
  - exists [], []. by repeat constructor.
  - destruct (H x) as (y & c & Hy & HQ & HR); [by left|].
    destruct IH as (k & m & Hk & HQs & HRs); [intros; apply H; by right|].
    exists (y :: k), (c :: m). rewrite mapM_inr_cons, Hy. simpl. rewrite Hk.
    split; [done|]. split; by constructor.
Qed.

Lemma cells_rows_at (ps : list nat) c :
  cells (col_apply (λ _ l, omap (l !!.) ps) c) = omap (cells c !!.) ps.
Proof. destruct c; simpl; by rewrite omap_lookup_fmap. Qed.

Lemma column_cells_rows_at ps d name :
  column_cells (rows_at ps d) name = omap (column_cells d name !!.) ps.
Proof.
  unfold column_cells. simpl. rewrite lookup_fmap.
  destruct (columns d !! name); simpl; [apply cells_rows_at|].
  induction ps; csimpl; done.
Qed.

(** With distinct labels, [loc] on the labels of the rows [ps] is the
    selection of those rows by position. *)
Lemma loc_rows_at labels ps d :
  NoDup (index d) → Forall2 (λ lab p, index d !! p = Some lab) labels ps →
  loc labels d = rows_at ps d.
Proof.
  intros Hnd H. apply frame_eq; simpl.
  - by apply loc_rows_positions.
  - apply map_fmap_ext. intros name c _.
    destruct c; simpl; f_equal; by apply loc_rows_positions.
Qed.

Lemma boolean_index_rows_at mask ps d :
  wf d → Forall (λ p, p < len d) ps →
  boolean_index mask (rows_at ps d) = rows_at (select mask ps) d.
Proof.
  intros Hwf Hps. apply frame_eq; simpl.
  - apply omap_lookup_select. eapply Forall_impl; [done|]. simpl.
    intros p Hp. by apply lookup_lt_is_Some.
  - rewrite <-map_fmap_compose. apply map_fmap_ext. intros name c Hc.
    pose proof (wf_lookup _ _ _ Hwf Hc) as Hlen. simpl.
    destruct c; simpl in *; f_equal; apply omap_lookup_select;
      (eapply Forall_impl; [done|]); simpl; intros p Hp;
      apply lookup_lt_is_Some; lia.
Qed.

Lemma zip_with_andb_true {A : Type} (l : list bool) (k : list A) :
  length k = length l → zip_with andb l ((λ _, true) <$> k) = l.
Proof.
  revert k. induction l as [|b l IH]; intros [|x k] Hlen; simplify_eq/=; [done|].
  rewrite andb_true_r. f_equal. by apply IH.
Qed.

(** The mask of [dropna] on one column of the selected rows. *)
Lemma notna_rows_at ps d name c :
  columns d !! name = Some c →
  Forall (λ p, p < col_length c) ps →
  notna (col_apply (λ _ l, omap (l !!.) ps) c) = has_value d name <$> ps.
Proof.
  intros Hc Hps. unfold notna. rewrite cells_rows_at.
  induction Hps as [|p ps Hp _ IH]; csimpl; [done|].
  unfold has_value at 1. rewrite (column_cells_lookup _ _ _ Hc).
  rewrite col_length_cells in Hp. apply lookup_lt_is_Some in Hp as [x Hx].
  rewrite Hx. csimpl. by rewrite IH.
Qed.

(** ** Running the script *)

Ltac run :=
  unfold mbind, M_bind, bind, mret, M_ret, ret, lift, raise, print, emit, alloc,
    deref, assign, try_except in *; simpl in *.

Section Verification.
Context (strptime : list (option string) → string → exn + datetime).
Context (datetime_of_float : float → exn + datetime).
Context (decode_utf8 : bytes → exn + string).
Context (read_csv : string → exn + DataFrame).

Local Abbreviation to_datetime := (to_datetime strptime datetime_of_float).
Local Abbreviation clean_data := (clean_data strptime datetime_of_float).
Local Abbreviation clean_stages := (clean_stages strptime datetime_of_float).
Local Abbreviation load_data_from_upload := (load_data_from_upload decode_utf8 read_csv).
Local Abbreviation main := (main strptime datetime_of_float decode_utf8 read_csv).

(** [clean_data] returns exactly when every stage succeeds; the result is
    a new object holding the gap-filled last stage. *)
Lemma clean_data_Returned st df r st' :
  clean_data df st = (Returned r, st') ↔
  ∃ d filtered sorted dropped,
    heap st !! df = Some d ∧
    clean_stages d filtered sorted dropped ∧
    r = length (heap st) ∧
    st' = {| heap := heap st ++ [fill_frame dropped];
             stdout := stdout st ++
               clean_log (Z.of_nat (len sorted) - Z.of_nat (len dropped)) |}.
Proof.
  unfold Script.clean_data, clean_stages. run. split.
  - destruct (heap st !! df) as [d|] eqn:Hd; [|done].
    unfold getitem at 1. destruct (columns d !! "location") as [location|] eqn:Hl; [|done].
    simpl. set (filtered := boolean_index _ d).
    destruct (getitem filtered "date") as [e|date0] eqn:Hdate0; [done|]. simpl.
    destruct (to_datetime date0) as [e|date] eqn:Hdate; [done|]. simpl.
    destruct (sort_values _ _ _) as [e|sorted] eqn:Hsorted; [done|]. simpl.
    destruct (dropna _ sorted) as [e|dropped] eqn:Hdropped; [done|]. simpl.
    intros [= <- <-]. exists d, filtered, sorted, dropped.
    split_and!; try done.
    + exists location, date. split_and!; try done. by rewrite Hdate0.
    + f_equal. by rewrite <-!app_assoc.
  - intros (d & filtered & sorted & dropped & Hd & (location & date & Hl & -> & Hdate & Hs & Hdr)
             & -> & ->).
    rewrite Hd. unfold getitem at 1. rewrite Hl. simpl.
    revert Hdate. destruct (getitem _ "date") as [e|date0]; [done|]. simpl.
    intros ->. simpl.
    rewrite Hs. simpl. rewrite Hdr. simpl. do 2 f_equal. by rewrite <-!app_assoc.
Qed.

Lemma length_to_datetime c date : to_datetime c = inr date → length date = col_length c.
Proof.
  destruct c; simpl; [apply mapM_inr_length..|]. by intros [= <-].
Qed.

(** The stages, column by column. *)
Lemma clean_stages_inv d filtered sorted dropped :
  clean_stages d filtered sorted dropped →
  ∃ location date0 date mask,
    columns d !! "location" = Some location ∧
    columns d !! "date" = Some date0 ∧
    filtered = boolean_index (isin countries_of_interest location) d ∧
    to_datetime (col_apply (λ _, select (isin countries_of_interest location)) date0)
      = inr date ∧
    sorted = reorder (zip (select (isin countries_of_interest location) (cells location))
                          (CDatetime <$> date))
                     (setitem filtered "date" (Datetime64 date)) ∧
    notna_all sorted critical = inr mask ∧
    dropped = boolean_index mask sorted.
Proof.
  intros (location & date & Hl & -> & Hdate & Hs & Hdr).
  set (m := isin countries_of_interest location) in *.
  unfold dropna, mbind, result_bind in Hdr.
  destruct (notna_all sorted critical) as [|mask] eqn:Hmask; [done|].
  injection Hdr as <-.
  unfold getitem in Hdate. simpl in Hdate. rewrite lookup_fmap in Hdate.
  destruct (columns d !! "date") as [date0|] eqn:Hd0; [|done]. simpl in Hdate.
  unfold sort_values, getitem in Hs. simpl in Hs.
  rewrite (lookup_insert_ne _ "date" "location") in Hs by done.
  rewrite lookup_fmap, Hl in Hs.
  rewrite lookup_insert_eq in Hs.
  simpl in Hs. injection Hs as <-. rewrite cells_select in Hmask |- *.
  by exists location, date0, date, mask.
Qed.

(** *** What the stages preserve *)

Lemma length_sort_keys d location date0 date :
  wf d →
  columns d !! "location" = Some location →
  columns d !! "date" = Some date0 →
  to_datetime (col_apply (λ _, select (isin countries_of_interest location)) date0)
    = inr date →
  length (zip (select (isin countries_of_interest location) (cells location))
              (CDatetime <$> date))
  = length (select (isin countries_of_interest location) (index d)).
Proof.
  intros Hwf Hl Hd Hdate. set (m := isin countries_of_interest location) in *.
  assert (length m = len d) as Hm.
  { unfold m. rewrite length_isin. by apply (wf_lookup d "location"). }
  apply length_to_datetime in Hdate.
  rewrite col_length_select in Hdate by (by rewrite Hm, (wf_lookup d "date" date0)).
  rewrite length_zip, length_fmap, Hdate.
  rewrite !length_select; [lia|done|].
  by rewrite Hm, <-col_length_cells, (wf_lookup d "location" location).
Qed.

Lemma clean_stages_location d filtered sorted dropped :
  clean_stages d filtered sorted dropped →
  ∃ c, columns dropped !! "location" = Some c ∧
       columns (fill_frame dropped) !! "location" = Some c ∧
       Forall allowed (cells c).
Proof.
  intros (location & date0 & date & mask & Hl & Hd & -> & Hdate & -> & Hmask & ->)
    %clean_stages_inv.
  set (m := isin countries_of_interest location) in *.
  set (keys := zip _ _) in *.
  eexists. rewrite lookup_fill_frame. simpl.
  rewrite !lookup_fmap, lookup_insert_ne, lookup_fmap, Hl by done. simpl.
  split; [done|].
  assert (Forall allowed (cells (col_apply (λ _, select mask)
            (col_apply (λ _, sort_by key_leb keys)
               (col_apply (λ _, select m) location))))) as Hall.
  { rewrite cells_select, cells_sort_by, cells_select.
    apply select_Forall, sort_by_Forall, isin_allowed. }
  split; [|done]. f_equal. by apply fill_numeric_allowed.
Qed.

Lemma clean_stages_date d filtered sorted dropped :
  clean_stages d filtered sorted dropped →
  ∃ l, columns dropped !! "date" = Some (Datetime64 l) ∧
       columns (fill_frame dropped) !! "date" = Some (Datetime64 l).
Proof.
  intros (location & date0 & date & mask & Hl & Hd & -> & Hdate & -> & Hmask & ->)
    %clean_stages_inv.
  eexists. rewrite lookup_fill_frame. simpl.
  rewrite !lookup_fmap, lookup_insert_eq. simpl. done.
Qed.

(** After the row removal the critical columns hold a value in every row,
    and the gap-fill has nothing to do on them. *)
Lemma clean_stages_critical d filtered sorted dropped name :
  clean_stages d filtered sorted dropped → name ∈ critical →
  ∃ c, columns dropped !! name = Some c ∧
       columns (fill_frame dropped) !! name = Some c ∧
       Forall (λ x, cell_isna x = false) (cells c).
Proof.
  intros (location & date0 & date & mask & Hl & Hd & -> & Hdate & Hs & Hmask & ->)
    %clean_stages_inv Hname.
  apply notna_all_inr in Hmask as [Hcols Hmask].
  destruct (Hcols name Hname) as [c Hc].
  exists (col_apply (λ _, select mask) c). rewrite lookup_fill_frame. simpl.
  rewrite lookup_fmap, Hc. simpl. split; [done|].
  assert (Forall (λ x, cell_isna x = false) (cells (col_apply (λ _, select mask) c))) as H.
  { rewrite cells_select. apply select_Forall_lookup. intros i x Hi Hx.
    apply Hmask in Hi as [_ Hi]. destruct (Hi name Hname) as (y & Hy & Hna).
    rewrite (column_cells_lookup _ _ _ Hc) in Hy. congruence. }
  split; [|done]. f_equal. by apply fill_numeric_present.
Qed.

Lemma clean_stages_wf d filtered sorted dropped :
  wf d → clean_stages d filtered sorted dropped →
  wf filtered ∧ wf sorted ∧ wf dropped ∧ wf (fill_frame dropped).
Proof.
  intros Hwf (location & date0 & date & mask & Hl & Hd & -> & Hdate & -> & Hmask & ->)
    %clean_stages_inv.
  set (m := isin countries_of_interest location) in *.
  assert (length m = len d) as Hm.
  { unfold m. rewrite length_isin. by apply (wf_lookup d "location"). }
  assert (wf (boolean_index m d)) as Hwf1 by by apply wf_boolean_index.
  assert (length date = len (boolean_index m d)) as Hdl.
  { apply length_to_datetime in Hdate as ->. unfold len. simpl.
    rewrite col_length_select, length_select; [done..|].
    by rewrite Hm, (wf_lookup d "date" date0). }
  assert (wf (setitem (boolean_index m d) "date" (Datetime64 date))) as Hwf2
    by by apply wf_setitem.
  set (keys := zip _ _) in *.
  assert (wf (reorder keys (setitem (boolean_index m d) "date" (Datetime64 date)))) as Hwf3.
  { apply wf_reorder; [done|]. unfold keys.
    rewrite length_zip, length_fmap, Hdl. unfold len. simpl.
    rewrite !length_select; [lia|done|].
    by rewrite Hm, <-col_length_cells, (wf_lookup d "location" location). }
  split_and!; try done.
  - apply wf_boolean_index; [done|]. by apply (length_notna_all _ critical).
  - apply wf_fill_frame, wf_boolean_index; [done|]. by apply (length_notna_all _ critical).
Qed.

(** The sort orders the rows by key, and rows with equal keys stay in the
    order the filter left them in. *)
Lemma clean_stages_sorted d filtered sorted dropped :
  wf d → clean_stages d filtered sorted dropped →
  ∃ keys,
    length keys = len filtered ∧
    row_keys sorted = stable_sort key_leb keys ∧
    zip (row_keys sorted) (index sorted) =
      stable_sort (λ a b, key_leb a.1 b.1) (zip keys (index filtered)).
Proof.
  intros Hwf Hst. destruct (clean_stages_wf _ _ _ _ Hwf Hst) as (Hwf1 & _).
  apply clean_stages_inv in Hst
    as (location & date0 & date & mask & Hl & Hd & -> & Hdate & -> & Hmask & ->).
  set (m := isin countries_of_interest location) in *.
  set (keys := zip _ _) in *. exists keys.
  assert (length (select m (cells location)) = len (boolean_index m d)) as Hll.
  { unfold len. simpl. rewrite !length_select; [done| |].
    - unfold m. rewrite length_isin. by apply (wf_lookup d "location").
    - unfold m. by rewrite length_isin, col_length_cells. }
  assert (length date = len (boolean_index m d)) as Hdl.
  { apply length_to_datetime in Hdate as ->.
    apply (wf_lookup (boolean_index m d) "date"); [done|].
    simpl. by rewrite lookup_fmap, Hd. }
  assert (length keys = len (boolean_index m d)) as Hkl.
  { unfold keys. rewrite length_zip, length_fmap. lia. }
  assert (row_keys (reorder keys (setitem (boolean_index m d) "date" (Datetime64 date)))
          = stable_sort key_leb keys) as Hkeys.
  { unfold row_keys. rewrite !column_cells_reorder, column_cells_setitem_eq,
      column_cells_setitem_ne, column_cells_boolean_index by done.
    rewrite (column_cells_lookup _ _ _ Hl). simpl.
    replace (select m (cells location)) with (keys.*1)
      by (unfold keys; apply fst_zip; rewrite length_fmap; lia).
    replace (CDatetime <$> date) with (keys.*2)
      by (unfold keys; apply snd_zip; rewrite length_fmap; lia).
    rewrite !sort_by_self_fmap. apply zip_fst_snd. }
  split_and!; [done..|]. rewrite Hkeys. simpl.
  rewrite <-(fst_stable_sort_zip key_leb keys (select m (index d))) by done.
  apply zip_fst_snd.
Qed.

(** ** The cleaned table *)

(** C4. Every location of the table returned by [clean_data] is one of
    "United States", "India" and "Canada"; no row of another country,
    such as "Brazil", is left. *)
Theorem clean_data_allow_list st df r st' :
  clean_data df st = (Returned r, st') →
  ∃ cleaned location,
    heap st' !! r = Some cleaned ∧
    columns cleaned !! "location" = Some location ∧
    Forall allowed (cells location).
Proof.
  intros (d & filtered & sorted & dropped & Hd & Hst & -> & ->)%clean_data_Returned.
  destruct (clean_stages_location _ _ _ _ Hst) as (c & _ & Hc & Hall).
  exists (fill_frame dropped), c. split_and!; [|done..].
  by apply list_lookup_middle.
Qed.

(** C5. No row of the cleaned table misses its date, total_cases,
    total_deaths or total_vaccinations: the rows of the sorted table that
    miss one of them ([mask] is false there) are removed, and their
    number is printed. *)
Theorem clean_data_critical_present st df d r st' :
  heap st !! df = Some d → wf d →
  clean_data df st = (Returned r, st') →
  ∃ filtered sorted mask cleaned,
    clean_stages d filtered sorted (boolean_index mask sorted) ∧
    heap st' !! r = Some cleaned ∧
    (∀ name, name ∈ critical →
       ∃ c, columns cleaned !! name = Some c ∧
            Forall (λ x, cell_isna x = false) (cells c)) ∧
    length mask = len sorted ∧
    (∀ i, mask !! i = Some true ↔
          i < len sorted ∧
          ∀ name, name ∈ critical →
            ∃ x, column_cells sorted name !! i = Some x ∧ cell_isna x = false) ∧
    index cleaned = select mask (index sorted) ∧
    stdout st' = stdout st ++
      clean_log (Z.of_nat (length (filter (λ b, b = false) mask))).
Proof.
  intros Hd Hwf (d' & filtered & sorted & dropped & Hd' & Hst & -> & ->)%clean_data_Returned.
  assert (d' = d) as -> by congruence.
  destruct (clean_stages_wf _ _ _ _ Hwf Hst) as (_ & Hwfs & _).
  pose proof Hst as (location & date0 & date & mask & _ & _ & _ & _ & _ & Hmask & ->)
    %clean_stages_inv.
  pose proof (length_notna_all _ _ _ Hwfs Hmask) as Hlen.
  exists filtered, sorted, mask, (fill_frame (boolean_index mask sorted)).
  split_and!; try done.
  - by apply list_lookup_middle.
  - intros name Hname.
    destruct (clean_stages_critical _ _ _ _ name Hst Hname) as (c & _ & Hc & Hna). eauto.
  - by apply notna_all_inr in Hmask as [_ ?].
  - simpl. do 3 f_equal. unfold len in *. simpl.
    rewrite length_select by done. rewrite <-Hlen, <-(length_filter_mask mask). lia.
Qed.

Lemma row_keys_fill_frame d filtered sorted dropped :
  clean_stages d filtered sorted dropped →
  row_keys (fill_frame dropped) = row_keys dropped.
Proof.
  intros Hst.
  destruct (clean_stages_location _ _ _ _ Hst) as (c & Hc & Hc' & _).
  destruct (clean_stages_date _ _ _ _ Hst) as (l & Hl & Hl').
  unfold row_keys, column_cells. by rewrite Hc, Hc', Hl, Hl'.
Qed.

#[local] Instance key_le_trans : Transitive key_le.
Proof. intros a b c. apply key_leb_trans. Qed.

(** The keys of the cleaned table are in ascending order. *)
Lemma clean_stages_keys_sorted d filtered sorted dropped :
  wf d → clean_stages d filtered sorted dropped →
  StronglySorted key_le (row_keys (fill_frame dropped)).
Proof.
  intros Hwf Hst.
  destruct (clean_stages_sorted _ _ _ _ Hwf Hst) as (keys & _ & Hkeys & _).
  rewrite (row_keys_fill_frame _ _ _ _ Hst).
  apply clean_stages_inv in Hst as (? & ? & ? & mask & _ & _ & _ & _ & _ & _ & ->).
  rewrite row_keys_boolean_index. apply select_StronglySorted. rewrite Hkeys.
  apply stable_sort_StronglySorted; [apply key_leb_total | apply _].
Qed.

(** C6. The cleaned table is ordered by location and, within a location,
    by date, both ascending; the sort is stable: rows with the same
    location and date come in the order they had in the input. *)
Theorem clean_data_sorted st df d r st' :
  heap st !! df = Some d → wf d →
  clean_data df st = (Returned r, st') →
  ∃ cleaned,
    heap st' !! r = Some cleaned ∧
    length (row_keys cleaned) = len cleaned ∧
    StronglySorted key_le (row_keys cleaned) ∧
    ∀ k, labels_with_key cleaned k `sublist_of` index d.
Proof.
  intros Hd Hwf (d' & filtered & sorted & dropped & Hd' & Hst & -> & ->)%clean_data_Returned.
  assert (d' = d) as -> by congruence.
  exists (fill_frame dropped). split; [by apply list_lookup_middle|].
  destruct (clean_stages_sorted _ _ _ _ Hwf Hst) as (keys & Hkl & Hkeys & Hzip).
  destruct (clean_stages_wf _ _ _ _ Hwf Hst) as (_ & Hwfs & Hwfd & _).
  pose proof (row_keys_fill_frame _ _ _ _ Hst) as Hfill.
  pose proof Hst as (location & date0 & date & mask & Hl & _ & Hf & _ & _ & Hmask & ->)
    %clean_stages_inv.
  rewrite Hfill, row_keys_boolean_index. split_and!.
  - destruct (clean_stages_location _ _ _ _ Hst) as (c & Hc & _).
    destruct (clean_stages_date _ _ _ _ Hst) as (l & Hdt & _).
    rewrite <-row_keys_boolean_index. unfold row_keys.
    rewrite (column_cells_lookup _ _ _ Hc), (column_cells_lookup _ _ _ Hdt).
    rewrite length_zip, <-!col_length_cells.
    rewrite (wf_lookup _ _ _ Hwfd Hc), (wf_lookup _ _ _ Hwfd Hdt). unfold len. simpl. lia.
  - rewrite <-row_keys_boolean_index, <-Hfill.
    apply (clean_stages_keys_sorted _ _ _ _ Hwf Hst).
  - intros k. unfold labels_with_key. rewrite Hfill, row_keys_boolean_index. simpl.
    rewrite <-select_zip, Hzip.
    trans (filter (λ r : Cell * Cell * nat, r.1 = k)
             (stable_sort (λ a b, key_leb a.1 b.1) (zip keys (index filtered)))).*2.
    { apply fmap_sublist, filter_sublist_mono, select_sublist. }
    rewrite stable_sort_stable by (intros ?? -> ->; apply key_leb_refl).
    trans (zip keys (index filtered)).*2.
    { apply fmap_sublist, sublist_filter. }
    rewrite snd_zip by (unfold len in Hkl; lia). rewrite Hf. apply select_sublist.
Qed.

(** C2, as the code has it.  The gap-fill populates every numeric column
    that holds a value in at least one of the rows kept by the row
    removal; a numeric column without any value in those rows stays
    missing in all of them.  Columns of other types are not touched. *)
Theorem clean_data_gap_fill st df r st' :
  clean_data df st = (Returned r, st') →
  ∃ d filtered sorted dropped cleaned,
    heap st !! df = Some d ∧
    clean_stages d filtered sorted dropped ∧
    heap st' !! r = Some cleaned ∧
    index cleaned = index dropped ∧
    ∀ name c, columns dropped !! name = Some c →
      match c with
      | Float64 l =>
          columns cleaned !! name = Some (Float64 (bfill (ffill l))) ∧
          ((Exists present l ∧ Forall present (bfill (ffill l))) ∨
           (Forall (λ x, is_nan x = true) l ∧ bfill (ffill l) = l))
      | _ => columns cleaned !! name = Some c
      end.
Proof.
  intros (d & filtered & sorted & dropped & Hd & Hst & -> & ->)%clean_data_Returned.
  exists d, filtered, sorted, dropped, (fill_frame dropped).
  split_and!; [done..|by apply list_lookup_middle|done|].
  intros name c Hc. rewrite lookup_fill_frame, Hc.
  destruct c as [l| |]; simpl; [|done..]. split; [done|]. apply bfill_ffill_cases.
Qed.

(** *** The cleaned table is a fixed point *)

Lemma clean_data_cleaned_table st df d r st' :
  heap st !! df = Some d → wf d →
  clean_data df st = (Returned r, st') →
  ∃ cleaned,
    heap st' !! r = Some cleaned ∧ cleaned_table cleaned ∧
    (NoDup (index d) → NoDup (index cleaned)).
Proof.
  intros Hd Hwf Hrun.
  apply clean_data_Returned in Hrun
    as (d' & filtered & sorted & dropped & Hd' & Hst & -> & ->).
  assert (d' = d) as -> by congruence.
  pose proof (clean_stages_keys_sorted _ _ _ _ Hwf Hst) as Hsorted.
  exists (fill_frame dropped). split; [by apply list_lookup_middle|].
  destruct (clean_stages_wf _ _ _ _ Hwf Hst) as (Hwff & Hwfs & _ & Hwfc).
  split; [split_and!|].
  - done.
  - destruct (clean_stages_location _ _ _ _ Hst) as (c & _ & ? & ?). eauto.
  - destruct (clean_stages_date _ _ _ _ Hst) as (l & _ & ?). eauto.
  - intros name Hname.
    destruct (clean_stages_critical _ _ _ _ name Hst Hname) as (c & _ & ? & ?). eauto.
  - done.
  - apply fill_frame_idemp.
  - intros Hnd.
    apply clean_stages_inv in Hst
      as (location & date0 & date & mask & Hl & Hd0 & -> & Hdate & -> & Hmask & ->).
    simpl. apply select_NoDup.
    rewrite sort_by_Permutation by (by eapply length_sort_keys).
    by apply select_NoDup.
Qed.

Lemma cleaned_table_fixed st r cleaned :
  heap st !! r = Some cleaned → cleaned_table cleaned →
  clean_data r st =
    (Returned (length (heap st)),
     {| heap := heap st ++ [cleaned]; stdout := stdout st ++ clean_log 0 |}).
Proof.
  intros Hr (Hwf & (c & Hc & Hall) & (l & Hl) & Hcrit & Hsorted & Hfill).
  apply clean_data_Returned. exists cleaned, cleaned, cleaned, cleaned.
  split_and!; [done| |done|].
  - exists c, l. split; [done|].
    assert (boolean_index (isin countries_of_interest c) cleaned = cleaned) as Hf.
    { apply boolean_index_all_true; [done|by apply allowed_isin|].
      rewrite length_isin. by apply (wf_lookup cleaned "location"). }
    rewrite Hf. split; [done|]. unfold getitem. rewrite Hl. simpl. split; [done|].
    rewrite setitem_id by done. split.
    + unfold sort_values, getitem. rewrite Hc, Hl.
      unfold row_keys in Hsorted.
      rewrite (column_cells_lookup _ _ _ Hc), (column_cells_lookup _ _ _ Hl) in Hsorted.
      unfold mbind, result_bind, mret, result_ret. f_equal.
      apply reorder_sorted; [done|by apply StronglySorted_Sorted|].
      rewrite length_zip, <-!col_length_cells.
      rewrite (wf_lookup _ _ _ Hwf Hc), (wf_lookup _ _ _ Hwf Hl). lia.
    + destruct (notna_all_present cleaned critical Hcrit) as (mask & Hmask & Htrue).
      unfold dropna. rewrite Hmask. simpl. f_equal.
      apply boolean_index_all_true; [done..|]. by apply (length_notna_all _ critical).
  - rewrite Hfill. do 3 f_equal. lia.
Qed.

(** C3. Cleaning a cleaned table changes nothing: the second run returns
    the same table and reports that it dropped 0 rows. *)
Theorem clean_data_idempotent st df d r st' :
  heap st !! df = Some d → wf d →
  clean_data df st = (Returned r, st') →
  ∃ cleaned r2 st2,
    heap st' !! r = Some cleaned ∧
    clean_data r st' = (Returned r2, st2) ∧
    heap st2 !! r2 = Some cleaned ∧
    stdout st2 = stdout st' ++ clean_log 0.
Proof.
  intros Hd Hwf Hrun.
  destruct (clean_data_cleaned_table _ _ _ _ _ Hd Hwf Hrun) as (cleaned & Hc & Hct & _).
  exists cleaned. eexists _, _. split; [done|].
  split; [by apply cleaned_table_fixed|]. split; [|done].
  by apply list_lookup_middle.
Qed.

(** ** The death rate *)

(** [calculate_and_plot_death_rate] returns exactly on a table whose two
    count columns are numeric and which has the two plot axes; it leaves
    the death rate in the caller's table. *)
Lemma calculate_and_plot_death_rate_Returned st df st' :
  calculate_and_plot_death_rate df st = (Returned (), st') ↔
  ∃ d td tc,
    heap st !! df = Some d ∧
    columns d !! "total_deaths" = Some (Float64 td) ∧
    columns d !! "total_cases" = Some (Float64 tc) ∧
    is_Some (columns d !! "date") ∧
    is_Some (columns d !! "location") ∧
    st' = {| heap := <[df := setitem d "death_rate" (Float64 (death_rate td tc))]> (heap st);
             stdout := stdout st ++
               [Printed (nl +:+ "--- Calculating and Plotting Death Rate ---");
                Shown (death_rate_figure
                        (setitem d "death_rate" (Float64 (death_rate td tc))))] |}.
Proof.
  unfold calculate_and_plot_death_rate, lineplot, show, resolve, getitem, as_float64.
  run. split.
  - destruct (heap st !! df) as [d|] eqn:Hd; [|done].
    pose proof (lookup_lt_Some _ _ _ Hd) as Hlt.
    destruct (columns d !! "total_deaths") as [[td| |]|] eqn:Htd; simpl; try done.
    destruct (columns d !! "total_cases") as [[tc| |]|] eqn:Htc; simpl; try done.
    repeat (rewrite list_lookup_insert_eq by (by rewrite ?length_insert); simpl).
    rewrite !insert_insert_eq, !list_insert_insert_eq.
    rewrite (lookup_insert_ne _ "death_rate" "date") by done.
    rewrite (lookup_insert_ne _ "death_rate" "location") by done.
    rewrite lookup_insert_eq.
    destruct (columns d !! "date") as [dt|] eqn:Hdt; simpl; [|done].
    destruct (columns d !! "location") as [lc|] eqn:Hlc; simpl; [|done].
    intros [= <-]. exists d, td, tc. split_and!; try done.
    unfold death_rate_figure, death_rate, setitem. simpl.
    by rewrite !insert_insert_eq, <-!app_assoc.
  - intros (d & td & tc & Hd & Htd & Htc & [dt Hdt] & [lc Hlc] & ->).
    pose proof (lookup_lt_Some _ _ _ Hd) as Hlt.
    rewrite Hd, Htd. simpl. rewrite Htc. simpl.
    repeat (rewrite list_lookup_insert_eq by (by rewrite ?length_insert); simpl).
    rewrite !insert_insert_eq, !list_insert_insert_eq.
    rewrite (lookup_insert_ne _ "death_rate" "date") by done.
    rewrite (lookup_insert_ne _ "death_rate" "location") by done.
    rewrite lookup_insert_eq, Hdt, Hlc. simpl.
    unfold death_rate_figure, death_rate, setitem. simpl.
    by rewrite !insert_insert_eq, <-!app_assoc.
Qed.

Lemma lookup_death_rate_raw td tc i deaths cases :
  td !! i = Some deaths → tc !! i = Some cases →
  death_rate_raw td tc !! i
    = Some (Float64.mul (Float64.div deaths cases) (Float64.of_Z 100)).
Proof.
  intros Hd Hc. unfold death_rate_raw, mul_scalar, truediv.
  by rewrite list_lookup_fmap, lookup_zip_with, Hd, Hc.
Qed.

(** C1, as the code has it.  On a table with numeric count columns the
    death rate is computed without any exception, zero cases included,
    and the filled column holds finite numbers only.  A row without a
    case and without a death has no ratio (0/0); it resolves to 0 when
    no earlier row of the table has a finite ratio, and otherwise to the
    ratio of the nearest earlier row that has one, whatever the location
    of that row. *)
Theorem death_rate_zero_cases st df d td tc :
  heap st !! df = Some d →
  columns d !! "total_deaths" = Some (Float64 td) →
  columns d !! "total_cases" = Some (Float64 tc) →
  is_Some (columns d !! "date") → is_Some (columns d !! "location") →
  ∃ st' d',
    calculate_and_plot_death_rate df st = (Returned (), st') ∧
    heap st' !! df = Some d' ∧
    columns d' !! "death_rate" = Some (Float64 (death_rate td tc)) ∧
    Forall (λ x, is_finite x = true) (death_rate td tc) ∧
    ∀ i deaths cases,
      td !! i = Some deaths → tc !! i = Some cases →
      is_zero cases = true → is_zero deaths = true →
      death_rate_raw td tc !! i = Some NaN ∧
      ((∀ k x, k < i → death_rate_raw td tc !! k = Some x → is_finite x = false) →
       death_rate td tc !! i = Some zero) ∧
      (∀ j v, j < i → death_rate_raw td tc !! j = Some v → is_finite v = true →
         (∀ k x, j < k → k < i →
            death_rate_raw td tc !! k = Some x → is_finite x = false) →
         death_rate td tc !! i = Some v).
Proof.
  intros Hd Htd Htc Hdt Hlc.
  eexists _, (setitem d "death_rate" (Float64 (death_rate td tc))). split_and!.
  - apply calculate_and_plot_death_rate_Returned. by exists d, td, tc.
  - simpl. apply list_lookup_insert_eq. by eapply lookup_lt_Some.
  - simpl. apply lookup_insert_eq.
  - apply fillna_ffill_replace_inf_finite.
  - intros i deaths cases Hi Hi' Hc0 Hd0.
    assert (death_rate_raw td tc !! i = Some NaN) as Hraw.
    { rewrite (lookup_death_rate_raw _ _ _ _ _ Hi Hi'). by rewrite div_zero_zero. }
    assert (∀ k, k ≤ i → is_Some (death_rate_raw td tc !! k)) as Hsome.
    { intros k Hk. apply lookup_lt_is_Some. apply lookup_lt_Some in Hraw. lia. }
    split; [done|]. unfold death_rate. split.
    + intros Hgap.
      rewrite (lookup_fillna _ _ _ NaN); [done|].
      apply ffill_from_lookup_gap. intros k Hk.
      destruct (decide (k = i)) as [->|Hne]; [by apply (replace_inf_not_finite _ _ NaN)|].
      destruct (Hsome k Hk) as [x Hx].
      apply (replace_inf_not_finite _ _ x); [done|]. apply (Hgap k); [lia|done].
    + intros j v Hji Hj Hv Hgap.
      rewrite (lookup_fillna _ _ _ v); [by destruct v|].
      apply (ffill_from_lookup_prev _ _ i j v); [done| | |].
      * by apply replace_inf_finite.
      * by destruct v.
      * intros k Hjk Hk.
        destruct (decide (k = i)) as [->|Hne]; [by apply (replace_inf_not_finite _ _ NaN)|].
        destruct (Hsome k Hk) as [x Hx].
        apply (replace_inf_not_finite _ _ x); [done|]. apply (Hgap k); [lia..|done].
Qed.

Lemma plot_over_time_Returned banner y title ylabel df st st' :
  plot_over_time banner y title ylabel df st = (Returned (), st') ↔
  ∃ d,
    heap st !! df = Some d ∧
    is_Some (columns d !! "date") ∧ is_Some (columns d !! y) ∧
    is_Some (columns d !! "location") ∧
    st' = {| heap := heap st;
             stdout := stdout st ++
               [Printed banner;
                Shown {| fig_chart := Lineplot d "date" y "location";
                        fig_title := title; fig_xlabel := "Date";
                        fig_ylabel := ylabel |}] |}.
Proof.
  unfold plot_over_time, lineplot, show, resolve. run. split.
  - destruct (heap st !! df) as [d|] eqn:Hd; [|done].
    destruct (columns d !! "date") as [dt|] eqn:Hdt; simpl; [|done].
    destruct (columns d !! y) as [cy|] eqn:Hy; simpl; [|done].
    destruct (columns d !! "location") as [lc|] eqn:Hlc; simpl; [|done].
    intros [= <-]. exists d. split_and!; try done. by rewrite <-app_assoc.
  - intros (d & Hd & [dt Hdt] & [cy Hy] & [lc Hlc] & ->).
    rewrite Hd, Hdt. simpl. rewrite Hy. simpl. rewrite Hlc. simpl.
    by rewrite <-app_assoc.
Qed.

(** C10, as the code has it.  [calculate_and_plot_death_rate] assigns the
    death_rate column into the table it was given: the row labels and
    every column with another name are as before (a column that was
    already called death_rate is overwritten), no other object changes,
    and the chart generator called next on the same reference plots the
    table with the new column. *)
Theorem death_rate_in_place st df st' :
  calculate_and_plot_death_rate df st = (Returned (), st') →
  ∃ d d' rate,
    heap st !! df = Some d ∧
    heap st' !! df = Some d' ∧
    (∀ r, r ≠ df → heap st' !! r = heap st !! r) ∧
    index d' = index d ∧
    columns d' !! "death_rate" = Some (Float64 rate) ∧
    (∀ name, name ≠ "death_rate" → columns d' !! name = columns d !! name) ∧
    ∀ st2, plot_cumulative_vaccinations df st' = (Returned (), st2) →
      ∃ fig, last (stdout st2) = Some (Shown fig) ∧
             fig_chart fig = Lineplot d' "date" "total_vaccinations" "location".
Proof.
  intros (d & td & tc & Hd & Htd & Htc & Hdt & Hlc & ->)
    %calculate_and_plot_death_rate_Returned.
  pose proof (lookup_lt_Some _ _ _ Hd) as Hlt.
  exists d, (setitem d "death_rate" (Float64 (death_rate td tc))), (death_rate td tc).
  simpl. split_and!; try done.
  - by apply list_lookup_insert_eq.
  - intros r Hr. by apply list_lookup_insert_ne.
  - apply lookup_insert_eq.
  - intros name Hname. by apply lookup_insert_ne.
  - intros st2 (d2 & Hd2 & _ & _ & _ & ->)%plot_over_time_Returned.
    simpl in Hd2. rewrite list_lookup_insert_eq in Hd2 by done. injection Hd2 as <-.
    eexists. simpl. split; [by rewrite last_app|done].
Qed.

(** ** Loading *)

Lemma endswith_csv_nonempty fn : endswith fn ".csv" = true → fn ≠ "".
Proof. by intros H ->. Qed.

(** Either no uploaded name ends in ".csv", or there is a first one. *)
Lemma first_csv_cases (uploaded : list (string * bytes)) :
  Forall not_csv uploaded ∨
  ∃ pre fn content post,
    uploaded = pre ++ (fn, content) :: post ∧
    Forall not_csv pre ∧ endswith fn ".csv" = true.
Proof.
  induction uploaded as [|[fn content] uploaded IH]; [by left|].
  destruct (endswith fn ".csv") eqn:Hfn.
  - right. by exists [], fn, content, uploaded.
  - destruct IH as [IH|(pre & fn' & content' & post & -> & Hpre & Hfn')].
    + left. by constructor.
    + right. exists ((fn, content) :: pre), fn', content', post.
      split_and!; [done| |done]. by constructor.
Qed.

Lemma first_csv_none acc (uploaded : list (string * bytes)) :
  Forall not_csv uploaded → first_csv acc uploaded.*1 = acc.
Proof.
  induction 1 as [|[fn content] uploaded Hfn _ IH]; simpl; [done|].
  unfold not_csv in Hfn. simpl in Hfn. by rewrite Hfn.
Qed.

Lemma first_csv_some acc (pre post : list (string * bytes)) fn content :
  Forall not_csv pre → endswith fn ".csv" = true →
  first_csv acc (pre ++ (fn, content) :: post).*1 = Some fn.
Proof.
  intros Hpre Hfn. induction Hpre as [|[fn' content'] pre Hfn' _ IH]; simpl.
  - by rewrite Hfn.
  - unfold not_csv in Hfn'. simpl in Hfn'. by rewrite Hfn'.
Qed.

Lemma dict_get_first (pre post : list (string * bytes)) fn content :
  Forall not_csv pre → endswith fn ".csv" = true →
  dict_get (pre ++ (fn, content) :: post) fn = inr content.
Proof.
  intros Hpre Hfn. induction Hpre as [|[fn' content'] pre Hfn' _ IH]; simpl.
  - by rewrite bool_decide_eq_true_2.
  - rewrite bool_decide_eq_false_2; [done|]. intros ->.
    unfold not_csv in Hfn'. simpl in Hfn'. congruence.
Qed.

(** C9. [load_data_from_upload] gives no table in exactly two cases, each
    with its message: no uploaded name ends in ".csv", or decoding or
    parsing the first such file raises, which is caught.  Otherwise it
    returns the parsed table, as a new object. *)
Theorem load_data_from_upload_cases uploaded st :
  let prompt := Printed "Please upload your 'owid-covid-data.csv' file." in
  (Forall not_csv uploaded ∧
   load_data_from_upload uploaded st =
     (Returned None,
      {| heap := heap st;
         stdout := stdout st ++
           [prompt;
            Printed "No CSV file found among uploaded files. Please upload a CSV."] |}))
  ∨
  ∃ pre fn content post,
    uploaded = pre ++ (fn, content) :: post ∧
    Forall not_csv pre ∧ endswith fn ".csv" = true ∧
    ((∃ e, (decode_utf8 content ≫= read_csv) = inl e ∧
           load_data_from_upload uploaded st =
             (Returned None,
              {| heap := heap st;
                 stdout := stdout st ++
                   [prompt; Printed ("Error loading file: " +:+ exn_str e)] |}))
     ∨
     (∃ df, (decode_utf8 content ≫= read_csv) = inr df ∧
            load_data_from_upload uploaded st =
              (Returned (Some (length (heap st))),
               {| heap := heap st ++ [df];
                  stdout := stdout st ++
                    [prompt; Printed ("Data '" +:+ fn +:+ "' loaded successfully!")] |}))).
Proof.
  intros prompt. unfold Script.load_data_from_upload.
  destruct (first_csv_cases uploaded) as [Hnone|(pre & fn & content & post & -> & Hpre & Hfn)].
  - left. split; [done|]. rewrite first_csv_none by done. run.
    by rewrite <-app_assoc.
  - right. exists pre, fn, content, post. split_and!; [done..|].
    rewrite (first_csv_some _ _ _ _ _ Hpre Hfn). unfold truthy.
    rewrite bool_decide_eq_false_2 by by apply endswith_csv_nonempty.
    run. rewrite (dict_get_first _ _ _ _ Hpre Hfn). simpl.
    destruct (decode_utf8 content) as [e|text]; simpl.
    { left. exists e. split; [done|]. by rewrite <-app_assoc. }
    destruct (read_csv text) as [e|df]; simpl.
    { left. exists e. split; [done|]. by rewrite <-app_assoc. }
    right. exists df. split; [done|]. by rewrite <-app_assoc.
Qed.

(** ** An empty selection *)

Lemma to_datetime_empty c : col_length c = 0 → to_datetime c = inr [].
Proof. destruct c as [[|??]|[|??]|[|??]]; by simpl. Qed.

Lemma col_length_select_false mask c :
  Forall (λ b, b = false) mask → col_length (col_apply (λ _, select mask) c) = 0.
Proof. intros H. destruct c; simpl; by rewrite select_all_false. Qed.

Lemma col_length_sort_by_empty keys c :
  col_length c = 0 → col_length (col_apply (λ _, sort_by key_leb keys) c) = 0.
Proof.
  destruct c as [l|l|l]; simpl; intros ->%length_zero_iff_nil; by rewrite sort_by_nil_r.
Qed.

Lemma col_length_select_empty mask c :
  col_length c = 0 → col_length (col_apply (λ _, select mask) c) = 0.
Proof.
  destruct c as [l|l|l]; simpl; intros ->%length_zero_iff_nil; by rewrite select_nil_r.
Qed.

(** When the filter keeps no row, every stage succeeds on an empty
    table. *)
Lemma clean_stages_empty d location :
  columns d !! "location" = Some location →
  Forall (λ b, b = false) (isin countries_of_interest location) →
  (∀ name, name ∈ critical → is_Some (columns d !! name)) →
  ∃ filtered sorted dropped,
    clean_stages d filtered sorted dropped ∧
    index sorted = [] ∧ index dropped = [] ∧
    ∀ name c, columns dropped !! name = Some c → col_length c = 0.
Proof.
  intros Hl Hnone Hcrit. set (m := isin countries_of_interest location) in *.
  destruct (Hcrit "date") as [date0 Hd0]; [unfold critical; set_solver|].
  set (filtered := boolean_index m d).
  set (parsed := setitem filtered "date" (Datetime64 [])).
  set (keys := zip (cells (col_apply (λ _, select m) location)) (cells (Datetime64 []))).
  set (sorted := reorder keys parsed).
  assert (∀ name c, columns sorted !! name = Some c → col_length c = 0) as Hcols.
  { intros name c. unfold sorted, parsed, filtered. simpl.
    rewrite lookup_fmap. intros (c0 & Hc0 & ->)%fmap_Some.
    apply col_length_sort_by_empty. revert Hc0. rewrite lookup_insert.
    case_decide; [by intros [= <-]|]. rewrite lookup_fmap.
    intros (c1 & _ & ->)%fmap_Some. by apply col_length_select_false. }
  destruct (notna_all_complete sorted critical) as [mask Hmask].
  { intros name Hname. unfold sorted, parsed, filtered. simpl.
    rewrite lookup_fmap, lookup_insert. case_decide; [done|].
    rewrite lookup_fmap. destruct (Hcrit name Hname) as [c ->]. done. }
  assert (index sorted = []) as Hidx.
  { unfold sorted, parsed, filtered, m. simpl.
    by rewrite select_all_false, sort_by_nil_r. }
  exists filtered, sorted, (boolean_index mask sorted). split_and!.
  - exists location, []. split_and!; [done..| | |].
    + unfold getitem, filtered. simpl. rewrite lookup_fmap, Hd0. simpl.
      apply to_datetime_empty. by apply col_length_select_false.
    + unfold sort_values, getitem, parsed, filtered. simpl.
      rewrite (lookup_insert_ne _ "date" "location"), lookup_fmap, Hl by done.
      by rewrite lookup_insert_eq.
    + unfold dropna. by rewrite Hmask.
  - done.
  - change (index (boolean_index mask sorted)) with (select mask (index sorted)).
    rewrite Hidx. apply select_nil_r.
  - intros name c.
    change (columns (boolean_index mask sorted))
      with (col_apply (λ _, select mask) <$> columns sorted).
    rewrite lookup_fmap. intros (c0 & Hc0 & ->)%fmap_Some.
    apply col_length_select_empty. by apply (Hcols name).
Qed.

Lemma empty_fill_frame d : index d = [] → empty (fill_frame d) = true.
Proof. intros H. unfold empty. simpl. by rewrite H. Qed.

Lemma explore_data_run st df d :
  heap st !! df = Some d →
  ∃ evs, explore_data df st =
           (Returned (), {| heap := heap st; stdout := stdout st ++ evs |}) ∧
         Forall (λ e, is_show e = false) evs.
Proof.
  intros Hd. unfold explore_data. run. rewrite Hd. simpl.
  eexists. rewrite <-!app_assoc. simpl. split; [done|]. by repeat constructor.
Qed.

(** C8. When the country filter keeps no row, [clean_data] still returns
    a table, an empty one, and the driver then shows no chart: it prints
    that the cleaned data is empty and ends normally.  The table must
    have the columns the cleaning reads. *)
Theorem empty_filter_skips_charts uploaded st data st1 d location :
  load_data_from_upload uploaded st = (Returned (Some data), st1) →
  heap st1 !! data = Some d →
  columns d !! "location" = Some location →
  Forall (λ b, b = false) (isin countries_of_interest location) →
  (∀ name, name ∈ critical → is_Some (columns d !! name)) →
  (∀ s, heap s !! data = Some d →
     ∃ s' cleaned,
       clean_data data s = (Returned (length (heap s)), s') ∧
       heap s' !! length (heap s) = Some cleaned ∧
       len cleaned = 0 ∧
       (∀ name c, columns cleaned !! name = Some c → col_length c = 0)) ∧
  ∃ st' evs,
    main uploaded st = (Returned (), st') ∧
    stdout st' = stdout st1 ++ evs ∧
    Forall (λ e, is_show e = false) evs ∧
    last evs = Some (Printed (nl +:+ "Cleaned data is empty. No plots can be generated.")).
Proof.
  intros Hload Hd Hl Hnone Hcrit.
  destruct (clean_stages_empty d location Hl Hnone Hcrit)
    as (filtered & sorted & dropped & Hst & Hsorted & Hdropped & Hcols).
  assert (∀ s, heap s !! data = Some d →
            clean_data data s =
              (Returned (length (heap s)),
               {| heap := heap s ++ [fill_frame dropped];
                  stdout := stdout s ++ clean_log 0 |})) as Hclean.
  { intros s Hs. apply clean_data_Returned. exists d, filtered, sorted, dropped.
    split_and!; [done..|]. unfold len. by rewrite Hsorted, Hdropped. }
  split.
  - intros s Hs. eexists _, (fill_frame dropped). split_and!.
    + by apply Hclean.
    + by apply list_lookup_middle.
    + unfold len. simpl. by rewrite Hdropped.
    + intros name c. rewrite lookup_fill_frame. intros (c0 & Hc0 & ->)%fmap_Some.
      rewrite col_length_fill_numeric. by apply (Hcols name).
  - destruct (explore_data_run st1 data d Hd) as (evs & Hexplore & Hevs).
    eexists _, (evs ++ clean_log 0 ++
                [Printed (nl +:+ "Cleaned data is empty. No plots can be generated.")]).
    split_and!.
    + unfold Script.main. unfold mbind, M_bind, bind at 1. rewrite Hload.
      unfold bind at 1. rewrite Hexplore.
      unfold bind at 1. rewrite Hclean by done.
      unfold bind at 1. unfold deref. simpl.
      rewrite list_lookup_middle by done. rewrite empty_fill_frame by done. simpl.
      unfold print, emit. simpl. reflexivity.
    + simpl. by rewrite <-!app_assoc.
    + apply Forall_app. split; [done|]. by repeat constructor.
    + by rewrite !app_assoc, last_snoc.
Qed.

(** ** The vaccination comparison *)

Lemma groupby_idxmax_latest d :
  cleaned_table d →
  ∃ labels ps,
    groupby_idxmax "location" "date" d = inr labels ∧
    Forall2 (λ lab p, index d !! p = Some lab) labels ps ∧
    Forall2 (latest_of d) (group_keys (column_cells d "location")) ps.
Proof.
  intros (Hwf & (c & Hc & Hall) & (l & Hl) & Hcrit & _ & _).
  destruct (Hcrit "date") as (c' & Hc' & Hna); [unfold critical; set_solver|].
  assert (c' = Datetime64 l) as -> by congruence.
  pose proof (wf_column_cells _ _ _ Hwf Hc) as Hlenc.
  pose proof (wf_column_cells _ _ _ Hwf Hl) as Hlenl.
  unfold groupby_idxmax, getitem. rewrite Hc, Hl. simpl.
  unfold latest_of. rewrite (column_cells_lookup _ _ _ Hc), (column_cells_lookup _ _ _ Hl)
    in *.
  set (locs := cells c) in *. set (dates := cells (Datetime64 l)) in *.
  change (CDatetime <$> l) with dates.
  apply mapM_inr_positions. intros g [Hg _]%elem_of_group_keys.
  set (rows := group_rows locs (index d) dates g).
  assert (∀ q j w, locs !! q = Some g → index d !! q = Some j → dates !! q = Some w →
            (j, w) ∈ rows) as Hin.
  { intros q j w Hq Hj Hw. apply elem_of_select. exists q. split.
    - rewrite list_lookup_fmap, Hq. simpl. by rewrite bool_decide_eq_true_2.
    - rewrite lookup_zip_with, Hj. simpl. by rewrite Hw. }
  destruct (idxmax_spec rows) as (i & v & Hmax & Hiv & Hle).
  - apply Forall_forall. intros [j w] (q & _ & Hq)%elem_of_select.
    apply lookup_zip_with_Some in Hq as (? & ? & [= <- <-] & _ & Hw).
    rewrite Forall_forall in Hna. apply Hna. by eapply list_elem_of_lookup_2.
  - apply list_elem_of_lookup in Hg as [q Hq].
    pose proof (lookup_lt_Some _ _ _ Hq) as Hlt.
    destruct (lookup_lt_is_Some_2 (index d) q) as [j Hj]; [unfold len in *; lia|].
    destruct (lookup_lt_is_Some_2 dates q) as [w Hw]; [lia|].
    intros Hnil. pose proof (Hin q j w Hq Hj Hw) as Hqin. rewrite Hnil in Hqin.
    by apply elem_of_nil in Hqin.
  - apply elem_of_select in Hiv as (p & Hp & Hzip).
    apply lookup_zip_with_Some in Hzip as (? & ? & [= <- <-] & Hi & Hv).
    rewrite list_lookup_fmap in Hp. apply fmap_Some in Hp as (g' & Hg' & Hb).
    symmetry in Hb. apply bool_decide_eq_true in Hb as ->.
    exists i, p. rewrite Hmax. split_and!; [done..|].
    exists v. split; [done|]. intros q w Hq Hw.
    pose proof (lookup_lt_Some _ _ _ Hq) as Hlt.
    destruct (lookup_lt_is_Some_2 (index d) q) as [j Hj]; [unfold len in *; lia|].
    by apply (Hle (j, w)), (Hin q).
Qed.

Lemma Forall2_omap_lookup {A : Type} (l : list A) (xs : list A) (ps : list nat) :
  Forall2 (λ x p, l !! p = Some x) xs ps → omap (l !!.) ps = xs.
Proof. induction 1 as [|x p xs ps Hp _ IH]; csimpl; [done|]. by rewrite Hp, IH. Qed.

(** C7. On a cleaned table with distinct row labels
    [compare_vaccinated_population] takes one row per location, a row
    with the location's greatest date, in ascending order of location;
    it drops the rows without a vaccination percentage and shows one bar
    per row left, or prints that there is nothing to compare when no row
    is left.  It does not raise. *)
Theorem compare_vaccinated_population_latest st df d :
  heap st !! df = Some d →
  cleaned_table d → NoDup (index d) → index d ≠ [] →
  is_Some (columns d !! "people_vaccinated_per_hundred") →
  ∃ ps,
    Forall (λ p, p < len d) ps ∧
    omap (column_cells d "location" !!.) ps = group_keys (column_cells d "location") ∧
    NoDup (omap (column_cells d "location" !!.) ps) ∧
    (∀ g, g ∈ column_cells d "location" → g ∈ omap (column_cells d "location" !!.) ps) ∧
    (∀ p, p ∈ ps → ∃ g, latest_of d g p) ∧
    let kept := filter (λ p, has_value d "people_vaccinated_per_hundred" p = true) ps in
    compare_vaccinated_population df st =
      (Returned (),
       {| heap := heap st;
          stdout := stdout st ++
            [Printed (nl +:+ "--- Comparing Vaccinated Population (%) ---");
             if decide (kept = [])
             then Printed "No vaccination data available for comparison after cleaning."
             else Shown (vaccination_figure (rows_at kept d))] |}).
Proof.
  intros Hd Hct Hnd _ [pv Hpv].
  destruct (groupby_idxmax_latest d Hct) as (labels & ps & Hlabels & Hidx & Hlatest).
  pose proof Hct as (Hwf & (c & Hc & Hall) & _).
  assert (Forall (λ p, p < len d) ps) as Hps.
  { apply Forall_forall. intros p Hp.
    apply list_elem_of_lookup in Hp as [i Hi].
    destruct (Forall2_lookup_r _ _ _ _ _ Hidx Hi) as (lab & _ & Hlab).
    by apply lookup_lt_Some in Hlab. }
  assert (omap (column_cells d "location" !!.) ps = group_keys (column_cells d "location"))
    as Hkeys.
  { apply Forall2_omap_lookup. eapply Forall2_impl; [done|]. by intros g p [? _]. }
  exists ps. split_and!; [done|done| | | |].
  - rewrite Hkeys. apply NoDup_group_keys.
  - intros g Hg. rewrite Hkeys. apply elem_of_group_keys. split; [done|].
    apply allowed_present. rewrite (column_cells_lookup _ _ _ Hc) in Hg.
    rewrite Forall_forall in Hall. by apply Hall.
  - intros p Hp. apply list_elem_of_lookup in Hp as [i Hi].
    destruct (Forall2_lookup_r _ _ _ _ _ Hlatest Hi) as (g & _ & Hg). eauto.
  - intros kept. unfold compare_vaccinated_population. run. rewrite Hd, Hlabels. simpl.
    rewrite (loc_rows_at labels ps d) by done.
    unfold dropna, notna_all, getitem.
    assert (columns (rows_at ps d) !! "people_vaccinated_per_hundred"
            = Some (col_apply (λ _ l, omap (l !!.) ps) pv)) as ->.
    { simpl. by rewrite lookup_fmap, Hpv. }
    simpl.
    rewrite (notna_rows_at ps d "people_vaccinated_per_hundred" pv) by
      (by rewrite ?(wf_lookup _ _ _ Hwf Hpv)).
    rewrite zip_with_andb_true.
    2:{ rewrite length_fmap, length_omap_lookup; [done|].
        eapply Forall_impl; [done|]. intros p Hp. by apply lookup_lt_is_Some. }
    rewrite boolean_index_rows_at, select_fmap_filter by done. fold kept.
    assert (Forall (λ p, p < len d) kept) as Hkept.
    { apply Forall_forall. intros p [_ Hp]%list_elem_of_filter.
      rewrite Forall_forall in Hps. by apply Hps. }
    unfold empty, barplot, show, resolve. simpl.
    rewrite (bool_decide_eq_false_2 (_ = ∅)).
    2:{ intros Hemp. apply (f_equal (.!! "people_vaccinated_per_hundred")) in Hemp.
        by rewrite lookup_fmap, Hpv, lookup_empty in Hemp. }
    rewrite orb_false_r.
    destruct (decide (kept = [])) as [Hk|Hk].
    + rewrite Hk. simpl. by rewrite <-app_assoc.
    + rewrite bool_decide_eq_false_2.
      2:{ intros Hnil. apply (f_equal length) in Hnil.
          rewrite length_omap_lookup in Hnil.
          - by destruct kept.
          - eapply Forall_impl; [done|]. intros p Hp. by apply lookup_lt_is_Some. }
      simpl. run. rewrite !lookup_fmap, Hc, Hpv. simpl. by rewrite <-app_assoc.
Qed.

End Verification.

(** * The properties on the sample tables *)

Ltac evaluate := vm_compute; reflexivity.

Lemma clean_data_critical_present_witness :
  let d := Sample.four_countries in
  ∃ filtered sorted mask cleaned,
    clean_stages Sample.strptime Sample.datetime_of_float d filtered sorted
      (boolean_index mask sorted) ∧
    heap (Sample.cleaned d) !! 1 = Some cleaned ∧
    (∀ name, name ∈ critical →
       ∃ c, columns cleaned !! name = Some c ∧
            Forall (λ x, cell_isna x = false) (cells c)) ∧
    length mask = len sorted ∧
    (∀ i, mask !! i = Some true ↔
          i < len sorted ∧
          ∀ name, name ∈ critical →
            ∃ x, column_cells sorted name !! i = Some x ∧ cell_isna x = false) ∧
    index cleaned = select mask (index sorted) ∧
    stdout (Sample.cleaned d) = stdout (Sample.holding d) ++
      clean_log (Z.of_nat (length (filter (λ b, b = false) mask))).
Proof.
  apply (clean_data_critical_present Sample.strptime Sample.datetime_of_float
           (Sample.holding Sample.four_countries) 0 Sample.four_countries).
  - reflexivity.
  - apply (bool_decide_unpack _). evaluate.
  - evaluate.
Defined.

Lemma clean_data_idempotent_witness :
  let d := Sample.four_countries in
  ∃ cleaned r2 st2,
    heap (Sample.cleaned d) !! 1 = Some cleaned ∧
    clean_data Sample.strptime Sample.datetime_of_float 1 (Sample.cleaned d)
      = (Returned r2, st2) ∧
    heap st2 !! r2 = Some cleaned ∧
    stdout st2 = stdout (Sample.cleaned d) ++ clean_log 0.
Proof.
  apply (clean_data_idempotent Sample.strptime Sample.datetime_of_float
           (Sample.holding Sample.four_countries) 0 Sample.four_countries).
  - reflexivity.
  - apply (bool_decide_unpack _). evaluate.
  - evaluate.
Defined.

Lemma clean_data_gap_fill_witness :
  ∃ d filtered sorted dropped cleaned,
    heap (Sample.holding Sample.four_countries) !! 0 = Some d ∧
    clean_stages Sample.strptime Sample.datetime_of_float d filtered sorted dropped ∧
    heap (Sample.cleaned Sample.four_countries) !! 1 = Some cleaned ∧
    index cleaned = index dropped ∧
    ∀ name c, columns dropped !! name = Some c →
      match c with
      | Float64 l =>
          columns cleaned !! name = Some (Float64 (bfill (ffill l))) ∧
          ((Exists present l ∧ Forall present (bfill (ffill l))) ∨
           (Forall (λ x, is_nan x = true) l ∧ bfill (ffill l) = l))
      | _ => columns cleaned !! name = Some c
      end.
Proof.
  apply (clean_data_gap_fill Sample.strptime Sample.datetime_of_float
           (Sample.holding Sample.four_countries) 0 1).
  evaluate.
Defined.

(** On the four-country table the vaccination percentage is missing in
    every kept row, and stays missing after the gap-fill. *)
Lemma clean_data_gap_fill_counterexample :
  clean_data Sample.strptime Sample.datetime_of_float 0
      (Sample.holding Sample.four_countries)
    = (Returned 1, Sample.cleaned Sample.four_countries) ∧
  ∃ cleaned,
    heap (Sample.cleaned Sample.four_countries) !! 1 = Some cleaned ∧
    ¬ (∀ name l, name ∉ critical → columns cleaned !! name = Some (Float64 l) →
         Forall present l).
Proof.
  split; [evaluate|]. eexists. split; [evaluate|].
  intros H. specialize (H "people_vaccinated_per_hundred" [NaN; NaN; NaN]).
  assert (Forall present [NaN; NaN; NaN]) as Hall.
  { apply H; [|evaluate]. unfold critical. rewrite !elem_of_cons, elem_of_nil.
    by intros [?|[?|[?|[?|?]]]]. }
  by apply Forall_cons in Hall as [? _].
Qed.

Lemma clean_data_allow_list_witness :
  ∃ cleaned location,
    heap (Sample.cleaned Sample.four_countries) !! 1 = Some cleaned ∧
    columns cleaned !! "location" = Some location ∧
    Forall allowed (cells location).
Proof.
  apply (clean_data_allow_list Sample.strptime Sample.datetime_of_float
           (Sample.holding Sample.four_countries) 0).
  evaluate.
Defined.

Lemma clean_data_sorted_witness :
  ∃ cleaned,
    heap (Sample.cleaned Sample.four_countries) !! 1 = Some cleaned ∧
    length (row_keys cleaned) = len cleaned ∧
    StronglySorted key_le (row_keys cleaned) ∧
    ∀ k, labels_with_key cleaned k `sublist_of` index Sample.four_countries.
Proof.
  apply (clean_data_sorted Sample.strptime Sample.datetime_of_float
           (Sample.holding Sample.four_countries) 0 Sample.four_countries).
  - reflexivity.
  - apply (bool_decide_unpack _). evaluate.
  - evaluate.
Defined.

(** India's first row takes Canada's ratio; in the other table the first
    row of the table has nothing before it and resolves to 0. *)
Lemma death_rate_zero_cases_witness :
  death_rate [Sample.num 2; Sample.num 0; Sample.num 1]
             [Sample.num 100; Sample.num 0; Sample.num 50] !! 1 = Some (Sample.num 2) ∧
  death_rate [Sample.num 0; Sample.num 1] [Sample.num 0; Sample.num 50] !! 0 = Some zero.
Proof.
  split.
  - destruct (death_rate_zero_cases (Sample.holding Sample.india_starts_at_zero) 0
                Sample.india_starts_at_zero
                [Sample.num 2; Sample.num 0; Sample.num 1]
                [Sample.num 100; Sample.num 0; Sample.num 50])
      as (st' & d' & _ & _ & _ & _ & H);
      [reflexivity | evaluate | evaluate | by eexists | by eexists |].
    destruct (H 1 (Sample.num 0) (Sample.num 0)) as (_ & _ & Hprev);
      [reflexivity..|].
    apply (Hprev 0); [lia | evaluate | reflexivity |]. intros k x ??. lia.
  - destruct (death_rate_zero_cases (Sample.holding Sample.starts_at_zero) 0
                Sample.starts_at_zero
                [Sample.num 0; Sample.num 1] [Sample.num 0; Sample.num 50])
      as (st' & d' & _ & _ & _ & _ & H);
      [reflexivity | evaluate | evaluate | by eexists | by eexists |].
    destruct (H 0 (Sample.num 0) (Sample.num 0)) as (_ & Hgap & _);
      [reflexivity..|].
    apply Hgap. intros k x ?. lia.
Defined.

(** Row 1 is the first date of India, without a case or a death, in a
    table that [clean_data] leaves as it is; its death rate is Canada's
    2 percent, not 0. *)
Lemma death_rate_first_date_counterexample :
  let d := Sample.india_starts_at_zero in
  (∃ st, clean_data Sample.strptime Sample.datetime_of_float 0 (Sample.holding d)
           = (Returned 1, st) ∧ heap st !! 1 = Some d) ∧
  column_cells d "location" = CObject <$> [Some "Canada"; Some "India"; Some "India"] ∧
  column_cells d "total_cases" !! 1 = Some (CFloat zero) ∧
  column_cells d "total_deaths" !! 1 = Some (CFloat zero) ∧
  ∃ st' d',
    calculate_and_plot_death_rate 0 (Sample.holding d) = (Returned (), st') ∧
    heap st' !! 0 = Some d' ∧
    column_cells d' "death_rate" !! 1 = Some (CFloat (Sample.num 2)) ∧
    Sample.num 2 ≠ zero.
Proof.
  split_and!.
  - eexists. split; evaluate.
  - evaluate.
  - evaluate.
  - evaluate.
  - eexists _, _. split_and!; [evaluate..|]. by vm_compute.
Qed.

Lemma death_rate_in_place_witness :
  let st := Sample.holding Sample.with_death_rate in
  let st' := (calculate_and_plot_death_rate 0 st).2 in
  ∃ d d' rate,
    heap st !! 0 = Some d ∧
    heap st' !! 0 = Some d' ∧
    (∀ r, r ≠ 0 → heap st' !! r = heap st !! r) ∧
    index d' = index d ∧
    columns d' !! "death_rate" = Some (Float64 rate) ∧
    (∀ name, name ≠ "death_rate" → columns d' !! name = columns d !! name) ∧
    ∀ st2, plot_cumulative_vaccinations 0 st' = (Returned (), st2) →
      ∃ fig, last (stdout st2) = Some (Shown fig) ∧
             fig_chart fig = Lineplot d' "date" "total_vaccinations" "location".
Proof.
  apply (death_rate_in_place (Sample.holding Sample.with_death_rate) 0).
  evaluate.
Defined.

(** A table that already has a column called death_rate: the call
    replaces its values. *)
Lemma death_rate_in_place_counterexample :
  let d := Sample.with_death_rate in
  ∃ st' d',
    calculate_and_plot_death_rate 0 (Sample.holding d) = (Returned (), st') ∧
    heap st' !! 0 = Some d' ∧
    is_Some (columns d !! "death_rate") ∧
    columns d' !! "death_rate" ≠ columns d !! "death_rate".
Proof.
  eexists _, _. split_and!; [evaluate..|by eexists|]. by vm_compute.
Qed.

Lemma empty_filter_skips_charts_witness :
  let main := main Sample.strptime Sample.datetime_of_float Sample.decode_utf8
                Sample.read_csv in
  let clean_data := clean_data Sample.strptime Sample.datetime_of_float in
  let st1 := (load_data_from_upload Sample.decode_utf8 Sample.read_csv
                Sample.upload_brazil initial).2 in
  (∀ s, heap s !! 0 = Some Sample.only_brazil →
     ∃ s' cleaned,
       clean_data 0 s = (Returned (length (heap s)), s') ∧
       heap s' !! length (heap s) = Some cleaned ∧
       len cleaned = 0 ∧
       (∀ name c, columns cleaned !! name = Some c → col_length c = 0)) ∧
  ∃ st' evs,
    main Sample.upload_brazil initial = (Returned (), st') ∧
    stdout st' = stdout st1 ++ evs ∧
    Forall (λ e, is_show e = false) evs ∧
    last evs = Some (Printed (nl +:+ "Cleaned data is empty. No plots can be generated.")).
Proof.
  apply (empty_filter_skips_charts Sample.strptime Sample.datetime_of_float
           Sample.decode_utf8 Sample.read_csv Sample.upload_brazil initial 0 _
           Sample.only_brazil (Object [Some "Brazil"; Some "Brazil"])).
  - evaluate.
  - evaluate.
  - evaluate.
  - by repeat constructor.
  - intros name. unfold critical. rewrite !elem_of_cons, elem_of_nil.
    intros [-> | [-> | [-> | [-> | []]]]]; by eexists.
Defined.

Lemma compare_vaccinated_population_latest_witness :
  let d := Sample.vaccinated in
  let st := Sample.holding d in
  ∃ ps,
    Forall (λ p, p < len d) ps ∧
    omap (column_cells d "location" !!.) ps = group_keys (column_cells d "location") ∧
    NoDup (omap (column_cells d "location" !!.) ps) ∧
    (∀ g, g ∈ column_cells d "location" → g ∈ omap (column_cells d "location" !!.) ps) ∧
    (∀ p, p ∈ ps → ∃ g, latest_of d g p) ∧
    let kept := filter (λ p, has_value d "people_vaccinated_per_hundred" p = true) ps in
    compare_vaccinated_population 0 st =
      (Returned (),
       {| heap := heap st;
          stdout := stdout st ++
            [Printed (nl +:+ "--- Comparing Vaccinated Population (%) ---");
             if decide (kept = [])
             then Printed "No vaccination data available for comparison after cleaning."
             else Shown (vaccination_figure (rows_at kept d))] |}).
Proof.
  apply (compare_vaccinated_population_latest (Sample.holding Sample.vaccinated) 0
           Sample.vaccinated).
  - reflexivity.
  - split_and!.
    + apply (bool_decide_unpack _). evaluate.
    + eexists. split; [evaluate|].
      repeat (apply Forall_cons; split;
                [unfold allowed; first [by left | by right; left | by right; right]|]).
      constructor.
    + eexists. evaluate.
    + intros name. unfold critical. rewrite !elem_of_cons, elem_of_nil.
      intros [-> | [-> | [-> | [-> | []]]]]; (eexists; split; [evaluate|]);
        by repeat constructor.
    + apply (bool_decide_unpack _). evaluate.
    + evaluate.
  - apply (bool_decide_unpack _). evaluate.
  - done.
  - by eexists.
Defined.

Example vaccinated_chart :
  ∃ st', compare_vaccinated_population 0 (Sample.holding Sample.vaccinated)
           = (Returned (), st') ∧
         last (stdout st') = Some (Shown (vaccination_figure (rows_at [0; 2] Sample.vaccinated))).
Proof. eexists. split; evaluate. Qed.

(** * Further properties of the code *)

(** ** Where a filled value comes from *)

Lemma ffill_from_lookup_present last l i x :
  l !! i = Some x → present x → ffill_from last l !! i = Some x.
Proof.
  revert last i. induction l as [|y l IH]; intros last i Hi Hx; [done|].
  destruct i as [|i]; simpl in *.
  - injection Hi as ->. unfold present in Hx. by rewrite Hx.
  - destruct (is_nan y); simpl; by apply IH.
Qed.

Lemma bfill_lookup_present l i x :
  l !! i = Some x → present x → bfill l !! i = Some x.
Proof.
  revert i. induction l as [|y l IH]; intros i Hi Hx; [done|].
  destruct i as [|i]; simpl in *.
  - injection Hi as ->. unfold present in Hx. by rewrite Hx.
  - by apply IH.
Qed.

(** Gaps from row [i] up to a value at row [j]: row [i] takes the value
    of row [j]. *)
Lemma bfill_lookup_next l i j v :
  i < j → l !! j = Some v → present v →
  (∀ k, i ≤ k → k < j → l !! k = Some NaN) →
  bfill l !! i = Some v.
Proof.
  revert i j. induction l as [|y l IH]; intros i j Hij Hj Hv H; [done|].
  destruct j as [|j]; [lia|]. simpl in Hj.
  destruct i as [|i]; simpl.
  - pose proof (H 0 ltac:(lia) ltac:(lia)) as [= ->]. simpl. f_equal.
    destruct j as [|j].
    + rewrite <-head_lookup in Hj. destruct l as [|z l]; [done|].
      simpl in *. injection Hj as ->. unfold present in Hv. by rewrite Hv.
    + assert (bfill l !! 0 = Some v) as H0.
      { apply (IH 0 (S j)); [lia|done..|]. intros k ??. apply (H (S k)); lia. }
      destruct (bfill l); [done|]. by injection H0.
  - destruct j as [|j]; [lia|]. apply (IH i (S j)); [lia|done..|].
    intros k ??. apply (H (S k)); lia.
Qed.

(** X5. The gap-fill of one numeric column, cell by cell: a cell that
    holds a value keeps it; a missing cell takes the nearest value above
    it; a missing cell with no value above it takes the nearest value
    below it. *)
Theorem fill_numeric_cell l i x :
  l !! i = Some x →
  ∃ l',
    fill_numeric (Float64 l) = Float64 l' ∧ length l' = length l ∧
    (present x → l' !! i = Some x) ∧
    (∀ j v, j < i → l !! j = Some v → present v →
       (∀ k, j < k → k ≤ i → l !! k = Some NaN) → l' !! i = Some v) ∧
    (∀ j v, i < j → l !! j = Some v → present v →
       (∀ k, k < j → l !! k = Some NaN) → l' !! i = Some v).
Proof.
  intros Hi. exists (bfill (ffill l)). split; [done|]. split.
  { unfold ffill. by rewrite length_bfill, length_ffill_from. }
  split_and!.
  - intros Hx. apply bfill_lookup_present; [|done].
    by apply ffill_from_lookup_present.
  - intros j v Hji Hj Hv Hgap. apply bfill_lookup_present; [|done].
    by apply (ffill_from_lookup_prev _ _ i j v).
  - intros j v Hij Hj Hv Hgap. apply (bfill_lookup_next _ i j v); [done| |done|].
    + by apply ffill_from_lookup_present.
    + intros k _ Hk. apply ffill_from_lookup_gap. intros k' Hk'. apply Hgap. lia.
Qed.

(** ** The death rate, row by row *)

Lemma length_death_rate td tc :
  length (death_rate td tc) = length td `min` length tc.
Proof.
  unfold death_rate, fillna, ffill, replace_inf, death_rate_raw, mul_scalar, truediv.
  by rewrite length_fmap, length_ffill_from, !length_fmap, length_zip_with.
Qed.

(** X7. The death-rate column has one value per row, and a row whose own
    ratio is a finite number keeps exactly that ratio: the replacement of
    the infinities and the two fills change the other rows only. *)
Theorem death_rate_finite_ratio td tc :
  length (death_rate td tc) = length td `min` length tc ∧
  ∀ i v, death_rate_raw td tc !! i = Some v → is_finite v = true →
         death_rate td tc !! i = Some v.
Proof.
  split; [apply length_death_rate|]. intros i v Hi Hv. unfold death_rate.
  rewrite (lookup_fillna _ _ _ v); [by destruct v|].
  apply ffill_from_lookup_present; [|by destruct v].
  by apply replace_inf_finite.
Qed.

(** *** Signs *)

Lemma binary_round_aux_sign s m e l :
  match binary_round_aux prec emax s m e l with
  | S754_zero s' | S754_infinity s' | S754_finite s' _ _ => s' = s
  | S754_nan => True
  end.
Proof.
  unfold binary_round_aux.
  destruct (shr_fexp _ _ m e l) as [mrs' e'].
  destruct (shr_fexp _ _ _ e' loc_Exact) as [mrs'' e''].
  destruct (shr_m mrs''); [done| |done]. by destruct (_ <=? _)%Z.
Qed.

(** A quotient of two numbers that are not below zero is below zero only
    when it is minus infinity (a positive number over the negative
    zero). *)
Lemma div_sign x y :
  is_negative x = false → is_negative y = false →
  match Float64.div x y with S754_finite true _ _ => False | _ => True end.
Proof.
  destruct x as [sx|sx| |sx mx ex], y as [sy|sy| |sy my ey]; simpl; try done;
    intros Hx Hy; try (by destruct sx); try (by destruct sy).
  destruct sx, sy; try done.
  destruct (SFdiv_core_binary _ _ _ _ _ _) as [[mz ez] lz]. simpl.
  pose proof (binary_round_aux_sign false mz ez lz) as H.
  by destruct (binary_round_aux _ _ _ _ _ _) as [| | |[|]].
Qed.

Lemma mul_hundred_sign x :
  match x with S754_finite true _ _ => False | _ => True end →
  match Float64.mul x (Float64.of_Z 100) with S754_finite true _ _ => False | _ => True end.
Proof.
  change (Float64.of_Z 100) with (S754_finite false 7036874417766400 (-46)).
  destruct x as [sx|sx| |sx mx ex]; simpl; try done.
  intros Hx. destruct sx; [done|]. simpl.
  pose proof (binary_round_aux_sign false (Z.pos (mx * 7036874417766400)) (ex + -46)
                loc_Exact) as H.
  by destruct (binary_round_aux _ _ _ _ _ _) as [| | |[|]].
Qed.

Lemma ffill_from_Forall (P : float → Prop) last l :
  P last → Forall P l → Forall P (ffill_from last l).
Proof.
  intros Hlast Hl. revert last Hlast.
  induction Hl as [|x l Hx _ IH]; intros last Hlast; simpl; [constructor|].
  destruct (is_nan x); constructor; auto.
Qed.

(** X8. When no count is below zero, no death rate is below zero. *)
Theorem death_rate_nonnegative td tc :
  Forall (λ x, is_negative x = false) td →
  Forall (λ x, is_negative x = false) tc →
  Forall (λ x, is_negative x = false) (death_rate td tc).
Proof.
  intros Htd Htc.
  assert (Forall (λ x, match x with S754_finite true _ _ => False | _ => True end)
            (death_rate_raw td tc)) as Hraw.
  { unfold death_rate_raw, mul_scalar, truediv. apply Forall_fmap.
    revert tc Htc. induction Htd as [|x td Hx _ IH]; intros tc Htc; simpl; [constructor|].
    destruct Htc as [|y tc Hy Htc]; constructor; [|by apply IH].
    simpl. by apply mul_hundred_sign, div_sign. }
  unfold death_rate, fillna. apply Forall_fmap.
  eapply Forall_impl.
  - apply (ffill_from_Forall (λ x, is_negative x = false)); [done|].
    unfold replace_inf. apply Forall_fmap.
    eapply Forall_impl; [exact Hraw|]. intros x Hx. simpl.
    destruct x as [| | |[|]]; done.
  - intros x Hx. simpl. by destruct (is_nan x).
Qed.

(** ** Sequencing *)

Lemma bind_Returned {A B : Type} (m : M A) (k : A → M B) st a st' :
  m st = (Returned a, st') → (m ≫= k) st = k a st'.
Proof. unfold mbind, M_bind, bind. by intros ->. Qed.

Lemma bind_Raised {A B : Type} (m : M A) (k : A → M B) st e st' :
  m st = (Raised e, st') → (m ≫= k) st = (Raised e, st').
Proof. unfold mbind, M_bind, bind. by intros ->. Qed.

Lemma figures_app evs1 evs2 : figures (evs1 ++ evs2) = figures evs1 ++ figures evs2.
Proof. apply omap_app. Qed.

Lemma figures_not_shown evs : Forall (λ e, is_show e = false) evs → figures evs = [].
Proof.
  induction 1 as [|e evs He _ IH]; [done|]. unfold figures in *. csimpl.
  rewrite IH. by destruct e.
Qed.

(** ** Rows through the stages *)

Lemma sort_by_zip {K A B : Type} (leb : K → K → bool) keys (a : list A) (b : list B) :
  length a = length b →
  sort_by leb keys (zip a b) = zip (sort_by leb keys a) (sort_by leb keys b).
Proof.
  intros Hlen.
  rewrite <-(fst_zip a b) at 2 by lia. rewrite <-(snd_zip a b) at 3 by lia.
  rewrite !sort_by_fmap. symmetry. apply zip_fst_snd.
Qed.

Lemma NoDup_submseteq_inv {A : Type} (l k : list A) : l ⊆+ k → NoDup k → NoDup l.
Proof.
  intros (l2 & Hs & Hp)%submseteq_sublist_l Hnd.
  apply (sublist_NoDup l l2); [by rewrite Hp|done].
Qed.

Lemma filter_all {A : Type} (P : A → Prop) `{!∀ x, Decision (P x)} (l : list A) :
  Forall P l → filter P l = l.
Proof.
  induction 1 as [|x l Hx _ IH]; [done|]. by rewrite filter_cons_True, IH.
Qed.

Lemma filter_none {A : Type} (P : A → Prop) `{!∀ x, Decision (P x)} (l : list A) :
  Forall (λ x, ¬ P x) l → filter P l = [].
Proof.
  induction 1 as [|x l Hx _ IH]; [done|]. by rewrite filter_cons_False.
Qed.

Lemma select_submseteq {A : Type} mask (l : list A) : select mask l ⊆+ l.
Proof. apply sublist_submseteq, select_sublist. Qed.

(** ** The death rate: errors and repetition *)

(** X9. When [calculate_and_plot_death_rate] raises, no figure has been
    shown.  Either a count column is absent ([KeyError]) or not numeric
    ([TypeError]), and then the table is untouched; or the counts are
    numeric and the chart cannot be drawn for lack of the date or the
    location column ([ValueError]), and then the death_rate column has
    already been assigned into the caller's table. *)
Theorem calculate_and_plot_death_rate_raises st df d e st' :
  heap st !! df = Some d →
  calculate_and_plot_death_rate df st = (Raised e, st') →
  stdout st' = stdout st ++ [Printed (nl +:+ "--- Calculating and Plotting Death Rate ---")] ∧
  ((heap st' = heap st ∧
    ∃ name, name ∈ ["total_deaths"; "total_cases"] ∧
      match columns d !! name with
      | None => e = KeyError name
      | Some c => dtype c ≠ "float64" ∧ ∃ msg, e = TypeError msg
      end)
   ∨
   (∃ td tc msg,
      columns d !! "total_deaths" = Some (Float64 td) ∧
      columns d !! "total_cases" = Some (Float64 tc) ∧
      (columns d !! "date" = None ∨ columns d !! "location" = None) ∧
      e = ValueError msg ∧
      heap st' = <[df := setitem d "death_rate" (Float64 (death_rate td tc))]> (heap st))).
Proof.
  intros Hd. pose proof (lookup_lt_Some _ _ _ Hd) as Hlt.
  unfold calculate_and_plot_death_rate, lineplot, show, resolve, getitem, as_float64.
  run. rewrite Hd.
  destruct (columns d !! "total_deaths") as [[td| |]|] eqn:Htd; simpl;
    try (intros [= <- <-]; split; [done|]; left; split; [done|];
         exists "total_deaths"; rewrite Htd; split; [set_solver|]; by eauto).
  destruct (columns d !! "total_cases") as [[tc| |]|] eqn:Htc; simpl;
    try (intros [= <- <-]; split; [done|]; left; split; [done|];
         exists "total_cases"; rewrite Htc; split; [set_solver|]; by eauto).
  repeat (rewrite list_lookup_insert_eq by (by rewrite ?length_insert); simpl).
  rewrite !insert_insert_eq, !list_insert_insert_eq.
  rewrite (lookup_insert_ne _ "death_rate" "date") by done.
  rewrite (lookup_insert_ne _ "death_rate" "location") by done.
  rewrite lookup_insert_eq.
  assert (setitem (setitem (setitem d "death_rate" (Float64 (death_rate_raw td tc)))
                     "death_rate" (Float64 (replace_inf (death_rate_raw td tc))))
            "death_rate" (Float64 (fillna zero (ffill (replace_inf (death_rate_raw td tc)))))
          = setitem d "death_rate" (Float64 (death_rate td tc))) as ->.
  { unfold death_rate, setitem. simpl. by rewrite !insert_insert_eq. }
  destruct (columns d !! "date") as [dt|] eqn:Hdt; unfold ret; simpl.
  - destruct (columns d !! "location") as [lc|] eqn:Hlc; simpl; [done|].
    intros [= <- <-]. simpl. split; [done|]. right. exists td, tc. eexists.
    split_and!; [done|done|by right|done|done].
  - intros [= <- <-]. simpl. split; [done|]. right. exists td, tc. eexists.
    split_and!; [done|done|by left|done|done].
Qed.

(** X10. Computing the death rate a second time changes nothing in the
    store: the second call returns normally, assigns the same column and
    shows the same figure again. *)
Theorem calculate_and_plot_death_rate_twice st df st1 :
  calculate_and_plot_death_rate df st = (Returned (), st1) →
  ∃ fig,
    last (stdout st1) = Some (Shown fig) ∧
    calculate_and_plot_death_rate df st1 =
      (Returned (),
       {| heap := heap st1;
          stdout := stdout st1 ++
            [Printed (nl +:+ "--- Calculating and Plotting Death Rate ---");
             Shown fig] |}).
Proof.
  intros (d & td & tc & Hd & Htd & Htc & Hdt & Hlc & ->)
    %calculate_and_plot_death_rate_Returned.
  pose proof (lookup_lt_Some _ _ _ Hd) as Hlt.
  set (d' := setitem d "death_rate" (Float64 (death_rate td tc))).
  exists (death_rate_figure d'). split.
  { simpl. by rewrite last_app. }
  apply calculate_and_plot_death_rate_Returned. exists d', td, tc. simpl.
  assert (setitem d' "death_rate" (Float64 (death_rate td tc)) = d') as Hsame.
  { unfold d', setitem. simpl. by rewrite insert_insert_eq. }
  split_and!.
  - by apply list_lookup_insert_eq.
  - by rewrite lookup_insert_ne.
  - by rewrite lookup_insert_ne.
  - by rewrite lookup_insert_ne.
  - by rewrite lookup_insert_ne.
  - by rewrite Hsame, list_insert_insert_eq.
Qed.

(** ** The line charts *)

Lemma plot_over_time_outcome banner y title ylabel df st d :
  heap st !! df = Some d →
  ∃ r evs,
    plot_over_time banner y title ylabel df st =
      (r, {| heap := heap st; stdout := stdout st ++ evs |}) ∧
    ((∀ name, name ∈ ["date"; y; "location"] → is_Some (columns d !! name)) →
     r = Returned () ∧ figures evs = [line_figure d y title ylabel]) ∧
    (∀ name, name ∈ ["date"; y; "location"] → columns d !! name = None →
     (∃ msg, r = Raised (ValueError msg)) ∧ figures evs = []).
Proof.
  intros Hd. unfold plot_over_time, lineplot, show, resolve. run. rewrite Hd.
  destruct (columns d !! "date") as [dt|] eqn:Hdt; unfold ret; simpl.
  2:{ eexists _, [_]. split; [done|]. split.
      - intros Hall. destruct (Hall "date") as [? ?]; [set_solver|congruence].
      - intros; split; [by eexists|done]. }
  destruct (columns d !! y) as [cy|] eqn:Hy; simpl.
  2:{ eexists _, [_]. split; [done|]. split.
      - intros Hall. destruct (Hall y) as [? ?]; [set_solver|congruence].
      - intros; split; [by eexists|done]. }
  destruct (columns d !! "location") as [lc|] eqn:Hlc; simpl.
  2:{ eexists _, [_]. split; [done|]. split.
      - intros Hall. destruct (Hall "location") as [? ?]; [set_solver|congruence].
      - intros; split; [by eexists|done]. }
  eexists _, [_; _]. split; [by rewrite <-app_assoc|]. split; [done|].
  intros name Hname Hnone. exfalso.
  rewrite !elem_of_cons, elem_of_nil in Hname.
  destruct Hname as [-> | [-> | [-> | []]]]; congruence.
Qed.

(** X6. Each of the four line charts over time reads the caller's table
    and changes no object.  With the date, the location and its own
    column in the table it returns having shown exactly one figure, the
    table itself drawn by date and coloured by location; when one of the
    three is absent it raises a [ValueError] and shows nothing. *)
Theorem line_chart_outcome y title ylabel plot st df d :
  (y, title, ylabel, plot) ∈ line_charts →
  heap st !! df = Some d →
  ∃ r evs,
    plot df st = (r, {| heap := heap st; stdout := stdout st ++ evs |}) ∧
    ((∀ name, name ∈ ["date"; y; "location"] → is_Some (columns d !! name)) →
     r = Returned () ∧ figures evs = [line_figure d y title ylabel]) ∧
    (∀ name, name ∈ ["date"; y; "location"] → columns d !! name = None →
     (∃ msg, r = Raised (ValueError msg)) ∧ figures evs = []).
Proof.
  unfold line_charts. rewrite !elem_of_cons, elem_of_nil.
  intros [[= -> -> -> ->] | [[= -> -> -> ->] | [[= -> -> -> ->] | [[= -> -> -> ->] | []]]]] Hd;
    by apply plot_over_time_outcome.
Qed.

(** ** The vaccination comparison: what is charted *)

(** The run of [compare_vaccinated_population] on a cleaned table: the
    rows [ps] hold the latest date of each location, in ascending order
    of location. *)
Lemma compare_vaccinated_population_run st df d pv :
  heap st !! df = Some d →
  cleaned_table d → NoDup (index d) →
  columns d !! "people_vaccinated_per_hundred" = Some pv →
  ∃ ps,
    Forall (λ p, p < len d) ps ∧
    omap (column_cells d "location" !!.) ps = group_keys (column_cells d "location") ∧
    compare_vaccinated_population df st =
      (Returned (),
       {| heap := heap st;
          stdout := stdout st ++
            [Printed (nl +:+ "--- Comparing Vaccinated Population (%) ---");
             if decide (filter (λ p, has_value d "people_vaccinated_per_hundred" p = true) ps
                        = [])
             then Printed "No vaccination data available for comparison after cleaning."
             else Shown (vaccination_figure
                           (rows_at (filter (λ p, has_value d "people_vaccinated_per_hundred" p
                                                  = true) ps) d))] |}).
Proof.
  intros Hd Hct Hnd Hpv.
  destruct (groupby_idxmax_latest d Hct) as (labels & ps & Hlabels & Hidx & Hlatest).
  pose proof Hct as (Hwf & (c & Hc & Hall) & _).
  assert (Forall (λ p, p < len d) ps) as Hps.
  { apply Forall_forall. intros p Hp.
    apply list_elem_of_lookup in Hp as [i Hi].
    destruct (Forall2_lookup_r _ _ _ _ _ Hidx Hi) as (lab & _ & Hlab).
    by apply lookup_lt_Some in Hlab. }
  exists ps. split_and!; [done| |].
  { apply Forall2_omap_lookup. eapply Forall2_impl; [done|]. by intros g p [? _]. }
  set (kept := filter _ ps).
  unfold compare_vaccinated_population. run. rewrite Hd, Hlabels. simpl.
  rewrite (loc_rows_at labels ps d) by done.
  unfold dropna, notna_all, getitem.
  assert (columns (rows_at ps d) !! "people_vaccinated_per_hundred"
          = Some (col_apply (λ _ l, omap (l !!.) ps) pv)) as ->.
  { simpl. by rewrite lookup_fmap, Hpv. }
  simpl.
  rewrite (notna_rows_at ps d "people_vaccinated_per_hundred" pv) by
    (by rewrite ?(wf_lookup _ _ _ Hwf Hpv)).
  rewrite zip_with_andb_true.
  2:{ rewrite length_fmap, length_omap_lookup; [done|].
      eapply Forall_impl; [done|]. intros p Hp. by apply lookup_lt_is_Some. }
  rewrite boolean_index_rows_at, select_fmap_filter by done. fold kept.
  assert (Forall (λ p, p < len d) kept) as Hkept.
  { apply Forall_forall. intros p [_ Hp]%list_elem_of_filter.
    rewrite Forall_forall in Hps. by apply Hps. }
  unfold empty, barplot, show, resolve. simpl.
  rewrite (bool_decide_eq_false_2 (_ = ∅)).
  2:{ intros Hemp. apply (f_equal (.!! "people_vaccinated_per_hundred")) in Hemp.
      by rewrite lookup_fmap, Hpv, lookup_empty in Hemp. }
  rewrite orb_false_r.
  destruct (decide (kept = [])) as [Hk|Hk].
  + rewrite Hk. simpl. by rewrite <-app_assoc.
  + rewrite bool_decide_eq_false_2.
    2:{ intros Hnil. apply (f_equal length) in Hnil.
        rewrite length_omap_lookup in Hnil.
        - by destruct kept.
        - eapply Forall_impl; [done|]. intros p Hp. by apply lookup_lt_is_Some. }
    simpl. run. rewrite !lookup_fmap, Hc, Hpv. simpl. by rewrite <-app_assoc.
Qed.

Lemma has_value_float d name l p :
  columns d !! name = Some (Float64 l) →
  has_value d name p = from_option (λ x, negb (is_nan x)) false (l !! p).
Proof.
  intros Hc. unfold has_value. rewrite (column_cells_lookup _ _ _ Hc). simpl.
  rewrite list_lookup_fmap. by destruct (l !! p).
Qed.

(** X12. On a cleaned table whose vaccination percentage is numeric, the
    comparison is all or nothing.  The gap-fill has left the column
    either complete or without any value: in the first case the bar
    chart has one bar for every location of the table, in the second the
    message is printed.  No location is dropped on its own. *)
Theorem compare_vaccinated_population_all_or_none st df d l :
  heap st !! df = Some d →
  cleaned_table d → NoDup (index d) →
  columns d !! "people_vaccinated_per_hundred" = Some (Float64 l) →
  ∃ ev,
    compare_vaccinated_population df st =
      (Returned (),
       {| heap := heap st;
          stdout := stdout st ++
            [Printed (nl +:+ "--- Comparing Vaccinated Population (%) ---"); ev] |}) ∧
    ((Exists present l ∧ Forall present l ∧
      ∃ latest, ev = Shown (vaccination_figure latest) ∧
                column_cells latest "location" = group_keys (column_cells d "location") ∧
                Forall (λ x, cell_isna x = false)
                  (column_cells latest "people_vaccinated_per_hundred"))
     ∨
     (Forall (λ x, is_nan x = true) l ∧
      ev = Printed "No vaccination data available for comparison after cleaning.")).
Proof.
  intros Hd Hct Hnd Hpv.
  destruct (compare_vaccinated_population_run st df d _ Hd Hct Hnd Hpv)
    as (ps & Hps & Hkeys & Hrun).
  pose proof Hct as (Hwf & (c & Hc & Hall) & _ & _ & _ & Hfill).
  assert (bfill (ffill l) = l) as Hl.
  { apply (f_equal (λ x, columns x !! "people_vaccinated_per_hundred")) in Hfill.
    rewrite lookup_fill_frame, Hpv in Hfill. simpl in Hfill. by injection Hfill. }
  pose proof (wf_lookup _ _ _ Hwf Hpv) as Hlen. simpl in Hlen.
  eexists. split; [exact Hrun|].
  set (kept := filter _ ps).
  destruct (bfill_ffill_cases l) as [[Hex Hall']|[Hnan _]].
  - left. rewrite Hl in Hall'. split; [done|]. split; [done|].
    assert (kept = ps) as ->.
    { unfold kept. apply filter_all. eapply Forall_impl; [exact Hps|].
      intros p Hp. simpl in Hp |- *. rewrite (has_value_float _ _ _ _ Hpv).
      destruct (lookup_lt_is_Some_2 l p) as [x Hx]; [lia|]. rewrite Hx. simpl.
      rewrite Forall_forall in Hall'. unfold present in Hall'.
      rewrite Hall'; [done|]. by eapply list_elem_of_lookup_2. }
    assert (ps ≠ []) as Hne.
    { intros ->. simpl in Hkeys.
      apply Exists_exists in Hex as (x & Hx & _).
      apply list_elem_of_lookup in Hx as [i Hi]. apply lookup_lt_Some in Hi.
      pose proof (wf_column_cells _ _ _ Hwf Hc) as Hlc.
      destruct (lookup_lt_is_Some_2 (column_cells d "location") i) as [g Hg]; [lia|].
      assert (g ∈ group_keys (column_cells d "location")) as Hin.
      { apply elem_of_group_keys. split; [by eapply list_elem_of_lookup_2|].
        apply allowed_present. rewrite (column_cells_lookup _ _ _ Hc) in Hg.
        rewrite Forall_forall in Hall. apply Hall. by eapply list_elem_of_lookup_2. }
      rewrite <-Hkeys in Hin. by apply elem_of_nil in Hin. }
    rewrite decide_False by done. eexists. split; [done|].
    rewrite !column_cells_rows_at. split; [done|].
    apply Forall_forall. intros x (p & Hp & Hx)%list_elem_of_omap.
    rewrite (column_cells_lookup _ _ _ Hpv) in Hx. simpl in Hx.
    rewrite list_lookup_fmap in Hx. apply fmap_Some in Hx as (y & Hy & ->). simpl.
    rewrite Forall_forall in Hall'. apply Hall'. by eapply list_elem_of_lookup_2.
  - right. split; [done|].
    assert (kept = []) as ->; [|done].
    unfold kept. apply filter_none. eapply Forall_impl; [exact Hps|].
    intros p Hp. simpl in Hp |- *. rewrite (has_value_float _ _ _ _ Hpv).
    destruct (lookup_lt_is_Some_2 l p) as [x Hx]; [lia|]. rewrite Hx. simpl.
    rewrite Forall_forall in Hnan. rewrite Hnan; [done|]. by eapply list_elem_of_lookup_2.
Qed.

(** X13. Without the people_vaccinated_per_hundred column the comparison
    does not print its no-data message: the row removal raises a
    [KeyError], after the banner, and nothing is shown. *)
Theorem compare_vaccinated_population_missing_column st df d :
  heap st !! df = Some d →
  cleaned_table d →
  columns d !! "people_vaccinated_per_hundred" = None →
  ∃ key,
    compare_vaccinated_population df st =
      (Raised (KeyError key),
       {| heap := heap st;
          stdout := stdout st ++
            [Printed (nl +:+ "--- Comparing Vaccinated Population (%) ---")] |}).
Proof.
  intros Hd Hct Hnone.
  destruct (groupby_idxmax_latest d Hct) as (labels & ps & Hlabels & _).
  unfold compare_vaccinated_population. run. rewrite Hd, Hlabels. simpl.
  unfold dropna, notna_all, getitem. simpl. rewrite lookup_fmap, Hnone. by eexists.
Qed.

(** ** Exploration *)

(** X1. [explore_data] only reads: on any table it returns normally,
    changes no object and shows no figure.  The preview it prints holds
    the first five rows (all of them when there are fewer), and the
    count of missing values it prints for a column is at most the number
    of rows and is 0 exactly when the column has no missing cell. *)
Theorem explore_data_read_only st df d :
  heap st !! df = Some d → wf d →
  ∃ evs,
    explore_data df st = (Returned (), {| heap := heap st; stdout := stdout st ++ evs |}) ∧
    figures evs = [] ∧
    PrintFrame (head d) ∈ evs ∧ PrintNullCounts (null_counts d) ∈ evs ∧
    wf (head d) ∧ len (head d) = len d `min` 5 ∧
    ∀ name c, columns d !! name = Some c →
      ∃ n, null_counts d !! name = Some n ∧ n ≤ len d ∧
           (n = 0 ↔ Forall (λ x, cell_isna x = false) (cells c)).
Proof.
  intros Hd Hwf. unfold explore_data. run. rewrite Hd. simpl.
  eexists. rewrite <-!app_assoc. simpl. split; [done|]. split; [done|].
  split_and!.
  - set_solver.
  - set_solver.
  - intros name c. simpl. rewrite lookup_fmap. intros (c0 & Hc0 & ->)%fmap_Some.
    pose proof (wf_lookup _ _ _ Hwf Hc0) as Hlen. unfold len in *. simpl.
    destruct c0; simpl in *; rewrite !length_take; lia.
  - unfold len. simpl. rewrite length_take. lia.
  - intros name c Hc. unfold null_counts. rewrite lookup_fmap, Hc. simpl.
    eexists. split; [done|]. split.
    + rewrite <-(wf_lookup _ _ _ Hwf Hc), col_length_cells. apply length_filter.
    + rewrite length_zero_iff_nil. split.
      * intros Hnil. apply Forall_forall. intros x Hx.
        destruct (cell_isna x) eqn:E; [|done].
        assert (x ∈ filter (λ x, cell_isna x = true) (cells c)) as Hin
          by by apply list_elem_of_filter.
        rewrite Hnil in Hin. by apply elem_of_nil in Hin.
      * intros Hall. apply filter_none. eapply Forall_impl; [exact Hall|].
        simpl. intros x ->. done.
Qed.

(** ** The chart calls of the driver *)

Lemma plot_over_time_run banner y title ylabel df st d :
  heap st !! df = Some d →
  is_Some (columns d !! "date") → is_Some (columns d !! y) →
  is_Some (columns d !! "location") →
  plot_over_time banner y title ylabel df st =
    (Returned (),
     {| heap := heap st;
        stdout := stdout st ++ [Printed banner; Shown (line_figure d y title ylabel)] |}).
Proof. intros. apply plot_over_time_Returned. by exists d. Qed.

Lemma plot_over_time_missing banner y title ylabel df st d :
  heap st !! df = Some d →
  is_Some (columns d !! "date") → columns d !! y = None →
  plot_over_time banner y title ylabel df st =
    (Raised (ValueError ("Could not interpret value `" +:+ y +:+ "`")),
     {| heap := heap st; stdout := stdout st ++ [Printed banner] |}).
Proof.
  intros Hd [dt Hdt] Hy. unfold plot_over_time, lineplot, show, resolve. run.
  rewrite Hd, Hdt. simpl. by rewrite Hy.
Qed.

(** The death-rate column leaves a cleaned table cleaned. *)
Lemma cleaned_table_death_rate d td tc :
  cleaned_table d →
  columns d !! "total_deaths" = Some (Float64 td) →
  columns d !! "total_cases" = Some (Float64 tc) →
  cleaned_table (setitem d "death_rate" (Float64 (death_rate td tc))).
Proof.
  intros (Hwf & (c & Hc & Hall) & (l & Hl) & Hcrit & Hsorted & Hfill) Htd Htc.
  split_and!.
  - apply wf_setitem; [done|]. simpl. rewrite length_death_rate.
    pose proof (wf_lookup _ _ _ Hwf Htd). pose proof (wf_lookup _ _ _ Hwf Htc).
    simpl in *. lia.
  - exists c. simpl. by rewrite lookup_insert_ne.
  - exists l. simpl. by rewrite lookup_insert_ne.
  - intros name Hname. destruct (Hcrit name Hname) as (c' & Hc' & Hna).
    exists c'. simpl. rewrite lookup_insert_ne; [done|].
    intros <-. unfold critical in Hname. rewrite !elem_of_cons, elem_of_nil in Hname.
    by destruct Hname as [?|[?|[?|[?|[]]]]].
  - unfold row_keys. by rewrite !column_cells_setitem_ne.
  - apply frame_eq; [done|]. simpl. rewrite fmap_insert. simpl.
    change (fill_numeric <$> columns d) with (columns (fill_frame d)). rewrite Hfill.
    do 2 f_equal. unfold ffill. rewrite ffill_from_id, bfill_id; [done|..];
      (eapply Forall_impl; [apply fillna_ffill_replace_inf_finite|]);
      intros x Hx; by destruct x.
Qed.

(** X11. Adding the death rate keeps a cleaned table cleaned: after
    [calculate_and_plot_death_rate] the caller's table still has one
    cell per row in every column, the new column included, the same
    rows in the same order, and no gap for the gap-fill to close, so the
    charts and the comparison that follow work on a cleaned table. *)
Theorem death_rate_keeps_cleaned st df d st' :
  heap st !! df = Some d →
  cleaned_table d →
  calculate_and_plot_death_rate df st = (Returned (), st') →
  ∃ d' rate,
    heap st' !! df = Some d' ∧
    cleaned_table d' ∧
    row_keys d' = row_keys d ∧
    columns d' !! "death_rate" = Some (Float64 rate) ∧
    length rate = len d' ∧
    Forall present rate.
Proof.
  intros Hd Hct (d0 & td & tc & Hd0 & Htd & Htc & _ & _ & ->)
    %calculate_and_plot_death_rate_Returned.
  assert (d0 = d) as -> by congruence.
  pose proof (lookup_lt_Some _ _ _ Hd) as Hlt.
  pose proof (cleaned_table_death_rate d td tc Hct Htd Htc) as Hct'.
  eexists _, (death_rate td tc). split_and!.
  - simpl. by apply list_lookup_insert_eq.
  - done.
  - unfold row_keys. by rewrite !column_cells_setitem_ne.
  - simpl. apply lookup_insert_eq.
  - destruct Hct' as (Hwf & _).
    apply (wf_lookup _ "death_rate" (Float64 (death_rate td tc)) Hwf).
    simpl. apply lookup_insert_eq.
  - eapply Forall_impl; [apply fillna_ffill_replace_inf_finite|].
    intros x Hx. by destruct x.
Qed.

Lemma deref_run r st d : heap st !! r = Some d → deref r st = (Returned d, st).
Proof. intros H. unfold deref. by rewrite H. Qed.


(** ** Cleaning and the driver *)

Section Pipeline.
Context (strptime : list (option string) → string → exn + datetime).
Context (datetime_of_float : float → exn + datetime).
Context (decode_utf8 : bytes → exn + string).
Context (read_csv : string → exn + DataFrame).

Local Abbreviation to_datetime := (Script.to_datetime strptime datetime_of_float).
Local Abbreviation clean_data := (Script.clean_data strptime datetime_of_float).
Local Abbreviation clean_stages := (clean_stages strptime datetime_of_float).
Local Abbreviation load_data_from_upload :=
  (Script.load_data_from_upload decode_utf8 read_csv).
Local Abbreviation main := (Script.main strptime datetime_of_float decode_utf8 read_csv).

(** A column other than the date goes through the filter, the sort and
    the row removal; the row labels go the same way. *)
Lemma clean_stages_column d filtered sorted dropped :
  wf d → clean_stages d filtered sorted dropped →
  ∃ m keys mask,
    length m = len d ∧
    length keys = length (select m (index d)) ∧
    length mask = length (select m (index d)) ∧
    index dropped = select mask (sort_by key_leb keys (select m (index d))) ∧
    ∀ name, name ≠ "date" →
      columns dropped !! name =
        (λ c, col_apply (λ _, select mask)
                (col_apply (λ _, sort_by key_leb keys)
                   (col_apply (λ _, select m) c))) <$> columns d !! name.
Proof.
  intros Hwf Hst.
  destruct (clean_stages_wf _ _ _ _ _ _ Hwf Hst) as (_ & Hwfs & _).
  apply clean_stages_inv in Hst
    as (location & date0 & date & mask & Hl & Hd0 & -> & Hdate & -> & Hmask & ->).
  set (m := isin countries_of_interest location) in *.
  set (keys := zip _ _) in *.
  exists m, keys, mask. split_and!.
  - unfold m. rewrite length_isin. by apply (wf_lookup d "location").
  - by eapply length_sort_keys.
  - rewrite (length_notna_all _ _ _ Hwfs Hmask). unfold len. simpl.
    apply length_sort_by. by eapply length_sort_keys.
  - done.
  - intros name Hname. simpl.
    rewrite !lookup_fmap, lookup_insert_ne, lookup_fmap by done.
    by destruct (columns d !! name).
Qed.

(** X2. The table returned by [clean_data] has exactly the columns of its
    input, each as long as the table; the date column has become a
    datetime column without a missing date, and every other column has
    kept its dtype.  The table is a new object, and the objects that
    existed, the caller's table among them, are as they were. *)
Theorem clean_data_schema st df d r st' :
  heap st !! df = Some d → wf d →
  clean_data df st = (Returned r, st') →
  ∃ cleaned,
    heap st' = heap st ++ [cleaned] ∧ r = length (heap st) ∧
    wf cleaned ∧
    (∀ name, is_Some (columns cleaned !! name) ↔ is_Some (columns d !! name)) ∧
    (∃ l, columns cleaned !! "date" = Some (Datetime64 l) ∧ NaT ∉ l) ∧
    ∀ name c, name ≠ "date" → columns d !! name = Some c →
      ∃ c', columns cleaned !! name = Some c' ∧ dtype c' = dtype c.
Proof.
  intros Hd Hwf Hrun.
  apply clean_data_Returned in Hrun as (d' & filtered & sorted & dropped & Hd' & Hst & -> & ->).
  assert (d' = d) as -> by congruence.
  exists (fill_frame dropped). simpl. split_and!; [done..| | | |].
  - by destruct (clean_stages_wf _ _ _ _ _ _ Hwf Hst) as (_ & _ & _ & ?).
  - intros name.
    destruct (clean_stages_column _ _ _ _ Hwf Hst) as (m & keys & mask & _ & _ & _ & _ & Hcol).
    destruct (decide (name = "date")) as [->|Hname].
    + destruct (clean_stages_date _ _ _ _ _ _ Hst) as (l & _ & Hl).
      apply clean_stages_inv in Hst as (? & date0 & ? & ? & _ & Hd0 & _).
      change (fill_numeric <$> columns dropped) with (columns (fill_frame dropped)).
      rewrite Hl, Hd0. by split.
    + by rewrite lookup_fmap, (Hcol name Hname), !fmap_is_Some.
  - destruct (clean_stages_critical _ _ _ _ _ _ "date" Hst) as (c & Hc & Hc' & Hna).
    { unfold critical. set_solver. }
    destruct (clean_stages_date _ _ _ _ _ _ Hst) as (l & _ & Hl).
    exists l. split; [done|]. rewrite Hl in Hc'. injection Hc' as <-.
    intros Hin. simpl in Hna. rewrite Forall_fmap, Forall_forall in Hna.
    by specialize (Hna NaT Hin).
  - intros name c Hname Hc.
    destruct (clean_stages_column _ _ _ _ Hwf Hst) as (m & keys & mask & _ & _ & _ & _ & Hcol).
    rewrite lookup_fmap, (Hcol name Hname), Hc. simpl. eexists. split; [done|].
    by destruct c.
Qed.

(** X3. The filter, the sort and the row removal of [clean_data] keep
    rows whole: in every column but the date, the cell that a row label
    carries after the row removal is the cell it carried in the input,
    no label is duplicated or invented, and the gap-fill that follows
    moves no row. *)
Theorem clean_data_rows_intact st df d r st' :
  heap st !! df = Some d → wf d →
  clean_data df st = (Returned r, st') →
  ∃ filtered sorted dropped cleaned,
    clean_stages d filtered sorted dropped ∧
    heap st' !! r = Some cleaned ∧
    index cleaned = index dropped ∧
    index dropped ⊆+ index d ∧
    (NoDup (index d) → NoDup (index cleaned)) ∧
    ∀ name, name ≠ "date" → labelled dropped name ⊆+ labelled d name.
Proof.
  intros Hd Hwf Hrun.
  apply clean_data_Returned in Hrun as (d' & filtered & sorted & dropped & Hd' & Hst & -> & ->).
  assert (d' = d) as -> by congruence.
  destruct (clean_stages_column _ _ _ _ Hwf Hst)
    as (m & keys & mask & Hm & Hkeys & Hmask & Hidx & Hcol).
  assert (index dropped ⊆+ index d) as Hsub.
  { rewrite Hidx. etrans; [apply select_submseteq|].
    rewrite sort_by_Permutation by done. apply select_submseteq. }
  exists filtered, sorted, dropped, (fill_frame dropped).
  split_and!; [done|by apply list_lookup_middle|done|done| |].
  - intros Hnd. simpl. by apply (NoDup_submseteq_inv _ (index d)).
  - intros name Hname. unfold labelled, column_cells.
    rewrite (Hcol name Hname).
    destruct (columns d !! name) as [c|] eqn:Hc; simpl.
    2:{ rewrite zip_with_nil_r. apply submseteq_nil_l. }
    pose proof (wf_lookup _ _ _ Hwf Hc) as Hlen. rewrite col_length_cells in Hlen.
    rewrite Hidx, cells_select, cells_sort_by, cells_select.
    rewrite <-select_zip, <-sort_by_zip, <-select_zip.
    + etrans; [apply select_submseteq|].
      rewrite sort_by_Permutation; [apply select_submseteq|].
      rewrite Hkeys, !length_select; [done|..]; rewrite ?length_zip; unfold len in *; lia.
    + rewrite !length_select by (unfold len in *; lia). lia.
Qed.

(** X4. [clean_data] needs the location column, the date column and the
    three count columns: when one of them is absent it raises, a
    [KeyError] naming the location or the date column when that is the
    one looked up first, after printing its banner only and without
    creating a table. *)
Theorem clean_data_missing_column st df d :
  heap st !! df = Some d →
  let failed e :=
    clean_data df st =
      (Raised e, {| heap := heap st;
                    stdout := stdout st ++ [Printed (nl +:+ "--- Data Cleaning ---")] |}) in
  (columns d !! "location" = None → failed (KeyError "location")) ∧
  (is_Some (columns d !! "location") → columns d !! "date" = None →
     failed (KeyError "date")) ∧
  (∀ name, name ∈ critical → columns d !! name = None → ∃ e, failed e).
Proof.
  intros Hd failed. unfold failed. unfold Script.clean_data. run. run. rewrite Hd.
  split_and!.
  - intros Hl. unfold getitem at 1. by rewrite Hl.
  - intros [location Hl] Hdate. unfold getitem at 1. rewrite Hl. simpl.
    unfold getitem. simpl. by rewrite lookup_fmap, Hdate.
  - intros name Hname Hnone. unfold getitem at 1.
    destruct (columns d !! "location") as [location|]; simpl; [|by eexists].
    set (filtered := boolean_index _ d).
    destruct (getitem filtered "date") as [e|date0] eqn:Hdate0; simpl; [by eexists|].
    destruct (to_datetime date0) as [e|date] eqn:Hdate; simpl; [by eexists|].
    destruct (sort_values _ _ _) as [e|sorted] eqn:Hsorted; simpl; [by eexists|].
    destruct (dropna _ sorted) as [e|dropped] eqn:Hdropped; simpl; [by eexists|].
    exfalso. unfold dropna in Hdropped.
    destruct (notna_all sorted critical) as [|mask] eqn:Hmask; [done|].
    apply notna_all_inr in Hmask as [Hcols _].
    destruct (Hcols name Hname) as [c Hc].
    unfold sort_values, getitem in Hsorted. simpl in Hsorted.
    destruct (_ !! "location") in Hsorted; [|done]. simpl in Hsorted.
    destruct (_ !! "date") in Hsorted; [|done]. simpl in Hsorted.
    injection Hsorted as <-. simpl in Hc.
    rewrite lookup_fmap, lookup_insert in Hc. case_decide as Hn.
    + subst name. unfold getitem, filtered in Hdate0. simpl in Hdate0.
      by rewrite lookup_fmap, Hnone in Hdate0.
    + by rewrite lookup_fmap, Hnone in Hc.
Qed.

(** X17. Only the dates of the kept countries are parsed.  Replacing the
    date text of rows that the country filter removes changes nothing
    about the cleaning: same outcome (the same exception, or the same
    cleaned table), same output; only the input object, which the
    cleaning does not touch, differs. *)
Theorem clean_data_ignores_excluded_dates st df d location dates dates' :
  heap st !! df = Some d →
  columns d !! "location" = Some location →
  columns d !! "date" = Some (Object dates) →
  select (isin countries_of_interest location) dates' =
    select (isin countries_of_interest location) dates →
  let d' := setitem d "date" (Object dates') in
  clean_data df {| heap := <[df := d']> (heap st); stdout := stdout st |} =
    let (outcome, st') := clean_data df st in
    (outcome, {| heap := <[df := d']> (heap st'); stdout := stdout st' |}).
Proof.
  intros Hd Hl Hdate Hsel d'.
  pose proof (lookup_lt_Some _ _ _ Hd) as Hlt.
  unfold Script.clean_data. run. run.
  rewrite list_lookup_insert_eq, Hd by done.
  unfold getitem at 1 3. simpl.
  rewrite (lookup_insert_ne _ "date" "location") by done. rewrite Hl. simpl.
  set (m := isin countries_of_interest location) in *.
  assert (getitem (boolean_index m d') "date" = getitem (boolean_index m d) "date") as ->.
  { unfold getitem. simpl. rewrite !lookup_fmap, lookup_insert_eq, Hdate. simpl.
    by rewrite Hsel. }
  destruct (getitem (boolean_index m d) "date") as [e|date0]; simpl; [done|].
  destruct (to_datetime date0) as [e|date]; simpl; [done|].
  assert (setitem (boolean_index m d') "date" (Datetime64 date)
          = setitem (boolean_index m d) "date" (Datetime64 date)) as ->.
  { apply frame_eq; [done|]. simpl. by rewrite fmap_insert, insert_insert_eq. }
  destruct (sort_values _ _ _) as [e|sorted]; simpl; [done|].
  destruct (dropna _ sorted) as [e|dropped]; simpl; [done|].
  by rewrite length_insert, insert_app_l.
Qed.

(** A column other than the date is in the cleaned table exactly when it
    is in the input, with the same dtype. *)
Lemma clean_stages_lookup d filtered sorted dropped name :
  wf d → clean_stages d filtered sorted dropped → name ≠ "date" →
  ∃ f : Column → Column,
    (∀ c, dtype (f c) = dtype c) ∧
    columns (fill_frame dropped) !! name = f <$> columns d !! name.
Proof.
  intros Hwf Hst Hname.
  destruct (clean_stages_column _ _ _ _ Hwf Hst) as (m & keys & mask & _ & _ & _ & _ & Hcol).
  eexists (λ c, fill_numeric _). split; [|by rewrite lookup_fill_frame, (Hcol name Hname),
                                             <-option_fmap_compose].
  by intros [].
Qed.

(** The cleaning does not depend on what has been printed. *)
Lemma clean_data_after st evs df r st' :
  clean_data df st = (Returned r, st') →
  clean_data df {| heap := heap st; stdout := stdout st ++ evs |} =
    (Returned r, {| heap := heap st'; stdout := (stdout st ++ evs) ++
                                        drop (length (stdout st)) (stdout st') |}).
Proof.
  intros (d & filtered & sorted & dropped & Hd & Hst & -> & ->)%clean_data_Returned.
  apply clean_data_Returned. exists d, filtered, sorted, dropped. simpl.
  split_and!; [done..|]. by rewrite drop_app_length.
Qed.

(** X14. When the upload holds no name ending in ".csv", or the first such
    file cannot be decoded or parsed, the driver ends normally after the
    prompt and one message: no table is created, nothing is explored,
    cleaned or charted. *)
Theorem main_without_table uploaded st :
  (Forall not_csv uploaded ∨
   ∃ pre fn content post e,
     uploaded = pre ++ (fn, content) :: post ∧
     Forall not_csv pre ∧ endswith fn ".csv" = true ∧
     (decode_utf8 content ≫= read_csv) = inl e) →
  ∃ msg,
    main uploaded st =
      (Returned (),
       {| heap := heap st;
          stdout := stdout st ++
            [Printed "Please upload your 'owid-covid-data.csv' file."; Printed msg] |}).
Proof.
  unfold Script.main, Script.load_data_from_upload.
  intros [Hnone|(pre & fn & content & post & e & -> & Hpre & Hfn & He)].
  - rewrite first_csv_none by done. run. eexists. by rewrite <-app_assoc.
  - rewrite (first_csv_some _ _ _ _ _ Hpre Hfn). unfold truthy.
    rewrite bool_decide_eq_false_2 by by apply endswith_csv_nonempty.
    run. rewrite (dict_get_first _ _ _ _ Hpre Hfn). simpl.
    destruct (decode_utf8 content) as [e'|text]; simpl.
    { eexists. by rewrite <-app_assoc. }
    simpl in He. rewrite He. simpl. eexists. by rewrite <-app_assoc.
Qed.


(** X16. The driver catches nothing after the load.  When the cleaned
    table has rows but the input has no new_cases_smoothed column, the
    third chart raises a [ValueError] that ends the run: total cases and
    total deaths have been shown, the death rate is never computed (the
    cleaned table has no death_rate column added) and no later chart is
    drawn. *)
Theorem main_chart_error_propagates uploaded st data st1 d r st2 cleaned :
  load_data_from_upload uploaded st = (Returned (Some data), st1) →
  heap st1 !! data = Some d → wf d →
  clean_data data st1 = (Returned r, st2) →
  heap st2 !! r = Some cleaned → index cleaned ≠ [] →
  columns d !! "new_cases_smoothed" = None →
  ∃ st' evs msg,
    main uploaded st = (Raised (ValueError msg), st') ∧
    heap st' = heap st1 ++ [cleaned] ∧
    stdout st' = stdout st1 ++ evs ∧
    figures evs =
      [line_figure cleaned "total_cases" "Total COVID-19 Cases Over Time" "Total Cases";
       line_figure cleaned "total_deaths" "Total COVID-19 Deaths Over Time" "Total Deaths"].
Proof.
  intros Hload Hd Hwf Hclean Hc Hne Hsm.
  destruct (clean_data_cleaned_table _ _ _ _ _ _ _ Hd Hwf Hclean) as (cleaned' & Hc' & Hct & _).
  assert (cleaned' = cleaned) as -> by congruence.
  destruct (explore_data_run st1 data d Hd) as (evs0 & Hexplore & Hevs0).
  pose proof (clean_data_after _ evs0 _ _ _ Hclean) as Hclean'.
  apply clean_data_Returned in Hclean
    as (d' & filtered & sorted & dropped & Hd' & Hst & -> & ->).
  assert (d' = d) as -> by congruence.
  cbn [heap stdout] in *. rewrite drop_app_length in Hclean'.
  rewrite list_lookup_middle in Hc by done. injection Hc as <-.
  set (cleaned := fill_frame dropped) in *.
  assert (columns cleaned !! "new_cases_smoothed" = None) as Hsm'.
  { destruct (clean_stages_lookup _ _ _ _ "new_cases_smoothed" Hwf Hst) as (f & _ & Hlook);
      [done|]. unfold cleaned. by rewrite Hlook, Hsm. }
  pose proof Hct as (_ & (c & Hlc & _) & (l & Hl) & Hcrit & _).
  destruct (Hcrit "total_cases") as (tc & Htc & _); [unfold critical; set_solver|].
  destruct (Hcrit "total_deaths") as (td & Htd & _); [unfold critical; set_solver|].
  assert (empty cleaned = false) as Hempty.
  { unfold empty. rewrite !bool_decide_eq_false_2; [done| |done].
    intros Hemp. by rewrite Hemp, lookup_empty in Htd. }
  eexists _, _, _. split_and!.
  - unfold Script.main.
    rewrite (bind_Returned _ _ _ _ _ Hload).
    rewrite (bind_Returned _ _ _ _ _ Hexplore).
    rewrite (bind_Returned _ _ _ _ _ Hclean').
    erewrite bind_Returned; [|by apply deref_run, list_lookup_middle].
    rewrite Hempty. change (negb false) with true. cbv iota.
    unfold plot_total_cases, plot_total_deaths, compare_daily_new_cases.
    erewrite bind_Returned;
      [|apply (plot_over_time_run _ _ _ _ _ _ cleaned); [by apply list_lookup_middle|done..]].
    erewrite bind_Returned;
      [|apply (plot_over_time_run _ _ _ _ _ _ cleaned); [by apply list_lookup_middle|done..]].
    erewrite bind_Raised;
      [|apply (plot_over_time_missing _ _ _ _ _ _ cleaned); [by apply list_lookup_middle|done..]].
    reflexivity.
  - done.
  - cbn [stdout]. rewrite <-!app_assoc. reflexivity.
  - by rewrite !figures_app, (figures_not_shown evs0).
Qed.

End Pipeline.

(** * The further properties on sample tables *)

(** Row 2 of this column is a gap between the values 3 and 5. *)
Lemma fill_numeric_cell_witness :
  let l := [NaN; Sample.num 3; NaN; Sample.num 5] in
  ∃ l',
    fill_numeric (Float64 l) = Float64 l' ∧ length l' = length l ∧
    (present NaN → l' !! 2 = Some NaN) ∧
    (∀ j v, j < 2 → l !! j = Some v → present v →
       (∀ k, j < k → k ≤ 2 → l !! k = Some NaN) → l' !! 2 = Some v) ∧
    (∀ j v, 2 < j → l !! j = Some v → present v →
       (∀ k, k < j → l !! k = Some NaN) → l' !! 2 = Some v).
Proof.
  apply (fill_numeric_cell [NaN; Sample.num 3; NaN; Sample.num 5] 2 NaN).
  reflexivity.
Defined.

Lemma death_rate_nonnegative_witness :
  Forall (λ x, is_negative x = false)
    (death_rate [Sample.num 2; Sample.num 0; Sample.num 1]
                [Sample.num 100; Sample.num 0; Sample.num 50]).
Proof.
  apply death_rate_nonnegative; repeat constructor.
Defined.

(** A sample table is a cleaned table. *)
Ltac cleaned_sample :=
  split_and!;
  [ apply (bool_decide_unpack _); evaluate
  | eexists; split; [evaluate|];
    repeat (apply Forall_cons; split;
              [unfold allowed; first [by left | by right; left | by right; right]|]);
    constructor
  | eexists; evaluate
  | intros name; unfold critical; rewrite !elem_of_cons, elem_of_nil;
    intros [-> | [-> | [-> | [-> | []]]]]; (eexists; split; [evaluate|]);
    by repeat constructor
  | apply (bool_decide_unpack _); evaluate
  | evaluate ].

Lemma clean_data_schema_witness :
  let d := Sample.four_countries in
  ∃ cleaned,
    heap (Sample.cleaned d) = heap (Sample.holding d) ++ [cleaned] ∧
    1 = length (heap (Sample.holding d)) ∧
    wf cleaned ∧
    (∀ name, is_Some (columns cleaned !! name) ↔ is_Some (columns d !! name)) ∧
    (∃ l, columns cleaned !! "date" = Some (Datetime64 l) ∧ NaT ∉ l) ∧
    ∀ name c, name ≠ "date" → columns d !! name = Some c →
      ∃ c', columns cleaned !! name = Some c' ∧ dtype c' = dtype c.
Proof.
  apply (clean_data_schema Sample.strptime Sample.datetime_of_float
           (Sample.holding Sample.four_countries) 0 Sample.four_countries 1
           (Sample.cleaned Sample.four_countries)).
  - reflexivity.
  - apply (bool_decide_unpack _). evaluate.
  - evaluate.
Defined.

Lemma clean_data_rows_intact_witness :
  let d := Sample.four_countries in
  ∃ filtered sorted dropped cleaned,
    clean_stages Sample.strptime Sample.datetime_of_float d filtered sorted dropped ∧
    heap (Sample.cleaned d) !! 1 = Some cleaned ∧
    index cleaned = index dropped ∧
    index dropped ⊆+ index d ∧
    (NoDup (index d) → NoDup (index cleaned)) ∧
    ∀ name, name ≠ "date" → labelled dropped name ⊆+ labelled d name.
Proof.
  apply (clean_data_rows_intact Sample.strptime Sample.datetime_of_float
           (Sample.holding Sample.four_countries) 0 Sample.four_countries 1
           (Sample.cleaned Sample.four_countries)).
  - reflexivity.
  - apply (bool_decide_unpack _). evaluate.
  - evaluate.
Defined.

Lemma clean_data_missing_column_witness :
  clean_data Sample.strptime Sample.datetime_of_float 0
      (Sample.holding Defective.no_location) =
    (Raised (KeyError "location"),
     {| heap := [Defective.no_location];
        stdout := [Printed (nl +:+ "--- Data Cleaning ---")] |}).
Proof.
  destruct (clean_data_missing_column Sample.strptime Sample.datetime_of_float
              (Sample.holding Defective.no_location) 0 Defective.no_location)
    as (Hlocation & _); [reflexivity|].
  by apply Hlocation.
Defined.

(** The last row, of Brazil, has a date that does not parse; so has the
    replacement. *)
Lemma clean_data_ignores_excluded_dates_witness :
  let d := Sample.four_countries in
  let dates' := [Some "2021-03-01"; None; Some "2021-03-02"; Some "2021-03-01";
                 Some "2021-03-01"; Some "31/12/2020"] in
  let d' := setitem d "date" (Object dates') in
  clean_data Sample.strptime Sample.datetime_of_float 0
      {| heap := <[0 := d']> (heap (Sample.holding d)); stdout := stdout (Sample.holding d) |} =
    let (outcome, st') :=
      clean_data Sample.strptime Sample.datetime_of_float 0 (Sample.holding d) in
    (outcome, {| heap := <[0 := d']> (heap st'); stdout := stdout st' |}).
Proof.
  apply (clean_data_ignores_excluded_dates Sample.strptime Sample.datetime_of_float
           (Sample.holding Sample.four_countries) 0 Sample.four_countries
           (Object [Some "United States"; Some "Brazil"; Some "India";
                    Some "Canada"; Some "India"; Some "Brazil"])
           [Some "2021-03-01"; Some "2021-03-01"; Some "2021-03-02";
            Some "2021-03-01"; Some "2021-03-01"; Some "not a date"]).
  - reflexivity.
  - evaluate.
  - evaluate.
  - evaluate.
Defined.

Lemma calculate_and_plot_death_rate_raises_witness :
  let st := Sample.holding Defective.text_counts in
  let st' := (calculate_and_plot_death_rate 0 st).2 in
  let d := Defective.text_counts in
  let e := TypeError "unsupported operand type(s) for /" in
  stdout st' =
    stdout st ++ [Printed (nl +:+ "--- Calculating and Plotting Death Rate ---")] ∧
  ((heap st' = heap st ∧
    ∃ name, name ∈ ["total_deaths"; "total_cases"] ∧
      match columns d !! name with
      | None => e = KeyError name
      | Some c => dtype c ≠ "float64" ∧ ∃ msg, e = TypeError msg
      end)
   ∨
   (∃ td tc msg,
      columns d !! "total_deaths" = Some (Float64 td) ∧
      columns d !! "total_cases" = Some (Float64 tc) ∧
      (columns d !! "date" = None ∨ columns d !! "location" = None) ∧
      e = ValueError msg ∧
      heap st' = <[0 := setitem d "death_rate" (Float64 (death_rate td tc))]> (heap st))).
Proof.
  apply (calculate_and_plot_death_rate_raises (Sample.holding Defective.text_counts) 0
           Defective.text_counts).
  - reflexivity.
  - evaluate.
Defined.

(** Without a date column the chart fails after the column was
    assigned. *)
Example death_rate_assigned_before_chart :
  ∃ msg st',
    calculate_and_plot_death_rate 0 (Sample.holding Defective.counts_only)
      = (Raised (ValueError msg), st') ∧
    ∃ d', heap st' !! 0 = Some d' ∧ is_Some (columns d' !! "death_rate").
Proof.
  eexists _, _. split; [evaluate|]. eexists. split; [evaluate|]. eexists. evaluate.
Qed.

Lemma calculate_and_plot_death_rate_twice_witness :
  let st := Sample.holding Sample.india_starts_at_zero in
  let st1 := (calculate_and_plot_death_rate 0 st).2 in
  ∃ fig,
    last (stdout st1) = Some (Shown fig) ∧
    calculate_and_plot_death_rate 0 st1 =
      (Returned (),
       {| heap := heap st1;
          stdout := stdout st1 ++
            [Printed (nl +:+ "--- Calculating and Plotting Death Rate ---");
             Shown fig] |}).
Proof.
  apply (calculate_and_plot_death_rate_twice (Sample.holding Sample.india_starts_at_zero) 0).
  evaluate.
Defined.

Lemma line_chart_outcome_witness :
  let d := Sample.vaccinated in
  let st := Sample.holding d in
  ∃ r evs,
    compare_daily_new_cases 0 st = (r, {| heap := heap st; stdout := stdout st ++ evs |}) ∧
    ((∀ name, name ∈ ["date"; "new_cases_smoothed"; "location"] →
        is_Some (columns d !! name)) →
     r = Returned () ∧
     figures evs = [line_figure d "new_cases_smoothed"
                      "Daily New COVID-19 Cases (Smoothed) Over Time"
                      "New Cases (Smoothed)"]) ∧
    (∀ name, name ∈ ["date"; "new_cases_smoothed"; "location"] →
       columns d !! name = None →
     (∃ msg, r = Raised (ValueError msg)) ∧ figures evs = []).
Proof.
  apply (line_chart_outcome "new_cases_smoothed"
           "Daily New COVID-19 Cases (Smoothed) Over Time" "New Cases (Smoothed)"
           compare_daily_new_cases (Sample.holding Sample.vaccinated) 0 Sample.vaccinated).
  - unfold line_charts. do 2 right. left.
  - reflexivity.
Defined.

Lemma compare_vaccinated_population_all_or_none_witness :
  let d := Sample.vaccinated in
  let st := Sample.holding d in
  let l := [Sample.num 1; Sample.num 2; Sample.num 3] in
  ∃ ev,
    compare_vaccinated_population 0 st =
      (Returned (),
       {| heap := heap st;
          stdout := stdout st ++
            [Printed (nl +:+ "--- Comparing Vaccinated Population (%) ---"); ev] |}) ∧
    ((Exists present l ∧ Forall present l ∧
      ∃ latest, ev = Shown (vaccination_figure latest) ∧
                column_cells latest "location" = group_keys (column_cells d "location") ∧
                Forall (λ x, cell_isna x = false)
                  (column_cells latest "people_vaccinated_per_hundred"))
     ∨
     (Forall (λ x, is_nan x = true) l ∧
      ev = Printed "No vaccination data available for comparison after cleaning.")).
Proof.
  apply (compare_vaccinated_population_all_or_none (Sample.holding Sample.vaccinated) 0
           Sample.vaccinated).
  - reflexivity.
  - cleaned_sample.
  - apply (bool_decide_unpack _). evaluate.
  - evaluate.
Defined.

Lemma compare_vaccinated_population_missing_column_witness :
  let st := Sample.holding Sample.india_starts_at_zero in
  ∃ key,
    compare_vaccinated_population 0 st =
      (Raised (KeyError key),
       {| heap := heap st;
          stdout := stdout st ++
            [Printed (nl +:+ "--- Comparing Vaccinated Population (%) ---")] |}).
Proof.
  apply (compare_vaccinated_population_missing_column
           (Sample.holding Sample.india_starts_at_zero) 0 Sample.india_starts_at_zero).
  - reflexivity.
  - cleaned_sample.
  - evaluate.
Defined.

Lemma explore_data_read_only_witness :
  let d := Sample.four_countries in
  let st := Sample.holding d in
  ∃ evs,
    explore_data 0 st = (Returned (), {| heap := heap st; stdout := stdout st ++ evs |}) ∧
    figures evs = [] ∧
    PrintFrame (head d) ∈ evs ∧ PrintNullCounts (null_counts d) ∈ evs ∧
    wf (head d) ∧ len (head d) = len d `min` 5 ∧
    ∀ name c, columns d !! name = Some c →
      ∃ n, null_counts d !! name = Some n ∧ n ≤ len d ∧
           (n = 0 ↔ Forall (λ x, cell_isna x = false) (cells c)).
Proof.
  apply (explore_data_read_only (Sample.holding Sample.four_countries) 0
           Sample.four_countries).
  - reflexivity.
  - apply (bool_decide_unpack _). evaluate.
Defined.

Lemma death_rate_keeps_cleaned_witness :
  let st := Sample.holding Sample.india_starts_at_zero in
  let st' := (calculate_and_plot_death_rate 0 st).2 in
  ∃ d' rate,
    heap st' !! 0 = Some d' ∧
    cleaned_table d' ∧
    row_keys d' = row_keys Sample.india_starts_at_zero ∧
    columns d' !! "death_rate" = Some (Float64 rate) ∧
    length rate = len d' ∧
    Forall present rate.
Proof.
  apply (death_rate_keeps_cleaned (Sample.holding Sample.india_starts_at_zero) 0
           Sample.india_starts_at_zero).
  - reflexivity.
  - cleaned_sample.
  - evaluate.
Defined.

(** A name in capitals is not a CSV file for the loader. *)
Lemma main_without_table_witness :
  ∃ msg,
    main Sample.strptime Sample.datetime_of_float Sample.decode_utf8 Sample.read_csv
        Defective.upload_notes initial =
      (Returned (),
       {| heap := [];
          stdout := [Printed "Please upload your 'owid-covid-data.csv' file.";
                     Printed msg] |}).
Proof.
  apply (main_without_table Sample.strptime Sample.datetime_of_float Sample.decode_utf8
           Sample.read_csv Defective.upload_notes initial).
  left. by repeat constructor.
Defined.


Lemma main_chart_error_propagates_witness :
  let st1 := (load_data_from_upload Sample.decode_utf8 Defective.read_csv
                Defective.upload_vaccinated initial).2 in
  let cleaned := Sample.vaccinated in
  ∃ st' evs msg,
    main Sample.strptime Sample.datetime_of_float Sample.decode_utf8 Defective.read_csv
      Defective.upload_vaccinated initial = (Raised (ValueError msg), st') ∧
    heap st' = heap st1 ++ [cleaned] ∧
    stdout st' = stdout st1 ++ evs ∧
    figures evs =
      [line_figure cleaned "total_cases" "Total COVID-19 Cases Over Time" "Total Cases";
       line_figure cleaned "total_deaths" "Total COVID-19 Deaths Over Time" "Total Deaths"].
Proof.
  intros st1 cleaned.
  apply (main_chart_error_propagates Sample.strptime Sample.datetime_of_float
           Sample.decode_utf8 Defective.read_csv Defective.upload_vaccinated initial 0 st1
           Sample.vaccinated 1
           (clean_data Sample.strptime Sample.datetime_of_float 0 st1).2).
  - evaluate.
  - evaluate.
  - apply (bool_decide_unpack _). evaluate.
  - evaluate.
  - evaluate.
  - by vm_compute.
  - evaluate.
Defined.
